(** * Tweet viewer (streamlit_app.py): model and verified properties

    The development follows the script top to bottom: the Python values it
    manipulates (strings, datetimes, exceptions), the date utilities, the
    load-time sort, the filter pipeline, cursor revalidation, the button
    handlers and the JSON export.  Definitions come first, theorems after. *)

From Stdlib Require Import ZArith List String Ascii Bool Lia Btauto.
From stdpp Require Import base option list gmap sets strings sorting pretty.

Local Open Scope Z_scope.

(** ** Exceptions and the error monad

    Python code either returns a value or raises; [result] keeps the two
    apart, and [try ... except: ...] becomes [catch]. *)

Inductive exn : Set :=
| ValueError
| TypeError
| AttributeError
| IndexError.

Inductive result (A : Type) : Type :=
| Ok (a : A)
| Raise (e : exn).
Arguments Ok {A} a.
Arguments Raise {A} e.

Definition bind {A B : Type} (m : result A) (k : A -> result B) : result B :=
  match m with
  | Ok a => k a
  | Raise e => Raise e
  end.

Notation "'letR' x ':=' m 'in' k" := (bind m (fun x => k))
  (at level 10, x pattern, m at level 200, k at level 200,
   format "'[v' 'letR'  x  ':='  m  'in' '/' k ']'").

(** [try: body except: handler] with a bare [except]. *)
Definition catch {A : Type} (body : result A) (handler : A) : A :=
  match body with
  | Ok a => a
  | Raise _ => handler
  end.

(** A list comprehension [[i for i in l if p(i)]] whose condition may raise:
    the elements are visited left to right and the first exception aborts
    the whole comprehension. *)
Fixpoint filter_m {A : Type} (p : A -> result bool) (l : list A)
  : result (list A) :=
  match l with
  | [] => Ok []
  | x :: l' =>
      letR b := p x in
      letR r := filter_m p l' in
      Ok (if b then x :: r else r)
  end.

(** ** Python [str] operations used by the script

    A [str] is modelled by its UTF-8 bytes.  Substring search, splitting on
    an ASCII character and comparison by code point all agree with their
    byte-level counterparts on UTF-8 text. *)

Module PyStr.

(** [needle in hay] *)
Fixpoint contains (needle hay : string) : bool :=
  if String.prefix needle hay then true
  else match hay with
       | EmptyString => false
       | String _ hay' => contains needle hay'
       end.

(** [s.replace(old, new)] for a one-character [old]. *)
Fixpoint replace (old : ascii) (new : string) (s : string) : string :=
  match s with
  | EmptyString => EmptyString
  | String c s' =>
      if Ascii.eqb c old then new +:+ replace old new s'
      else String c (replace old new s')
  end.

(** [s.split(sep)] for a one-character [sep]: always at least one token. *)
Fixpoint split (sep : ascii) (s : string) : list string :=
  match s with
  | EmptyString => [EmptyString]
  | String c s' =>
      if Ascii.eqb c sep then EmptyString :: split sep s'
      else match split sep s' with
           | tok :: toks => String c tok :: toks
           | [] => [String c EmptyString]
           end
  end.

(** UTF-8 decoding: the code point at the head of [s] and the number of
    bytes that encode it.  Only the shortest encoding of a code point is
    read, and no surrogate. *)
Definition is_continuation (c : ascii) : bool :=
  let n := N_of_ascii c in ((128 <=? n) && (n <? 192))%N.

Definition low6 (c : ascii) : N := (N_of_ascii c - 128)%N.

Definition decode (s : string) : option (N * nat) :=
  match s with
  | EmptyString => None
  | String c0 r =>
      let b0 := N_of_ascii c0 in
      if (b0 <? 128)%N then Some (b0, 1%nat)
      else if (b0 <? 192)%N then None
      else if (b0 <? 224)%N then
        match r with
        | String c1 _ =>
            let cp := ((b0 - 192) * 64 + low6 c1)%N in
            if is_continuation c1 && (128 <=? cp)%N
            then Some (cp, 2%nat) else None
        | _ => None
        end
      else if (b0 <? 240)%N then
        match r with
        | String c1 (String c2 _) =>
            let cp := (((b0 - 224) * 64 + low6 c1) * 64 + low6 c2)%N in
            if is_continuation c1 && is_continuation c2 && (2048 <=? cp)%N
               && negb ((55296 <=? cp) && (cp <=? 57343))%N
            then Some (cp, 3%nat) else None
        | _ => None
        end
      else if (b0 <? 248)%N then
        match r with
        | String c1 (String c2 (String c3 _)) =>
            let cp := ((((b0 - 240) * 64 + low6 c1) * 64 + low6 c2) * 64
                       + low6 c3)%N in
            if is_continuation c1 && is_continuation c2 && is_continuation c3
               && (65536 <=? cp)%N && (cp <=? 1114111)%N
            then Some (cp, 4%nat) else None
        | _ => None
        end
      else None
  end.

(** The code points of a text; [skip] counts the bytes of the code point
    just read that are still to pass over.  [None] when the bytes are not
    UTF-8. *)
Fixpoint code_points_go (skip : nat) (s : string) : option (list N) :=
  match s with
  | EmptyString => Some []
  | String _ s' =>
      match skip with
      | S k => code_points_go k s'
      | O =>
          match decode s with
          | Some (cp, n) =>
              match code_points_go (Nat.pred n) s' with
              | Some cps => Some (cp :: cps)
              | None => None
              end
          | None => None
          end
      end
  end.

Definition code_points (s : string) : option (list N) := code_points_go 0 s.

(** [len(s)]: the number of code points, that is of bytes that are not
    continuation bytes. *)
Fixpoint len (s : string) : nat :=
  match s with
  | EmptyString => O
  | String c s' => if is_continuation c then len s' else S (len s')
  end.

(** [c.isspace()]: the characters removed by [str.strip()].  TAB, LF, VT,
    FF, CR, the separators 0x1c-0x1f, SPACE, NEL, NO-BREAK SPACE, OGHAM
    SPACE MARK, the spaces U+2000-U+200A, LINE and PARAGRAPH SEPARATOR,
    NARROW NO-BREAK SPACE, MEDIUM MATHEMATICAL SPACE, IDEOGRAPHIC SPACE. *)
Definition is_space (cp : N) : bool :=
  (((9 <=? cp) && (cp <=? 13)) || ((28 <=? cp) && (cp <=? 32))
   || (cp =? 133) || (cp =? 160) || (cp =? 5760)
   || ((8192 <=? cp) && (cp <=? 8202))
   || (cp =? 8232) || (cp =? 8233) || (cp =? 8239) || (cp =? 8287)
   || (cp =? 12288))%N.

(** Number of bytes of the whitespace character at the head of [s]; 0 when
    [s] does not start with one. *)
Definition space_width (s : string) : nat :=
  match decode s with
  | Some (cp, n) => if is_space cp then n else O
  | None => O
  end.

Fixpoint lstrip_go (skip : nat) (s : string) : string :=
  match s with
  | EmptyString => EmptyString
  | String _ s' =>
      match skip with
      | S k => lstrip_go k s'
      | O =>
          match space_width s with
          | S k => lstrip_go k s'
          | O => s
          end
      end
  end.

Definition lstrip (s : string) : string := lstrip_go 0 s.

(** A text made of whitespace only. *)
Definition all_space (s : string) : bool := String.eqb (lstrip s) EmptyString.

(** The text up to its last character that is not whitespace.  No tail of
    UTF-8 text that starts inside a character decodes to whitespace, so the
    test is made at every byte. *)
Fixpoint rstrip (s : string) : string :=
  match s with
  | EmptyString => EmptyString
  | String c s' => if all_space s then EmptyString else String c (rstrip s')
  end.

Definition strip (s : string) : string := rstrip (lstrip s).

(** The characters of value zero of the decimal digit ranges of Unicode
    14.0 (category Nd); each range holds the digits 0 to 9 in order.  These
    are the characters that [\d] matches and that [int] converts. *)
Definition decimal_zeros : list N :=
  [48; 1632; 1776; 1984; 2406; 2534; 2662; 2790; 2918; 3046; 3174; 3302;
   3430; 3558; 3664; 3792; 3872; 4160; 4240; 6112; 6160; 6470; 6608; 6784;
   6800; 6992; 7088; 7232; 7248; 42528; 43216; 43264; 43472; 43504; 43600;
   44016; 65296; 66720; 68912; 69734; 69872; 69942; 70096; 70384; 70736;
   70864; 71248; 71360; 71472; 71904; 72016; 72784; 73040; 73120; 92768;
   92864; 93008; 120782; 120792; 120802; 120812; 120822; 123200; 123632;
   125264; 130032]%N.

Definition decimal (cp : N) : option Z :=
  match List.find (fun z => (z <=? cp) && (cp <? z + 10))%N decimal_zeros with
  | Some z => Some (Z.of_N (cp - z))
  | None => None
  end.

(** Value of an ASCII decimal digit. *)
Definition digit (c : ascii) : option Z :=
  let n := Z.of_nat (nat_of_ascii c) in
  if (48 <=? n) && (n <=? 57) then Some (n - 48) else None.

End PyStr.

(** ** [datetime] objects

    A datetime is naive ([tzinfo = None]) or aware (a fixed UTC offset, kept
    in microseconds).  Ordering a naive against an aware datetime raises
    [TypeError]; this is where the script's date handling can fail. *)

Module PyDatetime.

Record datetime : Set := mk_datetime {
  year : Z; month : Z; day : Z;
  hour : Z; minute : Z; second : Z; microsecond : Z;
  tzinfo : option Z
}.

(** [datetime.min]: 0001-01-01 00:00:00, naive. *)
Definition min : datetime := mk_datetime 1 1 1 0 0 0 0 None.

Definition is_leap (y : Z) : bool :=
  (y mod 4 =? 0) && (negb (y mod 100 =? 0) || (y mod 400 =? 0)).

Definition days_in_month (y m : Z) : Z :=
  if m =? 2 then (if is_leap y then 29 else 28)
  else if (m =? 4) || (m =? 6) || (m =? 9) || (m =? 11) then 30
  else 31.

Definition days_before_year (y : Z) : Z :=
  let y' := y - 1 in y' * 365 + y' / 4 - y' / 100 + y' / 400.

Fixpoint days_before_month_aux (y : Z) (n : nat) : Z :=
  match n with
  | O => 0
  | S n' => days_before_month_aux y n' + days_in_month y (Z.of_nat n)
  end.

(** Days in the year before the first day of month [m]. *)
Definition days_before_month (y m : Z) : Z :=
  days_before_month_aux y (Z.to_nat (m - 1)).

(** Proleptic Gregorian ordinal; 0001-01-01 is day 1. *)
Definition ymd2ord (y m d : Z) : Z :=
  days_before_year y + days_before_month y m + d.

(** The constructor's range checks ([ValueError] otherwise). *)
Definition valid_date (y m d : Z) : bool :=
  (1 <=? y) && (y <=? 9999) && (1 <=? m) && (m <=? 12)
  && (1 <=? d) && (d <=? days_in_month y m).

Definition valid_time (h mi s us : Z) : bool :=
  (0 <=? h) && (h <? 24) && (0 <=? mi) && (mi <? 60)
  && (0 <=? s) && (s <? 60) && (0 <=? us) && (us <? 1000000).

Definition day_us : Z := 86400 * 1000000.

Definition valid_offset (off : Z) : bool :=
  (- day_us <? off) && (off <? day_us).

Definition make (y m d h mi s us : Z) (tz : option Z) : result datetime :=
  if valid_date y m d && valid_time h mi s us
     && match tz with Some off => valid_offset off | None => true end
  then Ok (mk_datetime y m d h mi s us tz)
  else Raise ValueError.

(** Microseconds of the wall-clock fields since 0001-01-01 minus one day. *)
Definition wall_us (t : datetime) : Z :=
  (((ymd2ord (year t) (month t) (day t) * 24 + hour t) * 60 + minute t) * 60
   + second t) * 1000000 + microsecond t.

(** Three-way comparison behind [<], [<=], ...: same-offset operands are
    compared field by field, aware operands with different offsets by
    their UTC instants, and a naive/aware pair raises. *)
Definition cmp (a b : datetime) : result comparison :=
  match tzinfo a, tzinfo b with
  | None, None => Ok (wall_us a ?= wall_us b)
  | Some oa, Some ob => Ok ((wall_us a - oa) ?= (wall_us b - ob))
  | _, _ => Raise TypeError
  end.

(** Whether a datetime carries a UTC offset, and the point it denotes on
    the axis its kind is compared on: wall-clock microseconds, shifted to
    UTC for an aware datetime. *)
Definition aware (t : datetime) : bool :=
  match tzinfo t with
  | Some _ => true
  | None => false
  end.

Definition instant (t : datetime) : Z :=
  match tzinfo t with
  | Some off => wall_us t - off
  | None => wall_us t
  end.

Definition lt (a b : datetime) : result bool :=
  letR c := cmp a b in Ok (match c with Lt => true | _ => false end).

Definition le (a b : datetime) : result bool :=
  letR c := cmp a b in Ok (match c with Gt => false | _ => true end).

Definition of_option {A : Type} (o : option A) : result A :=
  match o with
  | Some a => Ok a
  | None => Raise ValueError
  end.

(** *** [datetime.fromisoformat]

    The parser of CPython 3.11 ([Modules/_datetimemodule.c]), which works
    on the UTF-8 bytes of the text, a buffer that ends with a NUL byte.  A
    position in the buffer is the list of the bytes from there on; reading
    at the end of the text gives the NUL. *)

Definition NUL : ascii := "000"%char.

Definition peek (cs : list ascii) : ascii := hd NUL cs.

Definition is_digit (c : ascii) : bool :=
  match PyStr.digit c with
  | Some _ => true
  | None => false
  end.

(** [parse_digits]: exactly [n] ASCII digits, accumulated onto [acc]. *)
Fixpoint parse_digits (n : nat) (acc : Z) (cs : list ascii)
  : option (Z * list ascii) :=
  match n with
  | O => Some (acc, cs)
  | S n' =>
      match cs with
      | c :: cs' =>
          match PyStr.digit c with
          | Some d => parse_digits n' (10 * acc + d) cs'
          | None => None
          end
      | [] => None
      end
  end.

(** Ordinal to (year, month, day), the inverse of [ymd2ord]: the 400, 100,
    4 and 1 year cycles before the day, then an estimate of the month that
    is exact or one too large.  [days_before_month] counts the leap day of
    year [y] itself. *)
Definition ord_to_ymd (ordinal : Z) : Z * Z * Z :=
  let n0 := ordinal - 1 in
  let n400 := n0 / 146097 in
  let n := n0 mod 146097 in
  let n100 := n / 36524 in
  let n := n mod 36524 in
  let n4 := n / 1461 in
  let n := n mod 1461 in
  let n1 := n / 365 in
  let n := n mod 365 in
  let y := n400 * 400 + 1 + n100 * 100 + n4 * 4 + n1 in
  if (n1 =? 4) || (n100 =? 4) then (y - 1, 12, 31)
  else
    let m := (n + 50) / 32 in
    let preceding := days_before_month y m in
    if n <? preceding
    then (y, m - 1, n - (preceding - days_in_month y (m - 1)) + 1)
    else (y, m, n - preceding + 1).

(** Monday is 0. *)
Definition weekday (y m d : Z) : Z := (ymd2ord y m d + 6) mod 7.

(** Ordinal of the Monday that starts ISO week 1 of year [y]. *)
Definition iso_week1_monday (y : Z) : Z :=
  let first_day := ymd2ord y 1 1 in
  let first_weekday := (first_day + 6) mod 7 in
  let week1_monday := first_day - first_weekday in
  if 3 <? first_weekday then week1_monday + 7 else week1_monday.

(** ISO year, week and day to (year, month, day).  Week 53 exists in years
    that start on a Thursday, and in leap years that start on a Wednesday.
    For the ISO year 0000 every date lies before 0001-01-01 and the
    constructor refuses it. *)
Definition iso_to_ymd (iso_year iso_week iso_day : Z) : option (Z * Z * Z) :=
  let out_of_range :=
    if (iso_week <=? 0) || (53 <=? iso_week) then
      negb ((iso_week =? 53)
            && (let first_weekday := weekday iso_year 1 1 in
                (first_weekday =? 3)
                || ((first_weekday =? 2) && is_leap iso_year)))
    else false in
  if out_of_range then None
  else if (iso_day <=? 0) || (8 <=? iso_day) then None
  else Some (ord_to_ymd (iso_week1_monday iso_year
                         + ((iso_week - 1) * 7 + iso_day - 1))).

(** Number of ASCII digits at the head of [cs]. *)
Fixpoint digit_run (cs : list ascii) : nat :=
  match cs with
  | c :: cs' => if is_digit c then S (digit_run cs') else O
  | [] => O
  end.

(** [_find_isoformat_datetime_separator]: where the date ends, told from
    the bytes 4 and 5 of the text (of at least 7 characters) and, for an ISO
    week date, from what follows the week number.  -1 stands for a text
    that cannot be a date. *)
Definition find_isoformat_datetime_separator (cs : list ascii) : Z :=
  let len := Z.of_nat (length cs) in
  let at_ (k : nat) := nth k cs NUL in
  if len =? 7 then 7
  else if Ascii.eqb (at_ 4%nat) "-" then
    if Ascii.eqb (at_ 5%nat) "W" then
      if len <? 8 then -1
      else if (8 <? len) && Ascii.eqb (at_ 8%nat) "-" then
        if len =? 9 then -1
        else if (10 <? len) && is_digit (at_ 10%nat) then 8
        else 10
      else 8
    else 10
  else if Ascii.eqb (at_ 4%nat) "W" then
    let idx := 7 + Z.of_nat (digit_run (drop 7 cs)) in
    if idx <? 9 then idx
    else if idx mod 2 =? 0 then 7
    else 8
  else 8.

(** [parse_isoformat_date]: [YYYY-MM-DD], [YYYYMMDD], or the ISO week
    forms [YYYY-Www], [YYYYWww], [YYYY-Www-D], [YYYYWwwD]; [sep] is the
    separator position found above, as the unsigned number it is in C. *)
Definition parse_isoformat_date (cs : list ascii) (sep : Z)
  : option (Z * Z * Z) :=
  let date_len := if sep <? 0 then sep + 2 ^ 64 else sep in
  '(y, r1) ← parse_digits 4 0 cs;
  let uses_separator := Ascii.eqb (peek r1) "-" in
  let r2 := if uses_separator then tl r1 else r1 in
  if Ascii.eqb (peek r2) "W" then
    '(iso_week, r4) ← parse_digits 2 0 (tl r2);
    if Z.of_nat (length cs) - Z.of_nat (length r4) <? date_len then
      if uses_separator && negb (Ascii.eqb (peek r4) "-") then None
      else
        '(iso_day, _) ← parse_digits 1 0 (if uses_separator then tl r4 else r4);
        iso_to_ymd y iso_week iso_day
    else iso_to_ymd y iso_week 1
  else
    '(m, r3) ← parse_digits 2 0 r2;
    if uses_separator && negb (Ascii.eqb (peek r3) "-") then None
    else
      '(d, _) ← parse_digits 2 0 (if uses_separator then tl r3 else r3);
      Some (y, m, d).

(** The loop of [parse_hh_mm_ss_ff] over hour, minute and second: [n]
    fields are still to read, [left] is the distance from the read position
    to the end of the component.  The result holds the fields read, then
    either the return value of the function ([true]: bytes remain) or the
    position where the fraction starts. *)
Fixpoint parse_hms (n : nat) (first has_separator : bool) (cs : list ascii)
    (left : Z) (vals : list Z) : option (list Z * (bool + list ascii * Z)) :=
  match n with
  | O => Some (vals, inr (cs, left))
  | S n' =>
      match parse_digits 2 0 cs with
      | None => None
      | Some (v, cs1) =>
          let c := peek cs1 in
          let has_separator :=
            if first then Ascii.eqb c ":" else has_separator in
          if left - 3 <=? 0
          then Some (vals ++ [v], inl (negb (Ascii.eqb c NUL)))
          else if has_separator && Ascii.eqb c ":"
          then parse_hms n' false has_separator (tl cs1) (left - 3)
                 (vals ++ [v])
          else if Ascii.eqb c "." || Ascii.eqb c ","
          then Some (vals ++ [v], inr (tl cs1, left - 3))
          else if negb has_separator
          then parse_hms n' false has_separator cs1 (left - 2) (vals ++ [v])
          else None
      end
  end.

(** [parse_hh_mm_ss_ff]: [HH[:?MM[:?SS[[.,]f+]]]] in a component of [left]
    bytes.  At most six digits of the fraction count, further digits are
    passed over.  The boolean tells whether the byte where parsing stopped
    is something else than NUL. *)
Definition parse_hh_mm_ss_ff (cs : list ascii) (left : Z)
  : option (Z * Z * Z * Z * bool) :=
  '(vals, rest) ← parse_hms 3 true true cs left [];
  let h := nth 0 vals 0 in
  let mi := nth 1 vals 0 in
  let sec := nth 2 vals 0 in
  match rest with
  | inl more => Some (h, mi, sec, 0, more)
  | inr (fs, len_remains) =>
      let to_parse := Z.to_nat (Z.min len_remains 6) in
      '(us, r) ← parse_digits to_parse 0 fs;
      Some (h, mi, sec, us * 10 ^ (6 - Z.of_nat to_parse),
            negb (Ascii.eqb (peek (drop (digit_run r) r)) NUL))
  end.

(** Position of the first ['Z'], ['+'] or ['-'], or the length of [cs]. *)
Fixpoint tz_index (cs : list ascii) : nat :=
  match cs with
  | [] => O
  | c :: cs' =>
      if Ascii.eqb c "Z" || Ascii.eqb c "+" || Ascii.eqb c "-" then O
      else S (tz_index cs')
  end.

(** [parse_isoformat_time]: the time, then nothing, ['Z'], or a signed
    offset read like a time.  The offset is given in seconds and
    microseconds. *)
Definition parse_isoformat_time (cs : list ascii)
  : option (Z * Z * Z * Z * option (Z * Z)) :=
  let k := tz_index cs in
  '(h, mi, sec, us, more) ← parse_hh_mm_ss_ff cs (Z.of_nat k);
  match drop k cs with
  | [] => if (more : bool) then None else Some (h, mi, sec, us, None)
  | c :: rest =>
      if Ascii.eqb c "Z" then
        if Ascii.eqb (peek rest) NUL then Some (h, mi, sec, us, Some (0, 0))
        else None
      else
        let tzsign := if Ascii.eqb c "-" then -1 else 1 in
        '(tzh, tzm, tzs, tzus, more') ←
          parse_hh_mm_ss_ff rest (Z.of_nat (length rest));
        if (more' : bool) then None
        else Some (h, mi, sec, us,
                   Some (tzsign * (tzh * 3600 + tzm * 60 + tzs), tzsign * tzus))
  end.

(** [tzinfo_from_isoformat_results]: an offset of zero seconds is UTC,
    whatever its microseconds. *)
Definition tzinfo_of (tz : option (Z * Z)) : option Z :=
  match tz with
  | None => None
  | Some (tzoffset, tzus) =>
      if tzoffset =? 0 then Some 0 else Some (tzoffset * 1000000 + tzus)
  end.

(** Bytes of the character that separates date and time, told from its
    first byte. *)
Definition separator_width (c : ascii) : nat :=
  let b := N_of_ascii c in
  if (b <? 128)%N then 1%nat
  else if ((224 <=? b) && (b <? 240))%N then 3%nat
  else if (240 <=? b)%N then 4%nat
  else 2%nat.

(** [datetime.fromisoformat(s)].  A text of fewer than 7 characters is
    refused at once.  The date runs up to the separator position; when
    text follows, its first character, whatever it is, separates the date
    from the time.  The constructor then checks the ranges of the fields
    and of the offset. *)
Definition fromisoformat (s : string) : result datetime :=
  if (PyStr.len s <? 7)%nat then Raise ValueError
  else
    let cs := list_ascii_of_string s in
    let separator_location := find_isoformat_datetime_separator cs in
    letR (y, m, d) :=
      of_option (parse_isoformat_date cs separator_location) in
    if separator_location <? Z.of_nat (length cs) then
      let p := drop (Z.to_nat separator_location) cs in
      letR (h, mi, sec, us, tz) :=
        of_option (parse_isoformat_time (drop (separator_width (peek p)) p)) in
      make y m d h mi sec us (tzinfo_of tz)
    else make y m d 0 0 0 0 None.

(** *** [datetime.strptime(s, "%Y/%m/%d")]

    The format compiles to the regular expression
    [(\d\d\d\d)/(1[0-2]|0[1-9]|[1-9])/(3[0-1]|[1-2]\d|0[1-9]|[1-9]| [1-9])],
    which the whole text has to match; each group is then converted by
    [int].  A digit written as a range of ASCII characters is an ASCII
    digit; [\d] is any decimal digit of Unicode. *)

Definition cp_between (lo hi cp : N) : bool :=
  ((lo <=? cp) && (cp <=? hi))%N.

Definition ascii_value (cp : N) : Z := Z.of_N cp - 48.

(** The [%Y] directive: [\d\d\d\d]. *)
Definition directive_Y (s : string) : option Z :=
  match PyStr.code_points s with
  | Some [a; b; c; d] =>
      da ← PyStr.decimal a; db ← PyStr.decimal b;
      dc ← PyStr.decimal c; dd ← PyStr.decimal d;
      Some (((da * 10 + db) * 10 + dc) * 10 + dd)
  | _ => None
  end.

(** The [%m] directive: [1[0-2]|0[1-9]|[1-9]]. *)
Definition directive_m (s : string) : option Z :=
  match PyStr.code_points s with
  | Some [a] => if cp_between 49 57 a then Some (ascii_value a) else None
  | Some [a; b] =>
      if (a =? 49)%N && cp_between 48 50 b then Some (10 + ascii_value b)
      else if (a =? 48)%N && cp_between 49 57 b then Some (ascii_value b)
      else None
  | _ => None
  end.

(** The [%d] directive: [3[0-1]|[1-2]\d|0[1-9]|[1-9]| [1-9]]. *)
Definition directive_d (s : string) : option Z :=
  match PyStr.code_points s with
  | Some [a] => if cp_between 49 57 a then Some (ascii_value a) else None
  | Some [a; b] =>
      if (a =? 51)%N && cp_between 48 49 b then Some (30 + ascii_value b)
      else if cp_between 49 50 a
      then d ← PyStr.decimal b; Some (10 * ascii_value a + d)
      else if (a =? 48)%N && cp_between 49 57 b then Some (ascii_value b)
      else if (a =? 32)%N && cp_between 49 57 b then Some (ascii_value b)
      else None
  | _ => None
  end.

(** No group can hold a ["/"], so the text matches when it splits on ["/"]
    into the three groups.  Then come the constructor's range checks; the
    result is naive, at midnight. *)
Definition strptime_ymd (s : string) : result datetime :=
  match PyStr.split "/" s with
  | [ys; ms; ds] =>
      letR y := of_option (directive_Y ys) in
      letR m := of_option (directive_m ms) in
      letR d := of_option (directive_d ds) in
      make y m d 0 0 0 0 None
  | _ => Raise ValueError
  end.

End PyDatetime.

(** ** Records of the data model *)

(** A tweet as loaded from [tweets.json].  The four fields are texts, as
    the data model has them; the script reads them with [tweet.get], so a
    field is [None] when the key is absent from the JSON object. *)
Record tweet : Set := mk_tweet {
  t_content : option string;
  t_tweetDate : option string;
  t_tweetUrl : option string;
  t_profile : option string
}.

(** The dict written by the save button. *)
Record annotation : Set := mk_annotation {
  a_tag : string;
  a_note : string;
  a_content : string;
  a_date : string;
  a_user : string;
  a_url : string
}.

(** ** JSON text: [json.dump] and [json.load] *)

Module Json.

(** Python values that occur in the annotation store and in what
    [json.load] returns for its export: strings, and dicts (kept in
    insertion order) whose keys are ints or strings. *)
Inductive key : Set :=
| KInt (n : nat)
| KStr (s : string).

#[local] Unset Elimination Schemes.
Inductive value : Set :=
| VStr (s : string)
| VDict (items : list (key * value)).
#[local] Set Elimination Schemes.

Definition key_eqb (k1 k2 : key) : bool :=
  match k1, k2 with
  | KInt a, KInt b => Nat.eqb a b
  | KStr a, KStr b => String.eqb a b
  | _, _ => false
  end.

(** [d.get(k)] on the items of a dict. *)
Fixpoint dict_get (k : key) (d : list (key * value)) : option value :=
  match d with
  | [] => None
  | (k', v) :: d' => if key_eqb k k' then Some v else dict_get k d'
  end.

(** [d[k] = v]: overwrite in place, or append. *)
Fixpoint dict_set (k : key) (v : value) (d : list (key * value))
  : list (key * value) :=
  match d with
  | [] => [(k, v)]
  | (k', v') :: d' =>
      if key_eqb k k' then (k', v) :: d' else (k', v') :: dict_set k v d'
  end.

(** [dict(pairs)] *)
Definition dict_of_pairs (pairs : list (key * value)) : list (key * value) :=
  fold_left (fun d kv => dict_set (fst kv) (snd kv) d) pairs [].

Definition keys (v : value) : list key :=
  match v with
  | VStr _ => []
  | VDict d => map fst d
  end.

Definition get (k : key) (v : value) : option value :=
  match v with
  | VStr _ => None
  | VDict d => dict_get k d
  end.

Definition dquote : ascii := "034"%char.
Definition backslash : ascii := "\"%char.
Definition newline : ascii := "010"%char.

Definition hex_digit (n : N) : ascii :=
  ascii_of_N (if (n <? 10)%N then 48 + n else 87 + n)%N.

(** One character of a string literal, as [json.dump(..., ensure_ascii=False)]
    writes it in front of [k]: only the quote, the backslash and the
    control characters below 0x20 are escaped; every other byte, non-ASCII
    included, is copied as it is. *)
Definition escape_char (c : ascii) (k : string) : string :=
  let n := N_of_ascii c in
  if Ascii.eqb c dquote then String backslash (String dquote k)
  else if Ascii.eqb c backslash then String backslash (String backslash k)
  else if (n =? 10)%N then String backslash (String "n" k)
  else if (n =? 13)%N then String backslash (String "r" k)
  else if (n =? 9)%N then String backslash (String "t" k)
  else if (n =? 8)%N then String backslash (String "b" k)
  else if (n =? 12)%N then String backslash (String "f" k)
  else if (n <? 32)%N then
    String backslash (String "u" (String "0" (String "0"
      (String (hex_digit (n / 16)) (String (hex_digit (n mod 16)) k)))))
  else String c k.

Fixpoint escape (s : string) (k : string) : string :=
  match s with
  | EmptyString => k
  | String c s' => escape_char c (escape s' k)
  end.

(** The characters that are copied as they are: all but the quote, the
    backslash and the control characters.  Every byte of a non-ASCII
    character is among them. *)
Definition verbatim (c : ascii) : bool :=
  negb (Ascii.eqb c dquote) && negb (Ascii.eqb c backslash)
  && (32 <=? N_of_ascii c)%N.

Fixpoint all_verbatim (s : string) : bool :=
  match s with
  | EmptyString => true
  | String c s' => verbatim c && all_verbatim s'
  end.

(** The text [X] holds the characters of [f] as they are, between two
    quotes. *)
Definition literal_in (f X : string) : Prop :=
  exists pre post, X = pre +:+ String dquote (f +:+ String dquote post).

(** A quoted string literal followed by [k]. *)
Definition dump_str (s : string) (k : string) : string :=
  String dquote (escape s (String dquote k)).

(** [str(n)] for a dict key that is an int. *)
Definition key_str (k : key) : string :=
  match k with
  | KInt n => pretty n
  | KStr s => s
  end.

Fixpoint spaces (n : nat) (k : string) : string :=
  match n with
  | O => k
  | S n' => String " " (spaces n' k)
  end.

(** Line break followed by the indentation of nesting depth [level]
    ([indent=2]). *)
Definition newline_indent (level : nat) (k : string) : string :=
  String newline (spaces (2 * level) k).

(** The members of a non-empty object at depth [level], comma separated,
    one per line, then the closing brace on a line of its own one level
    up.  [first] tells whether a comma is due before the next member. *)
Definition dump_members {A : Type} (dump_item : A -> string -> string)
    (level : nat) : bool -> list A -> string -> string :=
  fix go (first : bool) (l : list A) (k : string) {struct l} : string :=
    match l with
    | [] => newline_indent (Nat.pred level) (String "}" k)
    | x :: l' =>
        let body := newline_indent level (dump_item x (go false l' k)) in
        if first then body else String "," body
    end.

(** [json.dumps(v, ensure_ascii=False, indent=2)] followed by [k]; [level]
    is the nesting depth of [v]. *)
Fixpoint dump_onto (level : nat) (v : value) (k : string) {struct v}
  : string :=
  match v with
  | VStr s => dump_str s k
  | VDict [] => String "{" (String "}" k)
  | VDict items =>
      String "{"
        (dump_members
           (fun kv rest =>
              match kv with
              | (key, v') =>
                  dump_str (key_str key)
                    (String ":" (String " " (dump_onto (S level) v' rest)))
              end)
           (S level) true items k)
  end.

Definition dumps (v : value) : string := dump_onto 0 v EmptyString.

(** One member of an object at depth [level]: the key, [": "], the value. *)
Definition dump_member (level : nat) (kv : key * value) (rest : string)
  : string :=
  match kv with
  | (key, v) =>
      dump_str (key_str key)
        (String ":" (String " " (dump_onto level v rest)))
  end.

(** The value that comes back from the text of [v]: every key has become a
    string (an int its decimal text), and members whose keys have become
    equal are merged by [dict]. *)
Fixpoint as_reloaded (v : value) : value :=
  match v with
  | VStr s => VStr s
  | VDict items =>
      VDict (dict_of_pairs
               (map (fun kv => match kv with
                               | (key, v') => (KStr (key_str key), as_reloaded v')
                               end) items))
  end.

(** Number of values and members in [v]: a bound on the calls the decoder
    makes on the text of [v]. *)
Fixpoint size (v : value) : nat :=
  match v with
  | VStr _ => 1
  | VDict items =>
      S (list_sum (map (fun kv => match kv with
                                  | (_, v') => S (size v')
                                  end) items))
  end.

(** JSON whitespace. *)
Definition is_ws (c : ascii) : bool :=
  let n := N_of_ascii c in
  ((n =? 32) || (n =? 9) || (n =? 10) || (n =? 13))%N.

Fixpoint skip_ws (s : string) : string :=
  match s with
  | EmptyString => EmptyString
  | String c s' => if is_ws c then skip_ws s' else s
  end.

Definition hex_val (c : ascii) : option N :=
  let n := N_of_ascii c in
  if ((48 <=? n) && (n <=? 57))%N then Some (n - 48)%N
  else if ((97 <=? n) && (n <=? 102))%N then Some (n - 87)%N
  else if ((65 <=? n) && (n <=? 70))%N then Some (n - 55)%N
  else None.

(** The character after a backslash, other than [u]. *)
Definition unescape (c : ascii) : option ascii :=
  if Ascii.eqb c dquote then Some dquote
  else if Ascii.eqb c backslash then Some backslash
  else if Ascii.eqb c "/" then Some "/"%char
  else if Ascii.eqb c "b" then Some "008"%char
  else if Ascii.eqb c "f" then Some "012"%char
  else if Ascii.eqb c "n" then Some "010"%char
  else if Ascii.eqb c "r" then Some "013"%char
  else if Ascii.eqb c "t" then Some "009"%char
  else None.

(** UTF-8 bytes of a code point of the basic plane, in front of [k];
    surrogates (which JSON pairs up) are outside this model. *)
Definition utf8_onto (cp : N) (k : string) : option string :=
  if (cp <? 128)%N then Some (String (ascii_of_N cp) k)
  else if (cp <? 2048)%N then
    Some (String (ascii_of_N (192 + cp / 64))
           (String (ascii_of_N (128 + cp mod 64)) k))
  else if ((55296 <=? cp) && (cp <=? 57343))%N then None
  else
    Some (String (ascii_of_N (224 + cp / 4096))
           (String (ascii_of_N (128 + (cp / 64) mod 64))
              (String (ascii_of_N (128 + cp mod 64)) k))).

(** The body of a string literal, after its opening quote: the decoded
    text and what follows the closing quote.  Raw control characters are
    refused (strict mode). *)
Fixpoint scan_string (s : string) {struct s} : option (string * string) :=
  match s with
  | EmptyString => None
  | String c r =>
      if Ascii.eqb c dquote then Some (EmptyString, r)
      else if Ascii.eqb c backslash then
        match r with
        | EmptyString => None
        | String e r' =>
            if Ascii.eqb e "u" then
              match r' with
              | String h1 (String h2 (String h3 (String h4 r''))) =>
                  a ← hex_val h1; b ← hex_val h2;
                  c ← hex_val h3; d ← hex_val h4;
                  '(t, rest) ← scan_string r'';
                  t' ← utf8_onto (((a * 16 + b) * 16 + c) * 16 + d)%N t;
                  Some (t', rest)
              | _ => None
              end
            else
              ch ← unescape e;
              '(t, rest) ← scan_string r';
              Some (String ch t, rest)
        end
      else if (N_of_ascii c <? 32)%N then None
      else '(t, rest) ← scan_string r; Some (String c t, rest)
  end.

(** The decoder, restricted to the values of this model: objects and
    strings.  [parse_members] reads the members of an object from the
    opening quote of a key up to and including the closing brace.  Each
    call uses one unit of [fuel]; numbers, arrays and literals give
    [None], like malformed text. *)
Fixpoint parse_value (fuel : nat) (s : string) {struct fuel}
  : option (value * string) :=
  match fuel, s with
  | S fuel', String c r =>
      if Ascii.eqb c dquote then
        '(str, r') ← scan_string r; Some (VStr str, r')
      else if Ascii.eqb c "{" then
        match skip_ws r with
        | EmptyString => None
        | String c1 r1 =>
            if Ascii.eqb c1 "}" then Some (VDict [], r1)
            else
              '(pairs, r') ← parse_members fuel' (String c1 r1);
              Some (VDict (dict_of_pairs pairs), r')
        end
      else None
  | _, _ => None
  end
with parse_members (fuel : nat) (s : string) {struct fuel}
  : option (list (key * value) * string) :=
  match fuel, s with
  | S fuel', String c r =>
      if Ascii.eqb c dquote then
        '(k, r1) ← scan_string r;
        match skip_ws r1 with
        | EmptyString => None
        | String c2 r2 =>
            if Ascii.eqb c2 ":" then
              '(v, r3) ← parse_value fuel' (skip_ws r2);
              match skip_ws r3 with
              | EmptyString => None
              | String c4 r4 =>
                  if Ascii.eqb c4 "," then
                    '(rest, r5) ← parse_members fuel' (skip_ws r4);
                    Some ((KStr k, v) :: rest, r5)
                  else if Ascii.eqb c4 "}" then Some ([(KStr k, v)], r4)
                  else None
              end
            else None
        end
      else None
  | _, _ => None
  end.

(** [json.loads(text)]: one value, surrounded by optional whitespace.  The
    text's length is fuel enough, since every call consumes a character. *)
Definition loads (text : string) : option value :=
  match parse_value (S (String.length text)) (skip_ws text) with
  | Some (v, rest) =>
      match skip_ws rest with
      | EmptyString => Some v
      | _ => None
      end
  | None => None
  end.

(** The annotation store as the Python value it is: a dict from int
    indices to the six-field dicts built by the save button. *)
Definition annotation_value (a : annotation) : value :=
  VDict [(KStr "tag", VStr (a_tag a)); (KStr "note", VStr (a_note a));
         (KStr "content", VStr (a_content a)); (KStr "date", VStr (a_date a));
         (KStr "user", VStr (a_user a)); (KStr "url", VStr (a_url a))].

Definition annotation_fields (a : annotation) : list string :=
  [a_tag a; a_note a; a_content a; a_date a; a_user a; a_url a].

Definition store_value (items : list (nat * annotation)) : value :=
  VDict (map (fun ia => (KInt (fst ia), annotation_value (snd ia))) items).

(** What [json.load] gives back for one exported entry: the index as its
    decimal text. *)
Definition reloaded_item (ia : nat * annotation) : key * value :=
  (KStr (pretty (fst ia)), annotation_value (snd ia)).

End Json.

(** ** The script *)

Import PyDatetime.

(** Lines 19-23.  A missing [tweetDate] makes [.replace] fail on [None]; the
    bare [except] turns every failure into [datetime.min]. *)
Definition safe_parse_date (t : tweet) : datetime :=
  catch
    (letR s := match t_tweetDate t with
               | Some s => Ok s
               | None => Raise AttributeError
               end in
     fromisoformat (PyStr.replace "Z" "+00:00" s))
    PyDatetime.min.

(** Line 25, [data.sort(key=safe_parse_date)].  The keys are computed once,
    then the list is sorted stably using only [<] on keys.  A stable
    insertion sort stands for CPython's merge sort.  Among keys of one kind
    no comparison raises and both yield the one stable ascending
    arrangement; with a naive and an aware key in the list any comparison
    sort has to compare the two kinds at some point, and that comparison
    aborts the sort. *)
Fixpoint insert_keyed (kx : datetime * tweet) (l : list (datetime * tweet))
  : result (list (datetime * tweet)) :=
  match l with
  | [] => Ok [kx]
  | ky :: l' =>
      letR b := lt (fst ky) (fst kx) in
      if b then letR r := insert_keyed kx l' in Ok (ky :: r)
      else Ok (kx :: ky :: l')
  end.

Fixpoint sort_keyed (l : list (datetime * tweet))
  : result (list (datetime * tweet)) :=
  match l with
  | [] => Ok []
  | kx :: l' => letR r := sort_keyed l' in insert_keyed kx r
  end.

Definition sort_data (data : list tweet) : result (list tweet) :=
  letR r := sort_keyed (map (fun t => (safe_parse_date t, t)) data) in
  Ok (map snd r).

(** [st.session_state] after the initialisation of lines 28-37.  The
    annotation store is a dict: [annotations] holds its entries and
    [annotation_order] its keys in the order of their first insertion,
    which is the order a dict is iterated and dumped in. *)
Record session : Type := mk_session {
  index : nat;
  annotations : gmap nat annotation;
  annotation_order : list nat;
  filter_tag : string;
  bookmarks : gset nat;
  show_only_bookmarked : bool
}.

Definition initial_session : session :=
  mk_session 0 ∅ [] EmptyString ∅ false.

Definition set_index (i : nat) (s : session) : session :=
  mk_session i (annotations s) (annotation_order s) (filter_tag s)
    (bookmarks s) (show_only_bookmarked s).

Definition set_annotations (a : gmap nat annotation) (s : session) : session :=
  mk_session (index s) a (annotation_order s) (filter_tag s) (bookmarks s)
    (show_only_bookmarked s).

Definition set_annotation_order (order : list nat) (s : session) : session :=
  mk_session (index s) (annotations s) order (filter_tag s) (bookmarks s)
    (show_only_bookmarked s).

Definition set_bookmarks (b : gset nat) (s : session) : session :=
  mk_session (index s) (annotations s) (annotation_order s) (filter_tag s) b
    (show_only_bookmarked s).

Definition set_show_only_bookmarked (b : bool) (s : session) : session :=
  mk_session (index s) (annotations s) (annotation_order s) (filter_tag s)
    (bookmarks s) b.

(** What the widgets return in one run of the script: the sidebar inputs,
    the keyed text inputs, the buttons, and the draw of [random.choice]. *)
Record widgets : Set := mk_widgets {
  tag_filter : string;
  search_keyword : string;
  date_range : string;
  bookmarked_checkbox : bool;
  user_input : string;
  tag_input : string;
  note_input : string;
  bookmark_button : bool;
  save_button : bool;
  previous_button : bool;
  random_button : bool;
  next_button : bool;
  export_button : bool;
  random_draw : nat
}.

(** Lines 42-45: the selectbox options. *)
Definition tag_options (anns : gmap nat annotation) : gset string :=
  list_to_set
    (List.filter (fun t => negb (String.eqb t EmptyString))
       (map (fun ia => a_tag (snd ia)) (map_to_list anns))).

Definition tag_selectbox (anns : gmap nat annotation) : list string :=
  "All"%string :: merge_sort String.le (elements (tag_options anns)).

(** [data[i]] *)
Definition data_at (data : list tweet) (i : nat) : result tweet :=
  match data !! i with
  | Some t => Ok t
  | None => Raise IndexError
  end.

(** Lines 58-62. *)
Definition has_tag (anns : gmap nat annotation) (tf : string) (i : nat) : bool :=
  match anns !! i with
  | Some a => String.eqb (a_tag a) tf
  | None => false
  end.

Definition tag_stage (anns : gmap nat annotation) (tf : string)
    (indices : list nat) : list nat :=
  if negb (String.eqb tf "All") then List.filter (has_tag anns tf) indices
  else indices.

(** Lines 64-67. *)
Definition has_keyword (data : list tweet) (kw : string) (i : nat)
  : result bool :=
  letR t := data_at data i in
  Ok (PyStr.contains kw (default EmptyString (t_content t))).

Definition keyword_stage (data : list tweet) (kw : string)
    (indices : list nat) : result (list nat) :=
  if negb (String.eqb kw EmptyString) then filter_m (has_keyword data kw) indices
  else Ok indices.

(** Line 71, [start_str, end_str = date_range.split("-")]. *)
Definition unpack2 (toks : list string) : result (string * string) :=
  match toks with
  | [a; b] => Ok (a, b)
  | _ => Raise ValueError
  end.

(** Line 76, [start_date <= safe_parse_date(data[i]) <= end_date]. *)
Definition in_range (data : list tweet) (start_date end_date : datetime)
    (i : nat) : result bool :=
  letR t := data_at data i in
  let d := safe_parse_date t in
  letR b := le start_date d in
  if b then le d end_date else Ok false.

(** Lines 71-77, the body of the [try]. *)
Definition date_block (data : list tweet) (dr : string) (indices : list nat)
  : result (list nat) :=
  letR (start_str, end_str) := unpack2 (PyStr.split "-" dr) in
  letR start_date := strptime_ymd (PyStr.strip start_str) in
  letR end_date := strptime_ymd (PyStr.strip end_str) in
  filter_m (in_range data start_date end_date) indices.

(** Lines 69-79: [filtered_indices] is reassigned only when the body of the
    [try] runs to its end. *)
Definition date_stage (data : list tweet) (dr : string) (indices : list nat)
  : list nat :=
  if negb (String.eqb dr EmptyString) && PyStr.contains "-" dr
  then catch (date_block data dr indices) indices
  else indices.

(** Lines 81-82. *)
Definition bookmark_stage (bms : gset nat) (only : bool) (indices : list nat)
  : list nat :=
  if only then List.filter (fun i => bool_decide (i ∈ bms)) indices
  else indices.

(** Lines 56-82. *)
Definition filtered_indices (data : list tweet) (s : session) (w : widgets)
  : result (list nat) :=
  let f0 := seq 0 (length data) in
  let f1 := tag_stage (annotations s) (tag_filter w) f0 in
  letR f2 := keyword_stage data (search_keyword w) f1 in
  let f3 := date_stage data (date_range w) f2 in
  Ok (bookmark_stage (bookmarks s) (show_only_bookmarked s) f3).

(** The same pipeline without lines 69-79. *)
Definition filtered_indices_no_date (data : list tweet) (s : session)
    (w : widgets) : result (list nat) :=
  let f0 := seq 0 (length data) in
  let f1 := tag_stage (annotations s) (tag_filter w) f0 in
  letR f2 := keyword_stage data (search_keyword w) f1 in
  Ok (bookmark_stage (bookmarks s) (show_only_bookmarked s) f2).

(** Lines 89-90. *)
Definition revalidate (filtered : list nat) (first : nat) (s : session)
  : session :=
  if bool_decide (index s ∈ filtered) then s else set_index first s.

(** [l.index(x)]: position of the first occurrence. *)
Fixpoint list_index (x : nat) (l : list nat) : result nat :=
  match l with
  | [] => Raise ValueError
  | y :: l' =>
      if Nat.eqb x y then Ok O
      else letR p := list_index x l' in Ok (S p)
  end.

(** [l[k]] for an int [k] (negative positions count from the end). *)
Definition list_at (l : list nat) (k : Z) : result nat :=
  let k' := if k <? 0 then k + Z.of_nat (length l) else k in
  if k' <? 0 then Raise IndexError
  else match l !! Z.to_nat k' with
       | Some x => Ok x
       | None => Raise IndexError
       end.

(** Lines 131-134. *)
Definition toggle_bookmark (i : nat) (bms : gset nat) : gset nat :=
  if bool_decide (i ∈ bms) then bms ∖ {[i]} else bms ∪ {[i]}.

(** Lines 137-144. *)
Definition save_annotation (i : nat) (t : tweet) (w : widgets)
    (anns : gmap nat annotation) : gmap nat annotation :=
  <[i := mk_annotation (tag_input w) (note_input w)
           (default EmptyString (t_content t))
           (default "Unknown date"%string (t_tweetDate t))
           (user_input w)
           (default EmptyString (t_tweetUrl t))]> anns.

(** Line 137 on the key order of the dict: a key already there keeps its
    place, a new key goes last. *)
Definition order_after_set (i : nat) (order : list nat) : list nat :=
  if bool_decide (i ∈ order) then order else order ++ [i].

(** Line 150. *)
Definition previous (filtered : list nat) (current_position : nat)
  : result nat :=
  list_at filtered (Z.max 0 (Z.of_nat current_position - 1)).

(** Line 156. *)
Definition next (filtered : list nat) (current_position : nat) : result nat :=
  list_at filtered
    (Z.min (Z.of_nat (length filtered) - 1) (Z.of_nat current_position + 1)).

(** Line 153, [random.choice(filtered_indices)], for a given draw. *)
Definition random_choice (filtered : list nat) (draw : nat) : result nat :=
  match filtered with
  | [] => Raise IndexError
  | _ => list_at filtered (Z.of_nat (draw mod length filtered))
  end.

(** The items of the store in the order the dict yields them. *)
Definition store_items (anns : gmap nat annotation) (order : list nat)
  : list (nat * annotation) :=
  omap (fun i => match anns !! i with
                 | Some a => Some (i, a)
                 | None => None
                 end) order.

(** Lines 159-160: the text written to [annotations_export.json]. *)
Definition export_text (anns : gmap nat annotation) (order : list nat)
  : string :=
  Json.dumps (Json.store_value (store_items anns order)).

(** What one run shows. *)
Record view : Set := mk_view {
  v_filtered : list nat;
  v_current_index : nat;
  v_current_position : nat;
  v_tweet : tweet;
  v_exported : option string
}.

Inductive outcome : Set :=
| Uncaught (e : exn)
| Stopped (warning : string)
| Rendered (v : view).

(** A navigation button: on click the cursor takes the value computed by
    [move]; an exception there ends the run. *)
Definition navigate (clicked : bool) (move : result nat) (s : session)
  : result session :=
  if clicked then letR i := move in Ok (set_index i s) else Ok s.

(** Lines 92-161, once the filtered list [first :: _] is known to be
    non-empty. *)
Definition render (data : list tweet) (w : widgets) (filtered : list nat)
    (s : session) : session * outcome :=
  let current_index := index s in
  match list_index current_index filtered, data_at data current_index with
  | Raise e, _ | _, Raise e => (s, Uncaught e)
  | Ok current_position, Ok t =>
      let s3 :=
        if bookmark_button w
        then set_bookmarks (toggle_bookmark current_index (bookmarks s)) s
        else s in
      let s4 :=
        if save_button w
        then set_annotation_order
               (order_after_set current_index (annotation_order s3))
               (set_annotations
                  (save_annotation current_index t w (annotations s3)) s3)
        else s3 in
      match navigate (previous_button w)
              (previous filtered current_position) s4 with
      | Raise e => (s4, Uncaught e)
      | Ok s5 =>
      match navigate (random_button w)
              (random_choice filtered (random_draw w)) s5 with
      | Raise e => (s5, Uncaught e)
      | Ok s6 =>
      match navigate (next_button w) (next filtered current_position) s6 with
      | Raise e => (s6, Uncaught e)
      | Ok s7 =>
          (s7, Rendered
                 (mk_view filtered current_index current_position t
                    (if export_button w
                     then Some (export_text (annotations s7)
                                  (annotation_order s7))
                     else None)))
      end end end
  end.

(** One run of the script on the loaded tweets: the session state it leaves
    and what it shows.  [st.stop()] ends the run after the warning. *)
Definition rerun (loaded : list tweet) (w : widgets) (s : session)
  : session * outcome :=
  match sort_data loaded with
  | Raise e => (s, Uncaught e)
  | Ok data =>
      let s1 := set_show_only_bookmarked (bookmarked_checkbox w) s in
      match filtered_indices data s1 w with
      | Raise e => (s1, Uncaught e)
      | Ok [] => (s1, Stopped "No tweets match your filters.")
      | Ok ((first :: _) as filtered) =>
          render data w filtered (revalidate filtered first s1)
      end
  end.

(** Line 159, [open("annotations_export.json", "w")]: the file is emptied
    when it is opened, so after a run that exports it holds the text
    written and nothing of what it held before; any other run leaves it as
    it was.  [None] stands for a file that does not exist. *)
Definition export_file (o : outcome) (before : option string)
  : option string :=
  match o with
  | Rendered v =>
      match v_exported v with
      | Some txt => Some txt
      | None => before
      end
  | Stopped _ | Uncaught _ => before
  end.

(** The key order lists the keys of the store, each once. *)
Definition store_ok (anns : gmap nat annotation) (order : list nat) : Prop :=
  NoDup order /\ forall i, i ∈ order <-> is_Some (anns !! i).

(** What the widgets return before the user touches anything: the first
    selectbox option, empty text inputs, the date field's initial text of
    line 47, nothing ticked or clicked. *)
Definition untouched_widgets : widgets :=
  mk_widgets "All" EmptyString "YYYY/MM/DD - YYYY/MM/DD" false
    EmptyString EmptyString EmptyString false false false false false false 0.

Definition set_search_keyword (kw : string) (w : widgets) : widgets :=
  mk_widgets (tag_filter w) kw (date_range w) (bookmarked_checkbox w)
    (user_input w) (tag_input w) (note_input w) (bookmark_button w)
    (save_button w) (previous_button w) (random_button w) (next_button w)
    (export_button w) (random_draw w).

Definition set_date_range (dr : string) (w : widgets) : widgets :=
  mk_widgets (tag_filter w) (search_keyword w) dr (bookmarked_checkbox w)
    (user_input w) (tag_input w) (note_input w) (bookmark_button w)
    (save_button w) (previous_button w) (random_button w) (next_button w)
    (export_button w) (random_draw w).

(** ** Pure readings of the filter conditions

    Boolean forms of the conditions of lines 61, 66 and 76, used to state
    what the pipeline computes. *)

(** Line 66 at an index of the record list. *)
Definition keyword_holds (data : list tweet) (kw : string) (i : nat) : bool :=
  match data !! i with
  | Some t => PyStr.contains kw (default EmptyString (t_content t))
  | None => false
  end.

(** Line 76 when no comparison raises, that is on naive datetimes:
    [start <= d <= end] on the wall-clock fields. *)
Definition between (start_date end_date d : datetime) : bool :=
  (wall_us start_date <=? wall_us d) && (wall_us d <=? wall_us end_date).

Definition date_holds (data : list tweet) (start_date end_date : datetime)
    (i : nat) : bool :=
  match data !! i with
  | Some t => between start_date end_date (safe_parse_date t)
  | None => false
  end.

(** Lines 71-73: the bounds the date-range text denotes, when the guard of
    line 69 holds and both tokens parse. *)
Definition parse_range (dr : string) : option (datetime * datetime) :=
  if negb (String.eqb dr EmptyString) && PyStr.contains "-" dr then
    match unpack2 (PyStr.split "-" dr) with
    | Ok (start_str, end_str) =>
        match strptime_ymd (PyStr.strip start_str),
              strptime_ymd (PyStr.strip end_str) with
        | Ok start_date, Ok end_date => Some (start_date, end_date)
        | _, _ => None
        end
    | Raise _ => None
    end
  else None.

(** The conjunction of the enabled predicates at index [i]: the tag of the
    saved annotation, the keyword, the date range, the bookmark. *)
Definition selected (data : list tweet) (s : session) (w : widgets) (i : nat)
  : bool :=
  (if negb (String.eqb (tag_filter w) "All")
   then has_tag (annotations s) (tag_filter w) i else true)
  && (if negb (String.eqb (search_keyword w) EmptyString)
      then keyword_holds data (search_keyword w) i else true)
  && match parse_range (date_range w) with
     | Some (start_date, end_date) => date_holds data start_date end_date i
     | None => true
     end
  && (if show_only_bookmarked s then bool_decide (i ∈ bookmarks s) else true).

(** ** The user name shown next to a tweet *)

Module PyText.

(** [s.split(sep)] for a separator of any length (not empty): the text is
    scanned from the left, each occurrence found ends a token and the scan
    resumes after it.  [skip] counts the characters of a found occurrence
    still to pass over. *)
Fixpoint split_go (sep : string) (skip : nat) (s : string) : list string :=
  match s with
  | EmptyString => [EmptyString]
  | String c s' =>
      match skip with
      | S k => split_go sep k s'
      | O =>
          if String.prefix sep s
          then EmptyString :: split_go sep (String.length sep - 1) s'
          else match split_go sep 0 s' with
               | tok :: toks => String c tok :: toks
               | [] => [String c EmptyString]
               end
      end
  end.

Definition split_str (sep s : string) : list string := split_go sep 0 s.

(** [s.strip(ch)] for a one-character [ch]. *)
Fixpoint lstrip_char (ch : ascii) (s : string) : string :=
  match s with
  | EmptyString => EmptyString
  | String c s' => if Ascii.eqb c ch then lstrip_char ch s' else s
  end.

Fixpoint rstrip_char (ch : ascii) (s : string) : string :=
  match s with
  | EmptyString => EmptyString
  | String c s' =>
      match rstrip_char ch s' with
      | EmptyString =>
          if Ascii.eqb c ch then EmptyString else String c EmptyString
      | t => String c t
      end
  end.

Definition strip_char (ch : ascii) (s : string) : string :=
  rstrip_char ch (lstrip_char ch s).

End PyText.

(** Lines 100-102: the default of the user name field, taken from the
    profile link of the tweet. *)
Definition profile_user (t : tweet) : string :=
  let profile_url := default EmptyString (t_profile t) in
  if PyStr.contains "twitter.com/" profile_url
  then PyText.strip_char "/"
         (default EmptyString
            (last (PyText.split_str "twitter.com/" profile_url)))
  else "Unknown user"%string.

(** ** Values that JSON text can carry as they are

    Dicts whose keys are strings, no two alike, at every depth. *)

Fixpoint distinct_keys (ks : list Json.key) : bool :=
  match ks with
  | [] => true
  | k :: ks' => negb (existsb (Json.key_eqb k) ks') && distinct_keys ks'
  end.

Fixpoint str_keyed (v : Json.value) : bool :=
  match v with
  | Json.VStr _ => true
  | Json.VDict items =>
      distinct_keys (map fst items)
      && forallb (fun kv => match kv with
                            | (Json.KStr _, v') => str_keyed v'
                            | (Json.KInt _, _) => false
                            end) items
  end.

(** * Properties *)

Implicit Types (data loaded : list tweet) (anns : gmap nat annotation).
Implicit Types (s : session) (w : widgets) (bms : gset nat).
Implicit Types (tf kw dr : string) (only : bool).

(** ** The error monad and list helpers *)

Lemma filter_m_total {A : Type} (p : A -> result bool) (q : A -> bool)
    (l : list A) :
  (forall x, x ∈ l -> p x = Ok (q x)) ->
  filter_m p l = Ok (List.filter q l).
Proof.
  induction l as [|x l IH]; intros Hp; simpl; [reflexivity|].
  rewrite (Hp x) by left. simpl.
  rewrite IH by (intros y Hy; apply Hp; right; exact Hy).
  simpl. destruct (q x); reflexivity.
Qed.

Lemma filter_m_incl {A : Type} (p : A -> result bool) (l r : list A) :
  filter_m p l = Ok r -> forall x, x ∈ r -> x ∈ l.
Proof.
  revert r. induction l as [|y l IH]; simpl; intros r Hr x Hx.
  - injection Hr as <-. exact Hx.
  - destruct (p y) as [b|e]; simpl in Hr; [|discriminate].
    destruct (filter_m p l) as [r'|e]; simpl in Hr; [|discriminate].
    injection Hr as <-. destruct b.
    + apply elem_of_cons in Hx as [->|Hx]; [left|right; eauto].
    + right; eauto.
Qed.

Lemma list_filter_incl {A : Type} (q : A -> bool) (l : list A) (x : A) :
  x ∈ List.filter q l -> x ∈ l.
Proof.
  rewrite !list_elem_of_In, filter_In. tauto.
Qed.

Lemma list_index_lookup (x : nat) (l : list nat) (p : nat) :
  list_index x l = Ok p -> l !! p = Some x.
Proof.
  revert p. induction l as [|y l IH]; simpl; intros p Hp; [discriminate|].
  destruct (Nat.eqb_spec x y) as [->|Hne].
  - injection Hp as <-. reflexivity.
  - destruct (list_index x l) as [q|e]; simpl in Hp; [|discriminate].
    injection Hp as <-. simpl. apply IH. reflexivity.
Qed.

Lemma list_index_total (x : nat) (l : list nat) :
  x ∈ l -> exists p, list_index x l = Ok p.
Proof.
  induction l as [|y l IH]; intros Hx.
  - apply elem_of_nil in Hx. contradiction.
  - simpl. destruct (Nat.eqb_spec x y) as [->|Hne]; [eauto|].
    apply elem_of_cons in Hx as [->|Hx]; [contradiction|].
    destruct (IH Hx) as [p ->]. simpl. eauto.
Qed.

Lemma list_at_lookup (l : list nat) (k : nat) (x : nat) :
  l !! k = Some x -> list_at l (Z.of_nat k) = Ok x.
Proof.
  intros Hk. unfold list_at.
  destruct (Z.ltb_spec (Z.of_nat k) 0) as [Hneg|_]; [lia|].
  destruct (Z.ltb_spec (Z.of_nat k) 0) as [Hneg|_]; [lia|].
  rewrite Nat2Z.id, Hk. reflexivity.
Qed.

(** ** Bookmarks *)


(** ** Navigation *)

Lemma previous_spec (F : list nat) (c p : nat) :
  F !! p = Some c ->
  exists i, previous F p = Ok i
            /\ F !! Z.to_nat (Z.max 0 (Z.of_nat p - 1)) = Some i
            /\ i ∈ F
            /\ (p = 0%nat -> i = c).
Proof.
  intros Hp.
  assert (Hlt : (p < length F)%nat) by (eapply lookup_lt_Some; exact Hp).
  set (k := Z.to_nat (Z.max 0 (Z.of_nat p - 1))).
  assert (Hk : (k < length F)%nat) by (unfold k; lia).
  destruct (lookup_lt_is_Some_2 F k Hk) as [i Hi].
  exists i. repeat split.
  - unfold previous.
    replace (Z.max 0 (Z.of_nat p - 1)) with (Z.of_nat k) by (unfold k; lia).
    apply list_at_lookup. exact Hi.
  - exact Hi.
  - eapply list_elem_of_lookup_2. exact Hi.
  - intros Hfirst. assert (k = p) as Hkp by (unfold k; lia).
    rewrite Hkp in Hi. congruence.
Qed.

Lemma next_spec (F : list nat) (c p : nat) :
  F !! p = Some c ->
  exists j, next F p = Ok j
            /\ F !! Z.to_nat (Z.min (Z.of_nat (length F) - 1)
                                (Z.of_nat p + 1)) = Some j
            /\ j ∈ F
            /\ (S p = length F -> j = c).
Proof.
  intros Hp.
  assert (Hlt : (p < length F)%nat) by (eapply lookup_lt_Some; exact Hp).
  set (k := Z.to_nat (Z.min (Z.of_nat (length F) - 1) (Z.of_nat p + 1))).
  assert (Hk : (k < length F)%nat) by (unfold k; lia).
  destruct (lookup_lt_is_Some_2 F k Hk) as [j Hj].
  exists j. repeat split.
  - unfold next.
    replace (Z.min (Z.of_nat (length F) - 1) (Z.of_nat p + 1))
      with (Z.of_nat k) by (unfold k; lia).
    apply list_at_lookup. exact Hj.
  - exact Hj.
  - eapply list_elem_of_lookup_2. exact Hj.
  - intros Hlast. assert (k = p) as Hkp by (unfold k; lia).
    rewrite Hkp in Hj. congruence.
Qed.

Lemma random_choice_spec (F : list nat) (draw : nat) :
  F <> [] -> exists i, random_choice F draw = Ok i /\ i ∈ F.
Proof.
  intros HF. unfold random_choice.
  destruct F as [|f F']; [contradiction|].
  set (G := f :: F') in *.
  assert (Hk : (draw mod length G < length G)%nat)
    by (apply Nat.mod_upper_bound; discriminate).
  destruct (lookup_lt_is_Some_2 G _ Hk) as [i Hi].
  exists i. split.
  - apply list_at_lookup. exact Hi.
  - eapply list_elem_of_lookup_2. exact Hi.
Qed.

(** ** The filter pipeline stays inside the record list *)

Lemma tag_stage_incl anns tf (l : list nat) (x : nat) :
  x ∈ tag_stage anns tf l -> x ∈ l.
Proof.
  unfold tag_stage. destruct (negb _); [apply list_filter_incl|auto].
Qed.

Lemma keyword_stage_incl data kw (l r : list nat) (x : nat) :
  keyword_stage data kw l = Ok r -> x ∈ r -> x ∈ l.
Proof.
  unfold keyword_stage. destruct (negb _).
  - intros H. eapply filter_m_incl. exact H.
  - intros [= <-]. auto.
Qed.

Lemma date_stage_incl data dr (l : list nat) (x : nat) :
  x ∈ date_stage data dr l -> x ∈ l.
Proof.
  unfold date_stage. destruct (_ && _); [|auto].
  unfold date_block.
  destruct (unpack2 _) as [[a b]|e]; simpl; [|auto].
  destruct (strptime_ymd (PyStr.strip a)) as [sd|e]; simpl; [|auto].
  destruct (strptime_ymd (PyStr.strip b)) as [ed|e]; simpl; [|auto].
  destruct (filter_m _ l) as [r|e] eqn:Hr; simpl; [|auto].
  eapply filter_m_incl. exact Hr.
Qed.

Lemma bookmark_stage_incl bms only (l : list nat) (x : nat) :
  x ∈ bookmark_stage bms only l -> x ∈ l.
Proof.
  unfold bookmark_stage. destruct only; [apply list_filter_incl|auto].
Qed.

Lemma has_keyword_total data kw (i : nat) :
  (i < length data)%nat -> has_keyword data kw i = Ok (keyword_holds data kw i).
Proof.
  intros Hi. unfold has_keyword, keyword_holds, data_at.
  destruct (lookup_lt_is_Some_2 data i Hi) as [t ->]. reflexivity.
Qed.

Lemma keyword_stage_total data kw (l : list nat) :
  (forall i, i ∈ l -> (i < length data)%nat) ->
  keyword_stage data kw l
  = Ok (if negb (String.eqb kw EmptyString)
        then List.filter (keyword_holds data kw) l else l).
Proof.
  intros Hl. unfold keyword_stage. destruct (negb _); [|reflexivity].
  apply filter_m_total. intros i Hi. apply has_keyword_total. auto.
Qed.

Lemma seq_bound (n i : nat) : i ∈ seq 0 n -> (i < n)%nat.
Proof.
  rewrite list_elem_of_In, in_seq. lia.
Qed.

Lemma tag_stage_bound data anns tf (i : nat) :
  i ∈ tag_stage anns tf (seq 0 (length data)) -> (i < length data)%nat.
Proof.
  intros Hi. apply seq_bound. eapply tag_stage_incl. exact Hi.
Qed.

Lemma filtered_indices_bound data s w (F : list nat) (i : nat) :
  filtered_indices data s w = Ok F -> i ∈ F -> (i < length data)%nat.
Proof.
  unfold filtered_indices.
  destruct (keyword_stage _ _ _) as [f2|e] eqn:Hkw; simpl; [|discriminate].
  intros [= <-] Hi.
  apply bookmark_stage_incl, date_stage_incl in Hi.
  eapply tag_stage_bound, keyword_stage_incl; eauto.
Qed.


(** ** The date-range text *)

Lemma date_stage_skipped data dr (l : list nat) :
  PyStr.contains "-" dr = false
  \/ ~ (exists a b sd ed,
          PyStr.split "-" dr = [a; b]
          /\ strptime_ymd (PyStr.strip a) = Ok sd
          /\ strptime_ymd (PyStr.strip b) = Ok ed) ->
  date_stage data dr l = l.
Proof.
  intros H. unfold date_stage.
  destruct (negb (String.eqb dr EmptyString) && PyStr.contains "-" dr)
    eqn:Hcond; [|reflexivity].
  apply andb_true_iff in Hcond as [_ Hdash].
  destruct H as [H|H]; [congruence|].
  unfold date_block.
  destruct (PyStr.split "-" dr) as [|a [|b [|c toks]]]; simpl; try reflexivity.
  destruct (strptime_ymd (PyStr.strip a)) as [sd|e] eqn:Ha; simpl;
    [|reflexivity].
  destruct (strptime_ymd (PyStr.strip b)) as [ed|e] eqn:Hb; simpl;
    [|reflexivity].
  exfalso. apply H. exists a, b, sd, ed. auto.
Qed.

(** The tokens are trimmed of every kind of whitespace: a range typed with
    a no-break space (bytes 194 160) on each side of the dash denotes the
    same bounds as one typed with spaces. *)
Lemma parse_range_no_break_space :
  parse_range ("2021/05/01" +:+ String "194" (String "160"
                 ("-" +:+ String "194" (String "160" "2021/05/02"))))
  = Some (mk_datetime 2021 5 1 0 0 0 0 None, mk_datetime 2021 5 2 0 0 0 0 None)
  /\ parse_range "2021/05/01 - 2021/05/02"
     = Some (mk_datetime 2021 5 1 0 0 0 0 None,
             mk_datetime 2021 5 2 0 0 0 0 None).
Proof. split; vm_compute; reflexivity. Qed.

(** C3. When the date-range text has no ["-"], or does not split on ["-"]
    into exactly two tokens that both parse, after trimming, as
    [YYYY/MM/DD], the date stage raises nothing and hands on the list it is
    given as it is, whatever that list and the records are; the pipeline
    then gives what the pipeline without lines 69-79 gives, which is the
    list that the other predicates alone select. *)
Theorem date_range_silently_skipped data s w :
  PyStr.contains "-" (date_range w) = false
  \/ ~ (exists a b sd ed,
          PyStr.split "-" (date_range w) = [a; b]
          /\ strptime_ymd (PyStr.strip a) = Ok sd
          /\ strptime_ymd (PyStr.strip b) = Ok ed) ->
  (forall l : list nat, date_stage data (date_range w) l = l)
  /\ filtered_indices data s w = filtered_indices_no_date data s w
  /\ forall F i,
       filtered_indices data s w = Ok F ->
       i ∈ F
       <-> (i < length data)%nat
           /\ (tag_filter w <> "All"%string ->
               has_tag (annotations s) (tag_filter w) i = true)
           /\ (search_keyword w <> EmptyString ->
               keyword_holds data (search_keyword w) i = true)
           /\ (show_only_bookmarked s = true -> i ∈ bookmarks s).
Proof.
  intros H.
  assert (Hskip : forall l : list nat, date_stage data (date_range w) l = l)
    by (intros l; apply date_stage_skipped; exact H).
  split; [exact Hskip|]. split.
  - unfold filtered_indices, filtered_indices_no_date.
    destruct (keyword_stage _ _ _) as [f2|e]; [|reflexivity].
    cbn [bind]. rewrite Hskip. reflexivity.
  - intros F i. unfold filtered_indices.
    rewrite keyword_stage_total by (intros j; apply tag_stage_bound).
    cbn [bind]. rewrite Hskip. intros [= <-].
    unfold bookmark_stage, tag_stage.
    destruct (String.eqb_spec (tag_filter w) "All") as [Htag|Htag];
      destruct (String.eqb_spec (search_keyword w) EmptyString) as [Hkw|Hkw];
      destruct (show_only_bookmarked s); cbn [negb];
      rewrite ?list_elem_of_In, ?filter_In, ?in_seq, ?bool_decide_eq_true;
      intuition (try congruence; try lia).
Qed.

Lemma date_range_silently_skipped_witness :
  (PyStr.contains "-" (date_range untouched_widgets) = false
   \/ ~ (exists a b sd ed,
           PyStr.split "-" (date_range untouched_widgets) = [a; b]
           /\ strptime_ymd (PyStr.strip a) = Ok sd
           /\ strptime_ymd (PyStr.strip b) = Ok ed))
  /\ (forall l : list nat,
        date_stage [mk_tweet (Some "x"%string) None None None]
          (date_range untouched_widgets) l = l)
  /\ filtered_indices [mk_tweet (Some "x"%string) None None None]
       initial_session untouched_widgets
     = filtered_indices_no_date [mk_tweet (Some "x"%string) None None None]
         initial_session untouched_widgets.
Proof.
  assert (H : PyStr.contains "-" (date_range untouched_widgets) = false
              \/ ~ (exists a b sd ed,
                      PyStr.split "-" (date_range untouched_widgets) = [a; b]
                      /\ strptime_ymd (PyStr.strip a) = Ok sd
                      /\ strptime_ymd (PyStr.strip b) = Ok ed)).
  { right. intros (a & b & sd & ed & Hs & Ha & Hb).
    vm_compute in Hs. injection Hs as <- <-.
    vm_compute in Ha. discriminate Ha. }
  split; [exact H|].
  destruct (date_range_silently_skipped
              [mk_tweet (Some "x"%string) None None None]
              initial_session untouched_widgets H) as (Hskip & Heq & _).
  split; [exact Hskip|exact Heq].
Defined.

(** ** One run of the script *)

Lemma navigate_frame clicked (move : result nat) s s' :
  navigate clicked move s = Ok s' ->
  annotations s' = annotations s /\ bookmarks s' = bookmarks s
  /\ (clicked = false -> index s' = index s).
Proof.
  unfold navigate. destruct clicked.
  - destruct move as [i|e]; simpl; [|discriminate].
    intros [= <-]. repeat split. discriminate.
  - intros [= <-]. auto.
Qed.

Lemma navigate_total clicked (move : result nat) s (i : nat) :
  move = Ok i ->
  exists s', navigate clicked move s = Ok s'
             /\ (clicked = false -> index s' = index s).
Proof.
  intros ->. unfold navigate. destruct clicked; simpl; eauto.
  eexists. split; [reflexivity|]. discriminate.
Qed.

Lemma revalidate_spec (F : list nat) (first : nat) s :
  head F = Some first ->
  index (revalidate F first s) ∈ F
  /\ (index s ∈ F -> revalidate F first s = s)
  /\ (index s ∉ F -> index (revalidate F first s) = first)
  /\ annotations (revalidate F first s) = annotations s
  /\ bookmarks (revalidate F first s) = bookmarks s.
Proof.
  intros Hhd. unfold revalidate.
  destruct (decide (index s ∈ F)) as [Hin|Hout].
  - rewrite (bool_decide_eq_true_2 _ Hin). repeat split; auto.
    intros Hno. contradiction.
  - rewrite (bool_decide_eq_false_2 _ Hout). simpl. repeat split; auto.
    + destruct F as [|f F']; [discriminate|].
      injection Hhd as ->. left.
    + intros Hin. contradiction.
Qed.

(** Once the cursor is inside a filtered list that stays inside the record
    list, the rest of the script runs to its end; without a navigation
    click the cursor stays where it is. *)
Lemma render_rendered data w (F : list nat) s :
  index s ∈ F ->
  (forall i, i ∈ F -> (i < length data)%nat) ->
  exists s' p t e,
    render data w F s = (s', Rendered (mk_view F (index s) p t e))
    /\ list_index (index s) F = Ok p
    /\ data !! index s = Some t
    /\ (previous_button w = false -> random_button w = false ->
        next_button w = false -> index s' = index s).
Proof.
  intros Hin Hbound.
  destruct (list_index_total _ _ Hin) as [p Hp].
  destruct (lookup_lt_is_Some_2 data (index s) (Hbound _ Hin)) as [t Ht].
  pose proof (list_index_lookup _ _ _ Hp) as Hlk.
  destruct (previous_spec F _ p Hlk) as (i & Hprev & _).
  destruct (next_spec F _ p Hlk) as (j & Hnext & _).
  assert (HF : F <> []) by (intros ->; apply elem_of_nil in Hin; exact Hin).
  destruct (random_choice_spec F (random_draw w) HF) as (r & Hrand & _).
  unfold render, data_at. rewrite Hp, Ht.
  match goal with
  | |- context [navigate (previous_button w) _ ?s4] =>
      assert (H4 : index s4 = index s)
        by (destruct (bookmark_button w), (save_button w); reflexivity);
      destruct (navigate_total (previous_button w) _ s4 i Hprev)
        as (s5 & -> & H5)
  end.
  destruct (navigate_total (random_button w) _ s5 r Hrand) as (s6 & -> & H6).
  destruct (navigate_total (next_button w) _ s6 j Hnext) as (s7 & -> & H7).
  exists s7, p, t. eexists. repeat split; auto.
  intros Hp' Hr' Hn'. rewrite (H7 Hn'), (H6 Hr'), (H5 Hp'). exact H4.
Qed.

(** The export button writes the whole store as it stands at the end of
    the run, whatever the file held before. *)
Lemma export_is_a_snapshot data w (F : list nat) s s' (v : view) :
  render data w F s = (s', Rendered v) ->
  v_exported v
  = if export_button w
    then Some (export_text (annotations s') (annotation_order s'))
    else None.
Proof.
  unfold render.
  destruct (list_index (index s) F) as [p|e];
    [|destruct (data_at data (index s)); discriminate].
  destruct (data_at data (index s)) as [t|e]; [|discriminate].
  destruct (navigate (previous_button w) _ _) as [s5|e]; [|discriminate].
  destruct (navigate (random_button w) _ _) as [s6|e]; [|discriminate].
  destruct (navigate (next_button w) _ _) as [s7|e]; [|discriminate].
  intros [= <- <-]. reflexivity.
Qed.

(** C4. When the filtered list comes out empty the run ends at the warning
    "No tweets match your filters.": nothing is rendered, no exception
    escapes, and the annotations, the bookmarks and the cursor are those
    the run started with. *)
Theorem empty_filter_stops loaded data w s :
  sort_data loaded = Ok data ->
  filtered_indices data
    (set_show_only_bookmarked (bookmarked_checkbox w) s) w = Ok [] ->
  exists s',
    rerun loaded w s = (s', Stopped "No tweets match your filters.")
    /\ annotations s' = annotations s
    /\ bookmarks s' = bookmarks s
    /\ index s' = index s.
Proof.
  intros Hsort Hempty. unfold rerun. rewrite Hsort, Hempty.
  eexists. split; [reflexivity|]. auto.
Qed.

Lemma empty_filter_stops_witness :
  exists s',
    rerun [mk_tweet (Some "x"%string) None None None]
      (set_search_keyword "y" untouched_widgets) initial_session
    = (s', Stopped "No tweets match your filters.")
    /\ annotations s' = annotations initial_session
    /\ bookmarks s' = bookmarks initial_session
    /\ index s' = index initial_session.
Proof.
  apply (empty_filter_stops
           [mk_tweet (Some "x"%string) None None None]
           [mk_tweet (Some "x"%string) None None None]);
    vm_compute; reflexivity.
Defined.

(** C5. Whenever the filtered list [F] is not empty the run goes on to
    render, and the cursor it renders and navigates from is a member of
    [F]: the previous cursor when that is in [F], the first element of [F]
    otherwise. *)
Theorem cursor_revalidated loaded data w s (F : list nat) :
  sort_data loaded = Ok data ->
  filtered_indices data
    (set_show_only_bookmarked (bookmarked_checkbox w) s) w = Ok F ->
  F <> [] ->
  exists s' v,
    rerun loaded w s = (s', Rendered v)
    /\ v_filtered v = F
    /\ v_current_index v ∈ F
    /\ F !! v_current_position v = Some (v_current_index v)
    /\ (index s ∈ F -> v_current_index v = index s)
    /\ (index s ∉ F -> head F = Some (v_current_index v)).
Proof.
  intros Hsort HF Hne. unfold rerun. rewrite Hsort, HF.
  destruct F as [|first F']; [contradiction|].
  set (G := first :: F') in *.
  set (s1 := set_show_only_bookmarked (bookmarked_checkbox w) s) in *.
  destruct (revalidate_spec G first s1 eq_refl)
    as (Hin & Hkeep & Hreset & _).
  destruct (render_rendered data w G (revalidate G first s1) Hin)
    as (s' & p & t & e & -> & Hp & _).
  { intros i Hi. eapply filtered_indices_bound; eauto. }
  exists s'. eexists. split; [reflexivity|]. simpl.
  repeat split; auto.
  - apply list_index_lookup. exact Hp.
  - intros Hs. rewrite (Hkeep Hs). reflexivity.
  - intros Hs. rewrite (Hreset Hs). reflexivity.
Qed.

Lemma cursor_revalidated_witness :
  exists s' v,
    rerun [mk_tweet (Some "a"%string) None None None;
           mk_tweet (Some "xb"%string) None None None;
           mk_tweet (Some "xc"%string) None None None]
      (set_search_keyword "x" untouched_widgets) initial_session
    = (s', Rendered v)
    /\ v_filtered v = [1; 2]%nat
    /\ v_current_index v ∈ [1; 2]%nat
    /\ [1; 2]%nat !! v_current_position v = Some (v_current_index v)
    /\ (index initial_session ∈ [1; 2]%nat
        -> v_current_index v = index initial_session)
    /\ (index initial_session ∉ [1; 2]%nat
        -> head [1; 2]%nat = Some (v_current_index v)).
Proof.
  apply (cursor_revalidated _
           [mk_tweet (Some "a"%string) None None None;
            mk_tweet (Some "xb"%string) None None None;
            mk_tweet (Some "xc"%string) None None None]);
    [vm_compute; reflexivity | vm_compute; reflexivity | discriminate].
Defined.

(** ** The tag selectbox *)

Lemma tag_options_elem anns (t : string) :
  t ∈ tag_options anns
  <-> t <> EmptyString /\ exists i a, anns !! i = Some a /\ a_tag a = t.
Proof.
  unfold tag_options.
  rewrite elem_of_list_to_set, list_elem_of_In, filter_In, in_map_iff.
  split.
  - intros [([i a] & Ht & Hin) Hne]. simpl in Ht. split.
    + intros ->. discriminate.
    + exists i, a. split; [|exact Ht].
      apply elem_of_map_to_list. apply list_elem_of_In. exact Hin.
  - intros [Hne (i & a & Hia & Ht)]. split.
    + exists (i, a). split; [exact Ht|].
      apply list_elem_of_In, elem_of_map_to_list. exact Hia.
    + destruct (String.eqb_spec t EmptyString); [contradiction|reflexivity].
Qed.

(** C8 as stated fails: an annotation saved with an empty tag is in the
    store, yet its tag value is not among the options. *)
Lemma tag_selectbox_omits_empty_tag :
  ~ (forall t : string,
       t ∈ tail (tag_selectbox
                   {[ 0%nat := mk_annotation EmptyString "n" "c" "d" "u" "l" ]})
       <-> exists i a,
             ({[ 0%nat := mk_annotation EmptyString "n" "c" "d" "u" "l" ]}
                : gmap nat annotation) !! i = Some a
             /\ a_tag a = t).
Proof.
  intros H.
  assert (Hin : EmptyString
                ∈ tail (tag_selectbox
                   {[ 0%nat := mk_annotation EmptyString "n" "c" "d" "u" "l" ]})).
  { apply H. exists 0%nat, (mk_annotation EmptyString "n" "c" "d" "u" "l").
    split; reflexivity. }
  vm_compute in Hin. inversion Hin.
Qed.

(** C8, amended. The options are ["All"] followed by the distinct non-empty
    tag values of the saved annotations (never of the records), without
    repetition, in ascending lexicographic order. *)
Theorem tag_selectbox_spec anns :
  exists l,
    tag_selectbox anns = "All"%string :: l
    /\ Sorted String.le l
    /\ NoDup l
    /\ forall t : string,
         t ∈ l
         <-> t <> EmptyString /\ exists i a, anns !! i = Some a /\ a_tag a = t.
Proof.
  exists (merge_sort String.le (elements (tag_options anns))).
  split; [reflexivity|]. split; [|split].
  - apply Sorted_merge_sort. apply _.
  - rewrite merge_sort_Permutation. apply NoDup_elements.
  - intros t. rewrite merge_sort_Permutation, elem_of_elements.
    apply tag_options_elem.
Qed.

(** ** The pipeline on dates without a UTC offset *)

Lemma list_filter_filter {A : Type} (p q : A -> bool) (l : list A) :
  List.filter q (List.filter p l) = List.filter (fun x => p x && q x) l.
Proof.
  induction l as [|x l IH]; simpl; [reflexivity|].
  destruct (p x); simpl; [destruct (q x)|]; rewrite IH; reflexivity.
Qed.

Lemma list_filter_true {A : Type} (l : list A) :
  List.filter (fun _ => true) l = l.
Proof. induction l as [|x l IH]; simpl; congruence. Qed.

Lemma list_filter_ext_in {A : Type} (p q : A -> bool) (l : list A) :
  (forall x, x ∈ l -> p x = q x) -> List.filter p l = List.filter q l.
Proof.
  induction l as [|x l IH]; intros H; simpl; [reflexivity|].
  rewrite (H x) by left. rewrite IH by (intros y Hy; apply H; right; exact Hy).
  reflexivity.
Qed.

Lemma make_naive y m d h mi sec us (t : datetime) :
  make y m d h mi sec us None = Ok t -> tzinfo t = None.
Proof.
  unfold make. destruct (_ && _); [|discriminate]. intros [= <-]. reflexivity.
Qed.

Lemma strptime_ymd_naive (txt : string) (t : datetime) :
  strptime_ymd txt = Ok t -> tzinfo t = None.
Proof.
  unfold strptime_ymd.
  destruct (PyStr.split "/" txt) as [|ys [|ms [|ds [|x toks]]]];
    try discriminate.
  destruct (of_option (directive_Y _)) as [y|e]; simpl; [|discriminate].
  destruct (of_option (directive_m _)) as [m|e]; simpl; [|discriminate].
  destruct (of_option (directive_d _)) as [d|e]; simpl; [|discriminate].
  apply make_naive.
Qed.

Lemma le_naive (a b : datetime) :
  tzinfo a = None -> tzinfo b = None ->
  le a b = Ok (wall_us a <=? wall_us b).
Proof.
  intros Ha Hb. unfold le, cmp. rewrite Ha, Hb. reflexivity.
Qed.

Lemma in_range_naive data (start_date end_date : datetime) (i : nat) :
  tzinfo start_date = None -> tzinfo end_date = None ->
  (forall t, t ∈ data -> tzinfo (safe_parse_date t) = None) ->
  (i < length data)%nat ->
  in_range data start_date end_date i
  = Ok (date_holds data start_date end_date i).
Proof.
  intros Hs He Hdata Hi. unfold in_range, date_holds, data_at, between.
  destruct (lookup_lt_is_Some_2 data i Hi) as [t Ht]. rewrite Ht. simpl.
  assert (Hk : tzinfo (safe_parse_date t) = None)
    by (apply Hdata; eapply list_elem_of_lookup_2; exact Ht).
  rewrite (le_naive _ _ Hs Hk). simpl.
  destruct (wall_us start_date <=? wall_us (safe_parse_date t)); simpl;
    [|reflexivity].
  apply le_naive; assumption.
Qed.

Lemma date_stage_naive data dr (l : list nat) :
  (forall t, t ∈ data -> tzinfo (safe_parse_date t) = None) ->
  (forall i, i ∈ l -> (i < length data)%nat) ->
  date_stage data dr l
  = List.filter (fun i => match parse_range dr with
                          | Some (start_date, end_date) =>
                              date_holds data start_date end_date i
                          | None => true
                          end) l.
Proof.
  intros Hdata Hl. unfold date_stage, parse_range, date_block.
  destruct (negb (String.eqb dr EmptyString) && PyStr.contains "-" dr);
    [|symmetry; apply list_filter_true].
  destruct (unpack2 (PyStr.split "-" dr)) as [[a b]|e]; simpl;
    [|symmetry; apply list_filter_true].
  destruct (strptime_ymd (PyStr.strip a)) as [sd|e] eqn:Ha; simpl;
    [|symmetry; apply list_filter_true].
  destruct (strptime_ymd (PyStr.strip b)) as [ed|e] eqn:Hb; simpl;
    [|symmetry; apply list_filter_true].
  rewrite (filter_m_total _ (date_holds data sd ed)); [reflexivity|].
  intros i Hi. apply in_range_naive; auto.
  - eapply strptime_ymd_naive; exact Ha.
  - eapply strptime_ymd_naive; exact Hb.
Qed.

Lemma filtered_indices_naive data s w :
  (forall t, t ∈ data -> tzinfo (safe_parse_date t) = None) ->
  filtered_indices data s w
  = Ok (List.filter (selected data s w) (seq 0 (length data))).
Proof.
  intros Hdata. unfold filtered_indices.
  rewrite keyword_stage_total by (intros i; apply tag_stage_bound).
  cbn [bind].
  rewrite date_stage_naive; [|exact Hdata|].
  2:{ intros i Hi.
      apply (tag_stage_bound data (annotations s) (tag_filter w)).
      destruct (negb (String.eqb (search_keyword w) EmptyString));
        [eapply list_filter_incl; exact Hi|exact Hi]. }
  f_equal. unfold tag_stage, bookmark_stage, selected.
  destruct (negb (String.eqb (tag_filter w) "All"));
    destruct (negb (String.eqb (search_keyword w) EmptyString));
    destruct (show_only_bookmarked s);
    rewrite ?list_filter_filter;
    apply list_filter_ext_in; intros i _; btauto.
Qed.

(** X6. When no record date carries a UTC offset, the list the pipeline
    returns is exactly the list of the indices of the record list, in
    ascending order, at which every enabled predicate holds. *)
Lemma filtered_indices_exact_on_naive_dates data s w (F : list nat) :
  (forall t, t ∈ data -> tzinfo (safe_parse_date t) = None) ->
  filtered_indices data s w = Ok F ->
  F = List.filter (selected data s w) (seq 0 (length data)).
Proof.
  intros Hdata HF. rewrite (filtered_indices_naive _ _ _ Hdata) in HF.
  congruence.
Qed.

(** ** The load-time sort *)

Lemma lt_same_kind (a b : datetime) :
  aware a = aware b -> lt a b = Ok (instant a <? instant b).
Proof.
  unfold aware, lt, cmp, instant.
  destruct (tzinfo a), (tzinfo b); try discriminate; reflexivity.
Qed.

Lemma lt_mixed (a b : datetime) :
  aware a <> aware b -> lt a b = Raise TypeError.
Proof.
  unfold aware, lt, cmp.
  destruct (tzinfo a), (tzinfo b); try reflexivity; contradiction.
Qed.

Lemma insert_keyed_hd (R : relation (datetime * tweet))
    (a kx : datetime * tweet) (l r : list (datetime * tweet)) :
  insert_keyed kx l = Ok r -> R a kx -> HdRel R a l -> HdRel R a r.
Proof.
  destruct l as [|ky l]; simpl.
  - intros [= <-] Hkx _. constructor. exact Hkx.
  - destruct (lt (fst ky) (fst kx)) as [[|]|e]; simpl; try discriminate.
    + destruct (insert_keyed kx l) as [r'|e]; simpl; [|discriminate].
      intros [= <-] _ Hhd. inversion Hhd; subst. constructor. assumption.
    + intros [= <-] Hkx _. constructor. exact Hkx.
Qed.

(** Inserting among keys of its own kind: no comparison raises, the result
    is ascending if the list was, and the new element goes in front of the
    elements with its own key. *)
Lemma insert_keyed_same_kind (kx : datetime * tweet)
    (l : list (datetime * tweet)) :
  Forall (fun ky => aware (fst ky) = aware (fst kx)) l ->
  exists r,
    insert_keyed kx l = Ok r
    /\ r ≡ₚ kx :: l
    /\ (Sorted (fun x y => instant (fst x) <= instant (fst y)) l ->
        Sorted (fun x y => instant (fst x) <= instant (fst y)) r)
    /\ forall z, List.filter (fun x => instant (fst x) =? z) r
                 = List.filter (fun x => instant (fst x) =? z) (kx :: l).
Proof.
  induction l as [|ky l IH]; intros Hkind.
  - exists [kx]. repeat split; auto.
  - apply Forall_cons in Hkind as [Hky Hl].
    destruct (IH Hl) as (r' & Hr' & Hperm & Hsorted & Hstable).
    simpl. rewrite (lt_same_kind _ _ Hky). simpl.
    destruct (Z.ltb_spec (instant (fst ky)) (instant (fst kx))) as [Hlt|Hge].
    + rewrite Hr'. simpl. exists (ky :: r'). split; [reflexivity|].
      split; [|split].
      * rewrite Hperm. apply Permutation_swap.
      * intros Hs. apply Sorted_inv in Hs as [Hs Hhd].
        constructor; [auto|].
        eapply insert_keyed_hd; [exact Hr'| |exact Hhd]. simpl. lia.
      * intros z. simpl. rewrite Hstable. simpl.
        destruct (Z.eqb_spec (instant (fst ky)) z) as [Hz|Hz];
          destruct (Z.eqb_spec (instant (fst kx)) z) as [Hz'|Hz'];
          try reflexivity.
        lia.
    + exists (kx :: ky :: l). split; [reflexivity|].
      split; [reflexivity|]. split; [|reflexivity].
      intros Hs. constructor; [exact Hs|]. constructor. lia.
Qed.

Lemma sort_keyed_same_kind (l : list (datetime * tweet)) :
  (forall x y, x ∈ l -> y ∈ l -> aware (fst x) = aware (fst y)) ->
  exists r,
    sort_keyed l = Ok r
    /\ r ≡ₚ l
    /\ Sorted (fun x y => instant (fst x) <= instant (fst y)) r
    /\ forall z, List.filter (fun x => instant (fst x) =? z) r
                 = List.filter (fun x => instant (fst x) =? z) l.
Proof.
  induction l as [|kx l IH]; intros Hkind.
  - exists []. repeat split; auto.
  - destruct IH as (r' & Hr' & Hperm & Hsorted & Hstable).
    { intros x y Hx Hy. apply Hkind; right; assumption. }
    destruct (insert_keyed_same_kind kx r')
      as (r & Hr & Hperm' & Hsorted' & Hstable').
    { apply Forall_forall. intros ky Hky. apply Hkind; [right|left].
      rewrite <- Hperm. exact Hky. }
    exists r. simpl. rewrite Hr'. simpl. split; [exact Hr|].
    split; [|split].
    + rewrite Hperm', Hperm. reflexivity.
    + auto.
    + intros z. rewrite Hstable'. simpl. rewrite Hstable. reflexivity.
Qed.

Lemma insert_keyed_mixed (kx ky : datetime * tweet)
    (l : list (datetime * tweet)) :
  aware (fst ky) <> aware (fst kx) ->
  insert_keyed kx (ky :: l) = Raise TypeError.
Proof.
  intros Hne. simpl. rewrite (lt_mixed _ _ Hne). reflexivity.
Qed.

Lemma sort_keyed_mixed (l : list (datetime * tweet)) :
  (exists x y, x ∈ l /\ y ∈ l /\ aware (fst x) <> aware (fst y)) ->
  sort_keyed l = Raise TypeError.
Proof.
  induction l as [|kx l IH]; intros (x & y & Hx & Hy & Hne).
  - apply elem_of_nil in Hx. contradiction.
  - simpl.
    destruct (decide (Forall (fun ky => aware (fst ky) = aware (fst kx)) l))
      as [Hall|Hsome].
    { exfalso. rewrite Forall_forall in Hall. apply Hne.
      apply elem_of_cons in Hx as [->|Hx];
        apply elem_of_cons in Hy as [->|Hy];
        rewrite ?(Hall _ Hx), ?(Hall _ Hy); reflexivity. }
    apply not_Forall_Exists in Hsome; [|apply _].
    apply Exists_exists in Hsome as (ky & Hky & Hne'). simpl in Hne'.
    destruct (decide (Forall (fun kz => aware (fst kz) = aware (fst ky)) l))
      as [Hall|Hsome].
    + rewrite Forall_forall in Hall.
      destruct (sort_keyed_same_kind l) as (r & -> & Hperm & _).
      { intros a b Ha Hb. rewrite (Hall _ Ha), (Hall _ Hb). reflexivity. }
      simpl. destruct r as [|kz r].
      { rewrite <- Hperm in Hky. apply elem_of_nil in Hky. contradiction. }
      apply insert_keyed_mixed.
      rewrite (Hall kz); [exact Hne'|]. rewrite <- Hperm. left.
    + apply not_Forall_Exists in Hsome; [|apply _].
      apply Exists_exists in Hsome as (kz & Hkz & Hne''). simpl in Hne''.
      rewrite IH; [reflexivity|]. exists kz, ky. auto.
Qed.

(** X1. When the keys are all naive or all aware the sort succeeds: the
    result is a rearrangement of the records in ascending key order that
    keeps records with equal keys in their original order. *)
Lemma sort_data_same_kind loaded :
  (forall t u, t ∈ loaded -> u ∈ loaded ->
               aware (safe_parse_date t) = aware (safe_parse_date u)) ->
  exists data,
    sort_data loaded = Ok data
    /\ data ≡ₚ loaded
    /\ Sorted (fun t u => instant (safe_parse_date t)
                          <= instant (safe_parse_date u)) data
    /\ forall z,
         List.filter (fun t => instant (safe_parse_date t) =? z) data
         = List.filter (fun t => instant (safe_parse_date t) =? z) loaded.
Proof.
  intros Hkind. unfold sort_data.
  set (keyed := map (fun t => (safe_parse_date t, t)) loaded).
  assert (Hkeyed : forall x, x ∈ keyed
                             -> fst x = safe_parse_date (snd x)
                                /\ snd x ∈ loaded).
  { intros x Hx. apply list_elem_of_In, in_map_iff in Hx as (t & <- & Ht).
    split; [reflexivity|]. apply list_elem_of_In. exact Ht. }
  destruct (sort_keyed_same_kind keyed) as (r & -> & Hperm & Hsorted & Hst).
  { intros x y Hx Hy.
    destruct (Hkeyed x Hx) as [-> Hx'], (Hkeyed y Hy) as [-> Hy']. auto. }
  simpl. exists (map snd r).
  assert (Hr : forall x, x ∈ r -> fst x = safe_parse_date (snd x)).
  { intros x Hx. apply Hkeyed. rewrite <- Hperm. exact Hx. }
  assert (Hsnd : map snd keyed = loaded).
  { unfold keyed. rewrite map_map. simpl. apply map_id. }
  split; [reflexivity|]. split; [|split].
  - rewrite <- Hsnd. apply Permutation_map. exact Hperm.
  - clear Hperm Hst. induction Hsorted as [|x r' Hs IH Hhd]; simpl.
    + constructor.
    + constructor.
      * apply IH. intros y Hy. apply Hr. right. exact Hy.
      * destruct Hhd as [|y r'' Hxy]; simpl; constructor.
        rewrite <- (Hr x) by left.
        rewrite <- (Hr y) by (right; left). exact Hxy.
  - intros z. rewrite <- Hsnd.
    assert (Hmap : forall l : list (datetime * tweet),
               (forall x, x ∈ l -> fst x = safe_parse_date (snd x)) ->
               List.filter (fun t => instant (safe_parse_date t) =? z)
                 (map snd l)
               = map snd (List.filter (fun x => instant (fst x) =? z) l)).
    { induction l as [|x l IH]; intros Hl; simpl; [reflexivity|].
      rewrite <- (Hl x) by left.
      rewrite IH by (intros y Hy; apply Hl; right; exact Hy).
      destruct (instant (fst x) =? z); reflexivity. }
    rewrite (Hmap r Hr), (Hmap keyed (fun x Hx => proj1 (Hkeyed x Hx))).
    rewrite Hst. reflexivity.
Qed.

(** X2. As soon as one key is naive and another aware, the sort raises
    [TypeError]. *)
Lemma sort_data_mixed loaded :
  (exists t u, t ∈ loaded /\ u ∈ loaded
               /\ aware (safe_parse_date t) <> aware (safe_parse_date u)) ->
  sort_data loaded = Raise TypeError.
Proof.
  intros (t & u & Ht & Hu & Hne). unfold sort_data.
  rewrite sort_keyed_mixed; [reflexivity|].
  exists (safe_parse_date t, t), (safe_parse_date u, u).
  repeat split; try exact Hne;
    apply list_elem_of_In, in_map_iff; eexists; split;
    try reflexivity; apply list_elem_of_In; assumption.
Qed.

(** ** The fallback key *)

Lemma make_valid y m d h mi sec us tz (t : datetime) :
  make y m d h mi sec us tz = Ok t ->
  valid_date (year t) (month t) (day t) = true
  /\ valid_time (hour t) (minute t) (second t) (microsecond t) = true.
Proof.
  unfold make.
  destruct (valid_date y m d) eqn:Hd; [|discriminate].
  destruct (valid_time h mi sec us) eqn:Ht; [|discriminate].
  destruct (match tz with Some off => valid_offset off | None => true end);
    [|discriminate].
  intros [= <-]. simpl. auto.
Qed.

Lemma fromisoformat_valid (txt : string) (t : datetime) :
  fromisoformat txt = Ok t ->
  valid_date (year t) (month t) (day t) = true
  /\ valid_time (hour t) (minute t) (second t) (microsecond t) = true.
Proof.
  unfold fromisoformat.
  destruct (PyStr.len txt <? 7)%nat; [discriminate|].
  destruct (of_option (parse_isoformat_date _ _)) as [[[y m] d]|e]; simpl;
    [|discriminate].
  destruct (_ <? _); [|apply make_valid].
  destruct (of_option (parse_isoformat_time _))
    as [[[[[h mi] sec] us] tz]|e]; simpl; [|discriminate].
  apply make_valid.
Qed.

Lemma safe_parse_date_valid (t : tweet) :
  valid_date (year (safe_parse_date t)) (month (safe_parse_date t))
    (day (safe_parse_date t)) = true
  /\ valid_time (hour (safe_parse_date t)) (minute (safe_parse_date t))
       (second (safe_parse_date t)) (microsecond (safe_parse_date t)) = true.
Proof.
  unfold safe_parse_date.
  destruct (t_tweetDate t) as [txt|]; simpl; [|split; reflexivity].
  destruct (fromisoformat _) as [d|e] eqn:Hd; simpl; [|split; reflexivity].
  eapply fromisoformat_valid. exact Hd.
Qed.

Lemma days_before_month_aux_nonneg (y : Z) (n : nat) :
  0 <= days_before_month_aux y n.
Proof.
  induction n as [|n IH]; simpl; [lia|].
  assert (0 < days_in_month y (Z.of_nat (S n))).
  { unfold days_in_month.
    repeat match goal with
           | |- context [if ?b then _ else _] => destruct b
           end; lia. }
  lia.
Qed.

Lemma wall_us_min_least (t : datetime) :
  valid_date (year t) (month t) (day t) = true ->
  valid_time (hour t) (minute t) (second t) (microsecond t) = true ->
  wall_us PyDatetime.min <= wall_us t.
Proof.
  unfold valid_date, valid_time. intros Hd Ht.
  repeat match goal with
         | H : _ && _ = true |- _ => apply andb_true_iff in H as [? ?]
         end.
  assert (Hy : 0 <= days_before_year (year t)).
  { unfold days_before_year. cbv zeta.
    assert (0 <= year t - 1) by lia.
    pose proof (Z.div_pos (year t - 1) 400).
    assert ((year t - 1) / 100 <= (year t - 1) / 4).
    { apply Z.div_le_lower_bound; [lia|].
      pose proof (Z.mul_div_le (year t - 1) 100).
      pose proof (Z.div_pos (year t - 1) 100). lia. }
    lia. }
  pose proof (days_before_month_aux_nonneg (year t)
                (Z.to_nat (month t - 1))) as Hm.
  assert (Hord : 1 <= ymd2ord (year t) (month t) (day t))
    by (unfold ymd2ord, days_before_month; lia).
  change (wall_us PyDatetime.min) with 86400000000.
  unfold wall_us. nia.
Qed.

(** X3. [datetime.min] is the least naive key: among records without a UTC
    offset, those whose date does not parse come first. *)
Lemma min_key_least (t : tweet) :
  aware (safe_parse_date t) = false ->
  instant PyDatetime.min <= instant (safe_parse_date t).
Proof.
  intros Hn. destruct (safe_parse_date_valid t) as [Hd Ht].
  unfold aware in Hn. unfold instant.
  destruct (tzinfo (safe_parse_date t)); [discriminate|].
  simpl. apply wall_us_min_least; assumption.
Qed.

(** ** Dates with a UTC offset *)

(** C1, at an input where the code departs from it: a record dated with a
    trailing "Z" next to a record whose date does not parse.  The second
    gets the naive [datetime.min] as its key, the first an aware key,
    comparing the two raises [TypeError], and so does the sort; the run
    ends there. *)
Theorem sort_raises_on_min_against_aware :
  let a := mk_tweet (Some "a"%string) (Some "2021-05-01T00:00:00Z"%string)
             None None in
  let b := mk_tweet (Some "b"%string) (Some "bad-date"%string) None None in
  safe_parse_date a = mk_datetime 2021 5 1 0 0 0 0 (Some 0)
  /\ safe_parse_date b = PyDatetime.min
  /\ lt (safe_parse_date b) (safe_parse_date a) = Raise TypeError
  /\ lt (safe_parse_date a) (safe_parse_date b) = Raise TypeError
  /\ sort_data [a; b] = Raise TypeError
  /\ sort_data [b; a] = Raise TypeError
  /\ forall w s, rerun [a; b] w s = (s, Uncaught TypeError).
Proof.
  repeat split; vm_compute; reflexivity.
Qed.

(** C2, at an input where the code departs from it: one record dated
    2021-05-03 with a trailing "Z" and the range text
    "2021/05/01 - 2021/05/02".  Both bounds parse, the record lies after
    the end of the range, so the conjunction of the enabled predicates
    selects nothing; but comparing the naive bound with the aware record
    date raises inside the [try], so the range is dropped and the record
    is kept. *)
Theorem date_range_dropped_on_aware_dates :
  let t := mk_tweet (Some "a"%string) (Some "2021-05-03T00:00:00Z"%string)
             None None in
  let w := set_date_range "2021/05/01 - 2021/05/02" untouched_widgets in
  let start_date := mk_datetime 2021 5 1 0 0 0 0 None in
  let end_date := mk_datetime 2021 5 2 0 0 0 0 None in
  sort_data [t] = Ok [t]
  /\ PyStr.split "-" (date_range w)
     = ["2021/05/01 "%string; " 2021/05/02"%string]
  /\ strptime_ymd (PyStr.strip "2021/05/01 ") = Ok start_date
  /\ strptime_ymd (PyStr.strip " 2021/05/02") = Ok end_date
  /\ safe_parse_date t = mk_datetime 2021 5 3 0 0 0 0 (Some 0)
  /\ between start_date end_date (safe_parse_date t) = false
  /\ List.filter (selected [t] initial_session w) (seq 0 (length [t])) = []
  /\ in_range [t] start_date end_date 0 = Raise TypeError
  /\ filtered_indices [t] initial_session w = Ok [0%nat].
Proof.
  repeat split; vm_compute; reflexivity.
Qed.

(** ** Export and reload *)

Import Json.

Lemma scan_string_cons (c : ascii) (r : string) :
  Ascii.eqb c dquote = false ->
  Ascii.eqb c backslash = false ->
  (N_of_ascii c <? 32)%N = false ->
  scan_string (String c r)
  = '(t, rest) ← scan_string r; Some (String c t, rest).
Proof.
  intros Hq Hb Hc. cbn [scan_string]. rewrite Hq, Hb, Hc. reflexivity.
Qed.

Lemma scan_string_simple_escape (e ch : ascii) (r : string) :
  Ascii.eqb e "u" = false ->
  unescape e = Some ch ->
  scan_string (String backslash (String e r))
  = '(t, rest) ← scan_string r; Some (String ch t, rest).
Proof.
  intros He Hu. cbn [scan_string].
  change (Ascii.eqb backslash dquote) with false.
  change (Ascii.eqb backslash backslash) with true.
  cbv iota. rewrite He, Hu. reflexivity.
Qed.

Lemma scan_string_u (h1 h2 h3 h4 : ascii) (r : string) :
  scan_string
    (String backslash (String "u"
       (String h1 (String h2 (String h3 (String h4 r))))))
  = a ← hex_val h1; b ← hex_val h2; c ← hex_val h3; d ← hex_val h4;
    '(t, rest) ← scan_string r;
    t' ← utf8_onto (((a * 16 + b) * 16 + c) * 16 + d)%N t;
    Some (t', rest).
Proof. reflexivity. Qed.

Lemma hex_val_hex_digit (m : N) :
  (m < 16)%N -> hex_val (hex_digit m) = Some m.
Proof.
  intros Hm.
  assert (Hc : (m = 0 \/ m = 1 \/ m = 2 \/ m = 3 \/ m = 4 \/ m = 5 \/ m = 6
                \/ m = 7 \/ m = 8 \/ m = 9 \/ m = 10 \/ m = 11 \/ m = 12
                \/ m = 13 \/ m = 14 \/ m = 15)%N) by lia.
  repeat (destruct Hc as [->|Hc]; [reflexivity|]).
  subst m. reflexivity.
Qed.

Lemma ascii_of_code (c : ascii) (n : N) :
  (N_of_ascii c =? n)%N = true -> c = ascii_of_N n.
Proof.
  intros H. apply N.eqb_eq in H. rewrite <- H.
  symmetry. apply ascii_N_embedding.
Qed.

Lemma scan_escape_char (c : ascii) (rest t r : string) :
  scan_string rest = Some (t, r) ->
  scan_string (escape_char c rest) = Some (String c t, r).
Proof.
  intros H. unfold escape_char.
  destruct (Ascii.eqb c dquote) eqn:Hq.
  { apply Ascii.eqb_eq in Hq as ->.
    rewrite (scan_string_simple_escape dquote dquote) by reflexivity.
    rewrite H. reflexivity. }
  destruct (Ascii.eqb c backslash) eqn:Hb.
  { apply Ascii.eqb_eq in Hb as ->.
    rewrite (scan_string_simple_escape backslash backslash) by reflexivity.
    rewrite H. reflexivity. }
  destruct (N_of_ascii c =? 10)%N eqn:H10.
  { apply ascii_of_code in H10 as ->.
    rewrite (scan_string_simple_escape "n" "010") by reflexivity.
    rewrite H. reflexivity. }
  destruct (N_of_ascii c =? 13)%N eqn:H13.
  { apply ascii_of_code in H13 as ->.
    rewrite (scan_string_simple_escape "r" "013") by reflexivity.
    rewrite H. reflexivity. }
  destruct (N_of_ascii c =? 9)%N eqn:H9.
  { apply ascii_of_code in H9 as ->.
    rewrite (scan_string_simple_escape "t" "009") by reflexivity.
    rewrite H. reflexivity. }
  destruct (N_of_ascii c =? 8)%N eqn:H8.
  { apply ascii_of_code in H8 as ->.
    rewrite (scan_string_simple_escape "b" "008") by reflexivity.
    rewrite H. reflexivity. }
  destruct (N_of_ascii c =? 12)%N eqn:H12.
  { apply ascii_of_code in H12 as ->.
    rewrite (scan_string_simple_escape "f" "012") by reflexivity.
    rewrite H. reflexivity. }
  destruct (N_of_ascii c <? 32)%N eqn:H32.
  - apply N.ltb_lt in H32.
    rewrite scan_string_u.
    change (hex_val "0") with (Some 0%N).
    assert (Hhi : (N_of_ascii c / 16 < 16)%N)
      by (apply N.Div0.div_lt_upper_bound; lia).
    assert (Hlo : (N_of_ascii c mod 16 < 16)%N)
      by (apply N.mod_lt; discriminate).
    rewrite (hex_val_hex_digit _ Hhi), (hex_val_hex_digit _ Hlo), H.
    cbn [mbind option_bind].
    replace (((0 * 16 + 0) * 16 + N_of_ascii c / 16) * 16
             + N_of_ascii c mod 16)%N with (N_of_ascii c)
      by (rewrite (N.div_mod (N_of_ascii c) 16) at 1 by discriminate; lia).
    unfold utf8_onto.
    destruct (N.ltb_spec (N_of_ascii c) 128) as [_|Hge]; [|lia].
    rewrite ascii_N_embedding. reflexivity.
  - rewrite (scan_string_cons c rest Hq Hb H32), H. reflexivity.
Qed.

Lemma scan_escape (s k : string) :
  scan_string (escape s (String dquote k)) = Some (s, k).
Proof.
  induction s as [|c s IH]; simpl.
  - reflexivity.
  - apply scan_escape_char. exact IH.
Qed.

Lemma skip_ws_spaces (n : nat) (k : string) :
  skip_ws (spaces n k) = skip_ws k.
Proof. induction n as [|n IH]; simpl; auto. Qed.

Lemma skip_ws_newline_indent (level : nat) (k : string) :
  skip_ws (newline_indent level k) = skip_ws k.
Proof. unfold newline_indent. simpl. apply skip_ws_spaces. Qed.

Lemma dump_onto_dict (level : nat) kv items (k : string) :
  dump_onto level (VDict (kv :: items)) k
  = String "{"
      (dump_members (dump_member (S level)) (S level) true (kv :: items) k).
Proof. reflexivity. Qed.

Lemma dump_members_cons {A : Type} (di : A -> string -> string)
    (level : nat) (first : bool) (x : A) (l : list A) (k : string) :
  dump_members di level first (x :: l) k
  = (if first then id else String ",")
      (newline_indent level (di x (dump_members di level false l k))).
Proof. destruct first; reflexivity. Qed.

Lemma dump_members_nil {A : Type} (di : A -> string -> string)
    (level : nat) (first : bool) (k : string) :
  dump_members di level first [] k
  = newline_indent (Nat.pred level) (String "}" k).
Proof. reflexivity. Qed.

(** The text of a value starts with a quote or a brace, never with
    whitespace. *)
Lemma dump_onto_head (level : nat) (v : value) (k : string) :
  exists c r, dump_onto level v k = String c r
              /\ is_ws c = false
              /\ (Ascii.eqb c dquote = true
                  \/ (Ascii.eqb c dquote = false /\ Ascii.eqb c "{" = true)).
Proof.
  destruct v as [s|[|kv items]]; simpl; eexists _, _;
    (split; [reflexivity|]); split; auto.
Qed.

Lemma skip_ws_dump_onto (level : nat) (v : value) (k : string) :
  skip_ws (dump_onto level v k) = dump_onto level v k.
Proof.
  destruct (dump_onto_head level v k) as (c & r & -> & Hws & _).
  simpl. rewrite Hws. reflexivity.
Qed.

Lemma parse_value_str (f : nat) (s k : string) :
  parse_value (S f) (dump_str s k) = Some (VStr s, k).
Proof.
  unfold dump_str. cbn [parse_value].
  change (Ascii.eqb dquote dquote) with true. cbv iota.
  rewrite scan_escape. reflexivity.
Qed.

(** One step of [parse_members] on the text of a member. *)
Lemma parse_members_step (f level : nat) (key : key) (v : value)
    (rest : string) :
  parse_members (S f) (dump_member level (key, v) rest)
  = '(v', r3) ← parse_value f (dump_onto level v rest);
    match skip_ws r3 with
    | EmptyString => None
    | String c4 r4 =>
        if Ascii.eqb c4 "," then
          '(more, r5) ← parse_members f (skip_ws r4);
          Some ((KStr (key_str key), v') :: more, r5)
        else if Ascii.eqb c4 "}" then Some ([(KStr (key_str key), v')], r4)
        else None
    end.
Proof.
  unfold dump_member, dump_str. cbn [parse_members].
  change (Ascii.eqb dquote dquote) with true. cbv iota.
  rewrite scan_escape. cbn [mbind option_bind].
  change (skip_ws (String ":" ?r)) with (String ":" r).
  change (Ascii.eqb ":" ":") with true. cbv iota.
  change (skip_ws (String " " ?r)) with (skip_ws r).
  rewrite skip_ws_dump_onto. reflexivity.
Qed.

Lemma dump_member_head (level : nat) (kv : key * value) (rest : string) :
  exists r, dump_member level kv rest = String dquote r.
Proof. destruct kv as [key v]. unfold dump_member, dump_str. eauto. Qed.

Lemma skip_ws_dump_member (level : nat) (kv : key * value) (rest : string) :
  skip_ws (dump_member level kv rest) = dump_member level kv rest.
Proof.
  destruct (dump_member_head level kv rest) as [r ->]. reflexivity.
Qed.

Lemma size_pos (v : value) : (1 <= size v)%nat.
Proof. destruct v; simpl; lia. Qed.

(** With fuel for every value and member of [v], the decoder reads the text
    of [v] back, up to the keys. *)
Lemma parse_dump (f : nat) :
  (forall v level k,
      (size v <= f)%nat ->
      parse_value f (dump_onto level v k) = Some (as_reloaded v, k))
  /\ (forall kv l level k,
         (list_sum (map (fun kv => match kv with
                                   | (_, v') => S (size v')
                                   end) (kv :: l)) <= f)%nat ->
         parse_members f
           (dump_member level kv
              (dump_members (dump_member level) level false l k))
         = Some (map (fun kv => match kv with
                                | (key, v') =>
                                    (KStr (key_str key), as_reloaded v')
                                end) (kv :: l), k)).
Proof.
  induction f as [|f [IHv IHm]].
  { split.
    - intros v level k Hsz. pose proof (size_pos v). lia.
    - intros [key v] l level k Hsz. simpl in Hsz. lia. }
  split.
  - intros [s|[|kv items]] level k Hsz.
    + apply parse_value_str.
    + reflexivity.
    + rewrite dump_onto_dict, dump_members_cons. unfold id.
      cbn [parse_value].
      change (Ascii.eqb "{" dquote) with false.
      change (Ascii.eqb "{" "{") with true. cbv iota.
      rewrite skip_ws_newline_indent, skip_ws_dump_member.
      destruct (dump_member_head (S level) kv
                  (dump_members (dump_member (S level)) (S level) false
                     items k)) as [r1 Hr1].
      rewrite Hr1.
      change (Ascii.eqb dquote "}") with false. cbv iota.
      rewrite <- Hr1.
      rewrite IHm by (simpl in Hsz |- *; lia).
      reflexivity.
  - intros [key v] l level k Hsz. simpl in Hsz.
    rewrite parse_members_step.
    rewrite IHv by lia. cbn [mbind option_bind].
    destruct l as [|y l'].
    + rewrite dump_members_nil, skip_ws_newline_indent. reflexivity.
    + rewrite dump_members_cons.
      change (skip_ws (String "," ?r)) with (String "," r).
      change (Ascii.eqb "," ",") with true. cbv iota.
      rewrite skip_ws_newline_indent, skip_ws_dump_member.
      rewrite IHm by (simpl in Hsz |- *; lia).
      reflexivity.
Qed.

Lemma escape_char_length (c : ascii) (k : string) :
  (String.length k < String.length (escape_char c k))%nat.
Proof.
  unfold escape_char.
  repeat match goal with
         | |- context [if ?b then _ else _] => destruct b
         end; simpl; lia.
Qed.

Lemma escape_length (s k : string) :
  (String.length k <= String.length (escape s k))%nat.
Proof.
  induction s as [|c s IH]; simpl; [lia|].
  pose proof (escape_char_length c (escape s k)). lia.
Qed.

Lemma spaces_length (n : nat) (k : string) :
  (String.length k <= String.length (spaces n k))%nat.
Proof. induction n as [|n IH]; simpl; lia. Qed.

Lemma newline_indent_length (level : nat) (k : string) :
  (String.length k < String.length (newline_indent level k))%nat.
Proof.
  unfold newline_indent. simpl.
  pose proof (spaces_length (level + (level + 0)) k). lia.
Qed.

Lemma dump_str_length (s k : string) :
  (2 + String.length k <= String.length (dump_str s k))%nat.
Proof.
  unfold dump_str. simpl.
  pose proof (escape_length s (String dquote k)). simpl in *. lia.
Qed.

Lemma members_length (n level : nat) (k : string) :
  (forall v level k,
      (size v <= n)%nat ->
      (size v + String.length k <= String.length (dump_onto level v k))%nat) ->
  forall l first,
    (list_sum (map (fun kv => match kv with
                              | (_, v') => S (size v')
                              end) l) <= n)%nat ->
    (list_sum (map (fun kv => match kv with
                              | (_, v') => S (size v')
                              end) l)
     + String.length k
     <= String.length (dump_members (dump_member level) level first l k))%nat.
Proof.
  intros IH. induction l as [|[key v] l IHl]; intros first Hsz.
  - rewrite dump_members_nil. simpl list_sum.
    pose proof (newline_indent_length (Nat.pred level) (String "}" k)).
    simpl in *. lia.
  - rewrite dump_members_cons. simpl in Hsz. simpl list_sum.
    set (rest := dump_members (dump_member level) level false l k).
    assert (Hrest : (list_sum (map (fun kv => match kv with
                                       | (_, v') => S (size v')
                                       end) l)
                     + String.length k <= String.length rest)%nat).
    { apply IHl. lia. }
    assert (Hv : (size v + String.length rest
                  <= String.length (dump_onto level v rest))%nat).
    { apply IH. lia. }
    pose proof (dump_str_length (key_str key)
                  (String ":" (String " " (dump_onto level v rest)))) as Hk.
    change (dump_str (key_str key)
              (String ":" (String " " (dump_onto level v rest))))
      with (dump_member level (key, v) rest) in Hk.
    change (String.length (String ":" (String " " (dump_onto level v rest))))
      with (S (S (String.length (dump_onto level v rest)))) in Hk.
    set (m := dump_member level (key, v) rest) in *.
    pose proof (newline_indent_length level m) as Hnl.
    destruct first; unfold id.
    + lia.
    + change (String.length (String "," (newline_indent level m)))
        with (S (String.length (newline_indent level m))).
      lia.
Qed.

(** The text of a value has at least as many characters as the value has
    parts, so the length of the text is fuel enough. *)
Lemma size_le_length (n : nat) :
  forall v level k,
    (size v <= n)%nat ->
    (size v + String.length k <= String.length (dump_onto level v k))%nat.
Proof.
  induction n as [|n IH]; intros v level k Hsz.
  { pose proof (size_pos v). lia. }
  destruct v as [s|[|kv items]].
  - change (dump_onto level (VStr s) k) with (dump_str s k).
    pose proof (dump_str_length s k). simpl size. lia.
  - simpl. lia.
  - rewrite dump_onto_dict.
    change (size (VDict (kv :: items)))
      with (S (list_sum (map (fun kv => match kv with
                                         | (_, v') => S (size v')
                                         end) (kv :: items)))) in *.
    pose proof (members_length n (S level) k IH (kv :: items) true) as Hm.
    set (m := dump_members (dump_member (S level)) (S level) true
                (kv :: items) k) in *.
    change (String.length (String "{" m)) with (S (String.length m)).
    lia.
Qed.

(** [json.loads(json.dumps(v, ensure_ascii=False, indent=2))], for every
    value of the model. *)
Lemma loads_dumps (v : value) : loads (dumps v) = Some (as_reloaded v).
Proof.
  unfold loads, dumps. rewrite skip_ws_dump_onto.
  rewrite (proj1 (parse_dump _)).
  - reflexivity.
  - pose proof (size_le_length (size v) v 0 EmptyString (le_n _)). lia.
Qed.

Lemma key_eqb_eq (k1 k2 : key) : key_eqb k1 k2 = true <-> k1 = k2.
Proof.
  destruct k1 as [a|a], k2 as [b|b]; simpl.
  - rewrite Nat.eqb_eq. split; congruence.
  - split; discriminate.
  - split; discriminate.
  - rewrite String.eqb_eq. split; congruence.
Qed.

Lemma dict_set_fresh (k : key) (v : value) (d : list (key * value)) :
  k ∉ map fst d -> dict_set k v d = d ++ [(k, v)].
Proof.
  induction d as [|[k' v'] d IH]; simpl; intros Hk; [reflexivity|].
  destruct (key_eqb k k') eqn:E.
  - apply key_eqb_eq in E as ->. exfalso. apply Hk. left.
  - rewrite IH; [reflexivity|]. intros Hin. apply Hk. right. exact Hin.
Qed.

Lemma dict_fold_fresh (l acc : list (key * value)) :
  NoDup (map fst (acc ++ l)) ->
  fold_left (fun d kv => dict_set (fst kv) (snd kv) d) l acc = acc ++ l.
Proof.
  revert acc. induction l as [|[k v] l IH]; intros acc Hnd; simpl.
  - rewrite app_nil_r. reflexivity.
  - rewrite dict_set_fresh.
    + rewrite IH; rewrite <- app_assoc; [reflexivity|exact Hnd].
    + rewrite map_app in Hnd. simpl in Hnd.
      apply NoDup_app in Hnd as (_ & Hdisj & _).
      intros Hin. apply (Hdisj k Hin). left.
Qed.

Lemma dict_of_pairs_nodup (l : list (key * value)) :
  NoDup (map fst l) -> dict_of_pairs l = l.
Proof.
  intros Hnd. unfold dict_of_pairs. apply (dict_fold_fresh l []). exact Hnd.
Qed.

Lemma as_reloaded_annotation (a : annotation) :
  as_reloaded (annotation_value a) = annotation_value a.
Proof. reflexivity. Qed.

Lemma reloaded_keys_nodup (items : list (nat * annotation)) :
  NoDup (map fst items) -> NoDup (map fst (map reloaded_item items)).
Proof.
  intros Hnd. rewrite map_map. simpl.
  replace (map (fun x : nat * annotation => KStr (pretty (fst x))) items)
    with (map (fun n : nat => KStr (pretty n)) (map fst items))
    by (rewrite map_map; reflexivity).
  assert (Hinj : Inj (=) (=) (fun n : nat => KStr (pretty n))).
  { intros x y [= Hxy]. apply (inj pretty). exact Hxy. }
  apply (NoDup_fmap_2 (fun n : nat => KStr (pretty n))). exact Hnd.
Qed.

(** Export and reload of the entries [items] of a store, in whatever order
    the dict enumerates them: the same entries in the same order, each
    index replaced by its decimal text. *)
Lemma loads_dumps_store (items : list (nat * annotation)) :
  NoDup (map fst items) ->
  loads (dumps (store_value items)) = Some (VDict (map reloaded_item items)).
Proof.
  intros Hnd. rewrite loads_dumps. unfold store_value.
  cbn [as_reloaded]. rewrite map_map.
  rewrite (map_ext _ reloaded_item) by (intros [i a]; reflexivity).
  rewrite dict_of_pairs_nodup by (apply reloaded_keys_nodup; exact Hnd).
  reflexivity.
Qed.

Lemma dict_get_reloaded (items : list (nat * annotation)) (i : nat) :
  dict_get (KStr (pretty i)) (map reloaded_item items)
  = annotation_value <$> ((list_to_map items : gmap nat annotation) !! i).
Proof.
  induction items as [|[j a] items IH]; simpl.
  - rewrite lookup_empty. reflexivity.
  - destruct (String.eqb_spec (pretty i) (pretty j)) as [Heq|Hne].
    + apply (inj pretty) in Heq as ->.
      rewrite lookup_insert_eq. reflexivity.
    + rewrite lookup_insert_ne by congruence. exact IH.
Qed.

(** C9 as stated fails: a store with an entry at index 0 comes back with
    the key "0", a string, and has no entry at the int 0 any more. *)
Lemma reload_turns_indices_into_strings :
  loads (export_text {[ 0%nat := mk_annotation "t" "n" "c" "d" "u" "l" ]}
           [0%nat])
  <> Some (store_value
             (store_items
                {[ 0%nat := mk_annotation "t" "n" "c" "d" "u" "l" ]}
                [0%nat]))
  /\ exists v,
       loads (export_text
                {[ 0%nat := mk_annotation "t" "n" "c" "d" "u" "l" ]} [0%nat])
       = Some v
       /\ keys v = [KStr "0"]
       /\ get (KInt 0) v = None
       /\ keys (store_value
                  (store_items
                     {[ 0%nat := mk_annotation "t" "n" "c" "d" "u" "l" ]}
                     [0%nat])) = [KInt 0]
       /\ get (KInt 0)
            (store_value
               (store_items
                  {[ 0%nat := mk_annotation "t" "n" "c" "d" "u" "l" ]}
                  [0%nat]))
          = Some (annotation_value (mk_annotation "t" "n" "c" "d" "u" "l")).
Proof.
  split.
  - vm_compute. discriminate.
  - eexists. repeat split; vm_compute; reflexivity.
Qed.

(** * Further properties of the script *)

(** ** The sort, continued *)

Lemma sort_data_same_kind_witness :
  exists data,
    sort_data [mk_tweet (Some "a"%string) (Some "2021-05-03"%string) None None;
               mk_tweet (Some "b"%string) (Some "bad-date"%string) None None;
               mk_tweet (Some "c"%string) (Some "2021-05-02"%string) None None]
    = Ok data
    /\ data ≡ₚ [mk_tweet (Some "a"%string) (Some "2021-05-03"%string) None None;
                mk_tweet (Some "b"%string) (Some "bad-date"%string) None None;
                mk_tweet (Some "c"%string) (Some "2021-05-02"%string) None None]
    /\ Sorted (fun t u => instant (safe_parse_date t)
                          <= instant (safe_parse_date u)) data
    /\ forall z,
         List.filter (fun t => instant (safe_parse_date t) =? z) data
         = List.filter (fun t => instant (safe_parse_date t) =? z)
             [mk_tweet (Some "a"%string) (Some "2021-05-03"%string) None None;
              mk_tweet (Some "b"%string) (Some "bad-date"%string) None None;
              mk_tweet (Some "c"%string) (Some "2021-05-02"%string) None None].
Proof.
  apply sort_data_same_kind.
  intros t u Ht Hu. apply list_elem_of_In in Ht, Hu. simpl in Ht, Hu.
  destruct Ht as [<-|[<-|[<-|[]]]], Hu as [<-|[<-|[<-|[]]]];
    vm_compute; reflexivity.
Defined.

Lemma sort_data_mixed_witness :
  sort_data [mk_tweet None (Some "2021-05-03T10:00:00+02:00"%string) None None;
             mk_tweet None (Some "2021-05-03T10:00:00"%string) None None]
  = Raise TypeError.
Proof.
  apply sort_data_mixed.
  exists (mk_tweet None (Some "2021-05-03T10:00:00+02:00"%string) None None),
         (mk_tweet None (Some "2021-05-03T10:00:00"%string) None None).
  split; [left|]. split; [right; left|]. vm_compute. discriminate.
Defined.

Lemma min_key_least_witness :
  instant PyDatetime.min
  <= instant (safe_parse_date
                (mk_tweet None (Some "1999-12-31T23:59:59"%string) None None)).
Proof.
  apply min_key_least. vm_compute. reflexivity.
Defined.

Lemma sort_keyed_ok_same_kind (l r : list (datetime * tweet)) :
  sort_keyed l = Ok r ->
  forall x y, x ∈ l -> y ∈ l -> aware (fst x) = aware (fst y).
Proof.
  intros Hok x y Hx Hy.
  destruct (decide (aware (fst x) = aware (fst y))) as [E|E]; [exact E|].
  rewrite sort_keyed_mixed in Hok by eauto. discriminate.
Qed.

Lemma sort_keyed_sorted_fixed (r : list (datetime * tweet)) :
  (forall x y, x ∈ r -> y ∈ r -> aware (fst x) = aware (fst y)) ->
  Sorted (fun x y => instant (fst x) <= instant (fst y)) r ->
  sort_keyed r = Ok r.
Proof.
  induction r as [|x r IH]; intros Hkind Hsorted; [reflexivity|].
  apply Sorted_inv in Hsorted as [Hs Hhd].
  simpl. rewrite IH; [|intros a b Ha Hb; apply Hkind; right; assumption|exact Hs].
  simpl. destruct r as [|y r']; [reflexivity|].
  simpl. rewrite (lt_same_kind (fst y) (fst x))
    by (apply Hkind; [right; left|left]).
  simpl. inversion Hhd; subst.
  destruct (Z.ltb_spec (instant (fst y)) (instant (fst x))); [lia|reflexivity].
Qed.

(** X4. Sorting is idempotent: the record list a successful sort returns
    is left as it is by sorting it again, so record indices are the same
    on every run. *)
Theorem sort_data_idempotent loaded data :
  sort_data loaded = Ok data -> sort_data data = Ok data.
Proof.
  unfold sort_data.
  set (keyed := map (fun t => (safe_parse_date t, t)) loaded).
  destruct (sort_keyed keyed) as [r|e] eqn:Hr; simpl; [|discriminate].
  intros [= <-].
  pose proof (sort_keyed_ok_same_kind _ _ Hr) as Hkind.
  destruct (sort_keyed_same_kind keyed Hkind) as (r' & Hr' & Hperm & Hsorted & _).
  rewrite Hr in Hr'. injection Hr' as <-.
  assert (Hshape : forall x, x ∈ r -> x = (safe_parse_date (snd x), snd x)).
  { intros x Hx. rewrite Hperm in Hx.
    apply list_elem_of_In, in_map_iff in Hx as (t & <- & _). reflexivity. }
  assert (Hmap : map (fun t => (safe_parse_date t, t)) (map snd r) = r).
  { clear -Hshape. induction r as [|x r IH]; simpl; [reflexivity|].
    rewrite <- (Hshape x) by left.
    rewrite IH by (intros y Hy; apply Hshape; right; exact Hy). reflexivity. }
  rewrite Hmap.
  rewrite sort_keyed_sorted_fixed; [reflexivity| |exact Hsorted].
  intros x y Hx Hy. apply Hkind; rewrite <- Hperm; assumption.
Qed.

Lemma sort_data_idempotent_witness :
  sort_data [mk_tweet (Some "b"%string) (Some "bad-date"%string) None None;
             mk_tweet (Some "c"%string) (Some "2021-05-02"%string) None None;
             mk_tweet (Some "a"%string) (Some "2021-05-03"%string) None None]
  = Ok [mk_tweet (Some "b"%string) (Some "bad-date"%string) None None;
        mk_tweet (Some "c"%string) (Some "2021-05-02"%string) None None;
        mk_tweet (Some "a"%string) (Some "2021-05-03"%string) None None].
Proof.
  apply (sort_data_idempotent
           [mk_tweet (Some "a"%string) (Some "2021-05-03"%string) None None;
            mk_tweet (Some "b"%string) (Some "bad-date"%string) None None;
            mk_tweet (Some "c"%string) (Some "2021-05-02"%string) None None]).
  vm_compute. reflexivity.
Defined.

(** ** The filter pipeline, continued *)

Lemma filtered_indices_exact_on_naive_dates_witness :
  [1%nat]
  = List.filter
      (selected
         [mk_tweet (Some "x"%string) (Some "bad-date"%string) None None;
          mk_tweet (Some "xy"%string)
            (Some "2021-05-01T08:00:00"%string) None None;
          mk_tweet (Some "y"%string) (Some "2021-05-02"%string) None None]
         initial_session
         (set_search_keyword "x"
            (set_date_range "2021/05/01 - 2021/05/02" untouched_widgets)))
      (seq 0 3).
Proof.
  apply (filtered_indices_exact_on_naive_dates
           [mk_tweet (Some "x"%string) (Some "bad-date"%string) None None;
            mk_tweet (Some "xy"%string)
              (Some "2021-05-01T08:00:00"%string) None None;
            mk_tweet (Some "y"%string) (Some "2021-05-02"%string) None None]).
  - intros t Ht. apply list_elem_of_In in Ht. simpl in Ht.
    destruct Ht as [<-|[<-|[<-|[]]]]; vm_compute; reflexivity.
  - vm_compute. reflexivity.
Defined.

Lemma filter_m_sublist {A : Type} (p : A -> result bool) (l r : list A) :
  filter_m p l = Ok r -> r `sublist_of` l.
Proof.
  revert r. induction l as [|x l IH]; simpl; intros r Hr.
  - injection Hr as <-. constructor.
  - destruct (p x) as [b|e]; simpl in Hr; [|discriminate].
    destruct (filter_m p l) as [r'|e]; simpl in Hr; [|discriminate].
    injection Hr as <-. destruct b.
    + apply sublist_skip. apply IH. reflexivity.
    + apply sublist_cons. apply IH. reflexivity.
Qed.

Lemma list_filter_sublist {A : Type} (q : A -> bool) (l : list A) :
  List.filter q l `sublist_of` l.
Proof.
  induction l as [|x l IH]; simpl; [constructor|].
  destruct (q x); [apply sublist_skip|apply sublist_cons]; exact IH.
Qed.

Lemma tag_stage_sublist anns tf (l : list nat) :
  tag_stage anns tf l `sublist_of` l.
Proof.
  unfold tag_stage. destruct (negb _); [apply list_filter_sublist|reflexivity].
Qed.

Lemma keyword_stage_sublist data kw (l r : list nat) :
  keyword_stage data kw l = Ok r -> r `sublist_of` l.
Proof.
  unfold keyword_stage. destruct (negb _).
  - apply filter_m_sublist.
  - intros [= <-]. reflexivity.
Qed.

Lemma date_stage_sublist data dr (l : list nat) :
  date_stage data dr l `sublist_of` l.
Proof.
  unfold date_stage. destruct (_ && _); [|reflexivity].
  destruct (date_block data dr l) as [r|e] eqn:Hr; simpl; [|reflexivity].
  unfold date_block in Hr.
  destruct (unpack2 _) as [[a b]|e]; simpl in Hr; [|discriminate].
  destruct (strptime_ymd (PyStr.strip a)) as [sd|e]; simpl in Hr;
    [|discriminate].
  destruct (strptime_ymd (PyStr.strip b)) as [ed|e]; simpl in Hr;
    [|discriminate].
  eapply filter_m_sublist. exact Hr.
Qed.

Lemma bookmark_stage_sublist bms only (l : list nat) :
  bookmark_stage bms only l `sublist_of` l.
Proof.
  unfold bookmark_stage. destruct only; [apply list_filter_sublist|reflexivity].
Qed.

Lemma filtered_indices_sublist data s w (F : list nat) :
  filtered_indices data s w = Ok F -> F `sublist_of` seq 0 (length data).
Proof.
  unfold filtered_indices.
  destruct (keyword_stage _ _ _) as [f2|e] eqn:Hkw; simpl; [|discriminate].
  intros [= <-].
  etransitivity; [apply bookmark_stage_sublist|].
  etransitivity; [apply date_stage_sublist|].
  etransitivity; [eapply keyword_stage_sublist; exact Hkw|].
  apply tag_stage_sublist.
Qed.

Lemma seq_strongly_sorted (a n : nat) : StronglySorted Nat.lt (seq a n).
Proof.
  revert a. induction n as [|n IH]; intros a; simpl; constructor.
  - apply IH.
  - apply Forall_forall. intros i Hi.
    apply list_elem_of_In, in_seq in Hi. unfold Nat.lt. lia.
Qed.

Lemma sublist_strongly_sorted (l1 l2 : list nat) :
  l1 `sublist_of` l2 -> StronglySorted Nat.lt l2 -> StronglySorted Nat.lt l1.
Proof.
  induction 1 as [|x l1 l2 Hsub IH|x l1 l2 Hsub IH]; intros Hs.
  - constructor.
  - apply StronglySorted_inv in Hs as [Hs Hall]. constructor; [auto|].
    rewrite Forall_forall in Hall |- *. intros y Hy. apply Hall.
    eapply elem_of_sublist; eauto.
  - apply StronglySorted_inv in Hs as [Hs _]. auto.
Qed.

(** X5. Whatever the session and the widgets hold, a list that the
    pipeline returns is strictly ascending (so without repetition) and made
    of indices of the record list. *)
Theorem filtered_indices_ascending data s w (F : list nat) :
  filtered_indices data s w = Ok F ->
  StronglySorted Nat.lt F
  /\ NoDup F
  /\ forall i, i ∈ F -> (i < length data)%nat.
Proof.
  intros HF.
  pose proof (filtered_indices_sublist _ _ _ _ HF) as Hsub.
  split; [|split].
  - eapply sublist_strongly_sorted; [exact Hsub|apply seq_strongly_sorted].
  - eapply sublist_NoDup; [|exact Hsub]. apply NoDup_ListNoDup, seq_NoDup.
  - intros i Hi. eapply filtered_indices_bound; eauto.
Qed.

Lemma filtered_indices_ascending_witness :
  StronglySorted Nat.lt [1; 2]%nat
  /\ NoDup [1; 2]%nat
  /\ forall i, i ∈ [1; 2]%nat -> (i < 3)%nat.
Proof.
  apply (filtered_indices_ascending
           [mk_tweet (Some "a"%string) None None None;
            mk_tweet (Some "xb"%string) None None None;
            mk_tweet (Some "xc"%string) None None None]
           initial_session (set_search_keyword "x" untouched_widgets)).
  vm_compute. reflexivity.
Defined.

(** ** The date range, continued *)

Lemma parse_range_bounds dr (sd ed : datetime) :
  parse_range dr = Some (sd, ed) ->
  exists a b,
    (negb (String.eqb dr EmptyString) && PyStr.contains "-" dr = true)
    /\ unpack2 (PyStr.split "-" dr) = Ok (a, b)
    /\ strptime_ymd (PyStr.strip a) = Ok sd
    /\ strptime_ymd (PyStr.strip b) = Ok ed.
Proof.
  unfold parse_range.
  destruct (negb (String.eqb dr EmptyString) && PyStr.contains "-" dr);
    [|discriminate].
  destruct (unpack2 (PyStr.split "-" dr)) as [[a b]|e]; [|discriminate].
  destruct (strptime_ymd (PyStr.strip a)) as [sd'|e] eqn:Ha; [|discriminate].
  destruct (strptime_ymd (PyStr.strip b)) as [ed'|e] eqn:Hb; [|discriminate].
  intros [= <- <-]. exists a, b. auto.
Qed.

Lemma make_fields y m d h mi sec us tz (t : datetime) :
  make y m d h mi sec us tz = Ok t ->
  t = mk_datetime y m d h mi sec us tz.
Proof.
  unfold make. destruct (_ && _); [|discriminate]. intros [= <-]. reflexivity.
Qed.

(** A bound read by [strptime] is a valid date at midnight, without offset. *)
Lemma strptime_ymd_midnight (txt : string) (t : datetime) :
  strptime_ymd txt = Ok t ->
  valid_date (year t) (month t) (day t) = true
  /\ hour t = 0 /\ minute t = 0 /\ second t = 0 /\ microsecond t = 0
  /\ tzinfo t = None.
Proof.
  unfold strptime_ymd.
  destruct (PyStr.split "/" txt) as [|ys [|ms [|ds [|x toks]]]];
    try discriminate.
  destruct (of_option (directive_Y _)) as [y|e]; simpl; [|discriminate].
  destruct (of_option (directive_m _)) as [m|e]; simpl; [|discriminate].
  destruct (of_option (directive_d _)) as [d|e]; simpl; [|discriminate].
  intros Hmake. destruct (make_valid _ _ _ _ _ _ _ _ _ Hmake) as [Hd _].
  apply make_fields in Hmake. subst t. simpl in *. auto 10.
Qed.

Lemma filtered_in_date_stage data s w (F : list nat) (i : nat) :
  filtered_indices data s w = Ok F -> i ∈ F ->
  exists f2,
    (forall j, j ∈ f2 -> (j < length data)%nat)
    /\ i ∈ date_stage data (date_range w) f2.
Proof.
  unfold filtered_indices.
  destruct (keyword_stage _ _ _) as [f2|e] eqn:Hkw; simpl; [|discriminate].
  intros [= <-] Hi. exists f2. split.
  - intros j Hj. eapply tag_stage_bound, keyword_stage_incl; eauto.
  - eapply bookmark_stage_incl. exact Hi.
Qed.

(** On dates without offset, an index that passes an applied range has its
    record date between the two bounds. *)
Lemma filtered_between data s w (F : list nat) (i : nat) (sd ed : datetime) :
  (forall t, t ∈ data -> tzinfo (safe_parse_date t) = None) ->
  parse_range (date_range w) = Some (sd, ed) ->
  filtered_indices data s w = Ok F -> i ∈ F ->
  date_holds data sd ed i = true.
Proof.
  intros Hdata Hrange HF Hi.
  destruct (filtered_in_date_stage _ _ _ _ _ HF Hi) as (f2 & Hbound & Hin).
  rewrite (date_stage_naive data _ f2 Hdata Hbound), Hrange in Hin.
  apply list_elem_of_In, filter_In in Hin as [_ Hin]. exact Hin.
Qed.



(** X8. The end of the range is midnight at the start of the end day: on
    record dates without offset, a record dated on the end day at any time
    after 00:00:00 is not in the filtered list. *)
Theorem range_excludes_rest_of_end_day data s w (sd ed : datetime)
    (F : list nat) (i : nat) (t : tweet) :
  (forall t, t ∈ data -> tzinfo (safe_parse_date t) = None) ->
  parse_range (date_range w) = Some (sd, ed) ->
  filtered_indices data s w = Ok F ->
  data !! i = Some t ->
  year (safe_parse_date t) = year ed ->
  month (safe_parse_date t) = month ed ->
  day (safe_parse_date t) = day ed ->
  0 < hour (safe_parse_date t) \/ 0 < minute (safe_parse_date t)
  \/ 0 < second (safe_parse_date t) \/ 0 < microsecond (safe_parse_date t) ->
  i ∉ F.
Proof.
  intros Hdata Hrange HF Ht Hy Hm Hd Hlater Hin.
  pose proof (filtered_between data s w F i sd ed Hdata Hrange HF Hin) as Hb.
  unfold date_holds in Hb. rewrite Ht in Hb.
  unfold between in Hb. apply andb_true_iff in Hb as [_ Hle].
  apply Z.leb_le in Hle.
  destruct (parse_range_bounds _ _ _ Hrange) as (a & b & _ & _ & _ & Hed).
  destruct (strptime_ymd_midnight _ _ Hed) as (_ & Hh & Hmi & Hs & Hus & _).
  destruct (safe_parse_date_valid t) as [_ Hvt].
  unfold valid_time in Hvt.
  repeat match goal with
         | H : _ && _ = true |- _ => apply andb_true_iff in H as [? ?]
         end.
  unfold wall_us in Hle. rewrite Hy, Hm, Hd, Hh, Hmi, Hs, Hus in Hle.
  lia.
Qed.

Lemma range_excludes_rest_of_end_day_witness :
  1%nat ∉ [0%nat].
Proof.
  apply (range_excludes_rest_of_end_day
           [mk_tweet None (Some "2021-05-01T09:00:00"%string) None None;
            mk_tweet None (Some "2021-05-02T00:00:01"%string) None None]
           initial_session
           (set_date_range "2021/05/01 - 2021/05/02" untouched_widgets)
           (mk_datetime 2021 5 1 0 0 0 0 None)
           (mk_datetime 2021 5 2 0 0 0 0 None)
           [0%nat] 1%nat
           (mk_tweet None (Some "2021-05-02T00:00:01"%string) None None)).
  - intros t Ht. apply list_elem_of_In in Ht. simpl in Ht.
    destruct Ht as [<-|[<-|[]]]; vm_compute; reflexivity.
  - vm_compute. reflexivity.
  - vm_compute. reflexivity.
  - reflexivity.
  - vm_compute. reflexivity.
  - vm_compute. reflexivity.
  - vm_compute. reflexivity.
  - right. right. left. vm_compute. reflexivity.
Defined.

(** X9. A record without [tweetDate], or whose [tweetDate] is refused by
    [fromisoformat], has the key [datetime.min], so an applied range that
    starts in year 2 or later leaves it out. *)
Theorem range_excludes_unparsed_dates data s w (sd ed : datetime)
    (F : list nat) (i : nat) (t : tweet) :
  (forall t, t ∈ data -> tzinfo (safe_parse_date t) = None) ->
  parse_range (date_range w) = Some (sd, ed) ->
  2 <= year sd ->
  filtered_indices data s w = Ok F ->
  data !! i = Some t ->
  match t_tweetDate t with
  | None => True
  | Some d => exists e, fromisoformat (PyStr.replace "Z" "+00:00" d) = Raise e
  end ->
  i ∉ F.
Proof.
  intros Hdata Hrange Hyear HF Ht Hbad Hin.
  assert (Hmin : safe_parse_date t = PyDatetime.min).
  { unfold safe_parse_date. destruct (t_tweetDate t) as [d|]; [|reflexivity].
    destruct Hbad as [e He]. cbn [bind]. rewrite He. reflexivity. }
  pose proof (filtered_between data s w F i sd ed Hdata Hrange HF Hin) as Hb.
  unfold date_holds in Hb. rewrite Ht, Hmin in Hb.
  unfold between in Hb. apply andb_true_iff in Hb as [Hle _].
  apply Z.leb_le in Hle.
  destruct (parse_range_bounds _ _ _ Hrange) as (a & b & _ & _ & Hsd & _).
  destruct (strptime_ymd_midnight _ _ Hsd) as (Hvd & Hh & Hmi & Hs & Hus & _).
  unfold valid_date in Hvd.
  repeat match goal with
         | H : _ && _ = true |- _ => apply andb_true_iff in H as [? ?]
         end.
  assert (Hy : 365 <= days_before_year (year sd)).
  { unfold days_before_year. cbv zeta.
    pose proof (Z.div_pos (year sd - 1) 400).
    assert ((year sd - 1) / 100 <= (year sd - 1) / 4).
    { apply Z.div_le_lower_bound; [lia|].
      pose proof (Z.mul_div_le (year sd - 1) 100).
      pose proof (Z.div_pos (year sd - 1) 100). lia. }
    lia. }
  pose proof (days_before_month_aux_nonneg (year sd)
                (Z.to_nat (month sd - 1))) as Hm.
  change (wall_us PyDatetime.min) with 86400000000 in Hle.
  unfold wall_us, ymd2ord, days_before_month in Hle.
  rewrite Hh, Hmi, Hs, Hus in Hle. lia.
Qed.

Lemma range_excludes_unparsed_dates_witness :
  0%nat ∉ [1%nat].
Proof.
  apply (range_excludes_unparsed_dates
           [mk_tweet None (Some "bad-date"%string) None None;
            mk_tweet None (Some "2021-05-01T09:00:00"%string) None None]
           initial_session
           (set_date_range "2021/05/01 - 2021/05/02" untouched_widgets)
           (mk_datetime 2021 5 1 0 0 0 0 None)
           (mk_datetime 2021 5 2 0 0 0 0 None)
           [1%nat] 0%nat
           (mk_tweet None (Some "bad-date"%string) None None)).
  - intros t Ht. apply list_elem_of_In in Ht. simpl in Ht.
    destruct Ht as [<-|[<-|[]]]; vm_compute; reflexivity.
  - vm_compute. reflexivity.
  - vm_compute. discriminate.
  - vm_compute. reflexivity.
  - reflexivity.
  - exists ValueError. vm_compute. reflexivity.
Defined.

Lemma filter_m_raises {A : Type} (p : A -> result bool) (l : list A) (x : A)
    (e : exn) :
  x ∈ l -> p x = Raise e -> exists e', filter_m p l = Raise e'.
Proof.
  induction l as [|y l IH]; intros Hx Hp.
  - apply elem_of_nil in Hx. contradiction.
  - simpl. destruct (p y) as [b|e'] eqn:Hy; simpl; [|eauto].
    apply elem_of_cons in Hx as [->|Hx]; [congruence|].
    destruct (IH Hx Hp) as [e'' ->]. simpl. eauto.
Qed.

Lemma le_mixed (a b : datetime) :
  aware a <> aware b -> le a b = Raise TypeError.
Proof.
  unfold aware, le, cmp.
  destruct (tzinfo a), (tzinfo b); try reflexivity; contradiction.
Qed.

(** X10. One record with a UTC offset among the indices that reach the
    date stage is enough to lose the range: comparing it with a bound
    raises inside the [try], and the stage hands its input on unchanged,
    in-range and out-of-range records alike. *)
Theorem date_stage_lost_on_aware_record data dr (l : list nat)
    (sd ed : datetime) (i : nat) (t : tweet) :
  parse_range dr = Some (sd, ed) ->
  i ∈ l -> data !! i = Some t ->
  aware (safe_parse_date t) = true ->
  date_stage data dr l = l.
Proof.
  intros Hrange Hi Ht Haware.
  destruct (parse_range_bounds _ _ _ Hrange) as (a & b & Hg & Hsplit & Hsd & Hed).
  unfold date_stage. rewrite Hg. unfold date_block.
  rewrite Hsplit. simpl. rewrite Hsd. simpl. rewrite Hed. simpl.
  destruct (strptime_ymd_midnight _ _ Hsd) as (_ & _ & _ & _ & _ & Hnaive).
  assert (Hraise : in_range data sd ed i = Raise TypeError).
  { unfold in_range, data_at. rewrite Ht. simpl.
    rewrite le_mixed; [reflexivity|].
    rewrite Haware. unfold aware. rewrite Hnaive. discriminate. }
  destruct (filter_m_raises _ l i _ Hi Hraise) as [e ->]. reflexivity.
Qed.

Lemma date_stage_lost_on_aware_record_witness :
  date_stage
    [mk_tweet None (Some "2021-05-01T09:00:00"%string) None None;
     mk_tweet None (Some "2030-01-01T00:00:00Z"%string) None None]
    "2021/05/01 - 2021/05/02" [0; 1]%nat
  = [0; 1]%nat.
Proof.
  apply (date_stage_lost_on_aware_record _ _ _
           (mk_datetime 2021 5 1 0 0 0 0 None)
           (mk_datetime 2021 5 2 0 0 0 0 None)
           1%nat
           (mk_tweet None (Some "2030-01-01T00:00:00Z"%string) None None)).
  - vm_compute. reflexivity.
  - right. left.
  - reflexivity.
  - vm_compute. reflexivity.
Defined.

(** ** One run of the script, continued *)

Lemma session_eq s s' :
  index s' = index s -> annotations s' = annotations s ->
  annotation_order s' = annotation_order s ->
  filter_tag s' = filter_tag s -> bookmarks s' = bookmarks s ->
  show_only_bookmarked s' = show_only_bookmarked s -> s' = s.
Proof.
  destruct s, s'. simpl. intros -> -> -> -> -> ->. reflexivity.
Qed.

(** What a run that renders has done, button by button. *)
Lemma render_inv data w (F : list nat) s s' (v : view) :
  render data w F s = (s', Rendered v) ->
  exists p t i r j,
    list_index (index s) F = Ok p
    /\ data !! index s = Some t
    /\ previous F p = Ok i /\ i ∈ F
    /\ random_choice F (random_draw w) = Ok r /\ r ∈ F
    /\ next F p = Ok j /\ j ∈ F
    /\ v = mk_view F (index s) p t
             (if export_button w
              then Some (export_text (annotations s') (annotation_order s'))
              else None)
    /\ index s' = (if next_button w then j
                   else if random_button w then r
                   else if previous_button w then i
                   else index s)
    /\ annotations s' = (if save_button w
                         then save_annotation (index s) t w (annotations s)
                         else annotations s)
    /\ bookmarks s' = (if bookmark_button w
                       then toggle_bookmark (index s) (bookmarks s)
                       else bookmarks s)
    /\ filter_tag s' = filter_tag s
    /\ show_only_bookmarked s' = show_only_bookmarked s
    /\ annotation_order s'
       = (if save_button w
          then order_after_set (index s) (annotation_order s)
          else annotation_order s).
Proof.
  unfold render.
  destruct (list_index (index s) F) as [p|e] eqn:Hp;
    [|destruct (data_at data (index s)); discriminate].
  unfold data_at.
  destruct (data !! index s) as [t|] eqn:Ht; [|discriminate].
  pose proof (list_index_lookup _ _ _ Hp) as Hlk.
  destruct (previous_spec F _ p Hlk) as (i & Hprev & _ & Hi & _).
  destruct (next_spec F _ p Hlk) as (j & Hnext & _ & Hj & _).
  assert (HF : F <> []) by (intros ->; discriminate).
  destruct (random_choice_spec F (random_draw w) HF) as (r & Hrand & Hr).
  rewrite Hprev, Hrand, Hnext. unfold navigate.
  intros Heq. exists p, t, i, r, j.
  destruct (previous_button w), (random_button w), (next_button w),
    (save_button w), (bookmark_button w);
    simpl in Heq; injection Heq as <- <-; simpl; auto 20.
Qed.

Lemma rerun_inv loaded w s s' (v : view) :
  rerun loaded w s = (s', Rendered v) ->
  exists data first (F' : list nat),
    sort_data loaded = Ok data
    /\ filtered_indices data
         (set_show_only_bookmarked (bookmarked_checkbox w) s) w
       = Ok (first :: F')
    /\ render data w (first :: F')
         (revalidate (first :: F') first
            (set_show_only_bookmarked (bookmarked_checkbox w) s))
       = (s', Rendered v).
Proof.
  unfold rerun.
  destruct (sort_data loaded) as [data|e]; [|discriminate].
  destruct (filtered_indices data _ w) as [[|first F']|e] eqn:HF;
    try discriminate.
  intros Hr. exists data, first, F'. auto.
Qed.

Lemma filtered_indices_nodup data s w (F : list nat) :
  filtered_indices data s w = Ok F -> NoDup F.
Proof.
  intros HF. eapply sublist_NoDup; [|eapply filtered_indices_sublist; exact HF].
  apply NoDup_ListNoDup, seq_NoDup.
Qed.

(** C6. In a run that renders with the cursor at position [p] of the
    filtered list [F], the cursor left in the session is a member of [F];
    with Previous clicked it is [F[max(0, p-1)]]: the cursor itself at
    position 0, another index otherwise; with Next clicked it is
    [F[min(len(F)-1, p+1)]]: the cursor itself at the last position,
    another index otherwise. *)
Theorem navigation_clamps loaded w s s' (v : view) :
  rerun loaded w s = (s', Rendered v) ->
  v_filtered v !! v_current_position v = Some (v_current_index v)
  /\ index s' ∈ v_filtered v
  /\ (previous_button w = true -> random_button w = false ->
      next_button w = false ->
      v_filtered v !! Z.to_nat (Z.max 0 (Z.of_nat (v_current_position v) - 1))
      = Some (index s')
      /\ (v_current_position v = 0%nat -> index s' = v_current_index v)
      /\ ((0 < v_current_position v)%nat -> index s' <> v_current_index v))
  /\ (next_button w = true ->
      v_filtered v
        !! Z.to_nat (Z.min (Z.of_nat (length (v_filtered v)) - 1)
                       (Z.of_nat (v_current_position v) + 1))
      = Some (index s')
      /\ (S (v_current_position v) = length (v_filtered v) ->
          index s' = v_current_index v)
      /\ ((S (v_current_position v) < length (v_filtered v))%nat ->
          index s' <> v_current_index v)).
Proof.
  intros Hrun.
  destruct (rerun_inv _ _ _ _ _ Hrun) as (data & first & F' & _ & HF & Hr).
  set (F := first :: F') in *.
  apply render_inv in Hr
    as (p & t & i & r & j & Hp & _ & Hprev & Hi & _ & Hrin & Hnext & Hj
        & -> & Hidx & _).
  cbn [v_filtered v_current_position v_current_index].
  pose proof (list_index_lookup _ _ _ Hp) as Hlk.
  pose proof (filtered_indices_nodup _ _ _ _ HF) as Hnd.
  destruct (previous_spec F _ p Hlk) as (i' & Hprev' & Hilk & _ & Hi0).
  destruct (next_spec F _ p Hlk) as (j' & Hnext' & Hjlk & _ & Hjlast).
  assert (i' = i) by congruence. assert (j' = j) by congruence. subst i' j'.
  split; [exact Hlk|]. split; [|split].
  - rewrite Hidx. destruct (next_button w); [exact Hj|].
    destruct (random_button w); [exact Hrin|].
    destruct (previous_button w); [exact Hi|].
    eapply list_elem_of_lookup_2. exact Hlk.
  - intros Hb Hr0 Hn0. rewrite Hidx, Hn0, Hr0, Hb.
    split; [exact Hilk|]. split; [exact Hi0|].
    intros Hpos Heq. rewrite Heq in Hilk.
    pose proof (NoDup_lookup _ _ _ _ Hnd Hilk Hlk). lia.
  - intros Hn. rewrite Hidx, Hn.
    split; [exact Hjlk|]. split; [exact Hjlast|].
    intros Hlt Heq. rewrite Heq in Hjlk.
    pose proof (NoDup_lookup _ _ _ _ Hnd Hjlk Hlk). lia.
Qed.

Lemma navigation_clamps_witness :
  (* Previous at the first position *)
  (index (set_index 0 initial_session) ∈ [0; 1]%nat
   /\ [0; 1]%nat !! Z.to_nat (Z.max 0 (Z.of_nat 0 - 1)) = Some 0%nat
   /\ (0%nat = 0%nat -> index (set_index 0 initial_session) = 0%nat))
  (* Next at the last position *)
  /\ (index (set_index 1 initial_session) ∈ [0; 1]%nat
      /\ [0; 1]%nat
           !! Z.to_nat (Z.min (Z.of_nat (length [0; 1]%nat) - 1)
                          (Z.of_nat 1 + 1))
         = Some 1%nat
      /\ (2%nat = length [0; 1]%nat
          -> index (set_index 1 initial_session) = 1%nat))
  (* Next and Previous away from the ends *)
  /\ (((1 < length [0; 1]%nat)%nat
       -> index (set_index 1 initial_session) <> 0%nat)
      /\ ((0 < 1)%nat -> index (set_index 0 initial_session) <> 1%nat)).
Proof.
  pose (a := mk_tweet (Some "a"%string) None None None).
  pose (b := mk_tweet (Some "b"%string) None None None).
  pose (wp := mk_widgets "All" EmptyString EmptyString false EmptyString
                EmptyString EmptyString false false true false false false 0).
  pose (wn := mk_widgets "All" EmptyString EmptyString false EmptyString
                EmptyString EmptyString false false false false true false 0).
  assert (H1 : rerun [a; b] wp initial_session
               = (set_index 0 initial_session,
                  Rendered (mk_view [0; 1]%nat 0 0 a None)))
    by (vm_compute; reflexivity).
  assert (H2 : rerun [a; b] wn (set_index 1 initial_session)
               = (set_index 1 initial_session,
                  Rendered (mk_view [0; 1]%nat 1 1 b None)))
    by (vm_compute; reflexivity).
  assert (H3 : rerun [a; b] wn initial_session
               = (set_index 1 initial_session,
                  Rendered (mk_view [0; 1]%nat 0 0 a None)))
    by (vm_compute; reflexivity).
  assert (H4 : rerun [a; b] wp (set_index 1 initial_session)
               = (set_index 0 initial_session,
                  Rendered (mk_view [0; 1]%nat 1 1 b None)))
    by (vm_compute; reflexivity).
  destruct (navigation_clamps _ _ _ _ _ H1) as (_ & Hin1 & Hp1 & _).
  destruct (Hp1 eq_refl eq_refl eq_refl) as (Hat1 & Hkeep1 & _).
  destruct (navigation_clamps _ _ _ _ _ H2) as (_ & Hin2 & _ & Hn2).
  destruct (Hn2 eq_refl) as (Hat2 & Hkeep2 & _).
  destruct (navigation_clamps _ _ _ _ _ H3) as (_ & _ & _ & Hn3).
  destruct (Hn3 eq_refl) as (_ & _ & Hmove3).
  destruct (navigation_clamps _ _ _ _ _ H4) as (_ & _ & Hp4 & _).
  destruct (Hp4 eq_refl eq_refl eq_refl) as (_ & _ & Hmove4).
  repeat split; assumption.
Defined.



(** X11. What a run renders is consistent: the filtered list shown is the
    one the pipeline computes on the sorted records, the cursor sits at the
    position shown in that list, it is an index of the record list (so the
    counter "Tweet k/N" has 1 <= k <= N), and the tweet shown is the
    record at the cursor. *)
Theorem rendered_view_consistent loaded w s s' (v : view) :
  rerun loaded w s = (s', Rendered v) ->
  exists data,
    sort_data loaded = Ok data
    /\ filtered_indices data
         (set_show_only_bookmarked (bookmarked_checkbox w) s) w
       = Ok (v_filtered v)
    /\ v_filtered v !! v_current_position v = Some (v_current_index v)
    /\ data !! v_current_index v = Some (v_tweet v)
    /\ (v_current_index v < length data)%nat.
Proof.
  unfold rerun.
  destruct (sort_data loaded) as [data|e]; [|discriminate].
  destruct (filtered_indices data _ w) as [[|first F']|e] eqn:HF;
    try discriminate.
  intros Hr. apply render_inv in Hr
    as (p & t & i & r & j & Hp & Ht & _ & _ & _ & _ & _ & _ & -> & _).
  exists data. simpl. repeat split; auto.
  - apply list_index_lookup. exact Hp.
  - eapply lookup_lt_Some. exact Ht.
Qed.

Lemma rendered_view_consistent_witness :
  exists data,
    sort_data [mk_tweet (Some "a"%string) None None None;
               mk_tweet (Some "xb"%string) None None None]
    = Ok data
    /\ filtered_indices data
         (set_show_only_bookmarked
            (bookmarked_checkbox (set_search_keyword "x" untouched_widgets))
            initial_session)
         (set_search_keyword "x" untouched_widgets)
       = Ok [1%nat]
    /\ [1%nat] !! 0%nat = Some 1%nat
    /\ data !! 1%nat = Some (mk_tweet (Some "xb"%string) None None None)
    /\ (1 < length data)%nat.
Proof.
  apply (rendered_view_consistent
           [mk_tweet (Some "a"%string) None None None;
            mk_tweet (Some "xb"%string) None None None]
           (set_search_keyword "x" untouched_widgets) initial_session
           (set_index 1 initial_session)
           (mk_view [1%nat] 1 0 (mk_tweet (Some "xb"%string) None None None)
              None)).
  vm_compute. reflexivity.
Defined.

(** X12. After a run that renders, the cursor is still a member of the
    filtered list, whichever buttons were clicked: with no navigation click
    it is the revalidated cursor, with Previous alone it is
    [F[max(0, p-1)]], with Next alone [F[min(len(F)-1, p+1)]], with Random
    alone an element of the list. *)
Theorem navigation_stays_in_filtered loaded w s s' (v : view) :
  rerun loaded w s = (s', Rendered v) ->
  index s' ∈ v_filtered v
  /\ (previous_button w = false -> random_button w = false ->
      next_button w = false -> index s' = v_current_index v)
  /\ (previous_button w = true -> random_button w = false ->
      next_button w = false ->
      previous (v_filtered v) (v_current_position v) = Ok (index s'))
  /\ (next_button w = true ->
      next (v_filtered v) (v_current_position v) = Ok (index s')).
Proof.
  unfold rerun.
  destruct (sort_data loaded) as [data|e]; [|discriminate].
  destruct (filtered_indices data _ w) as [[|first F']|e] eqn:HF;
    try discriminate.
  intros Hr. apply render_inv in Hr
    as (p & t & i & r & j & Hp & Ht & Hprev & Hi & Hrand & Hr & Hnext & Hj
        & -> & Hidx & _).
  simpl. rewrite Hidx. split; [|split; [|split]].
  - destruct (next_button w); [exact Hj|].
    destruct (random_button w); [exact Hr|].
    destruct (previous_button w); [exact Hi|].
    eapply list_elem_of_lookup_2, list_index_lookup. exact Hp.
  - intros -> -> ->. reflexivity.
  - intros -> -> ->. exact Hprev.
  - intros ->. exact Hnext.
Qed.

Lemma navigation_stays_in_filtered_witness :
  index (set_index 1 initial_session) ∈ [1%nat]
  /\ (previous_button (set_search_keyword "x" untouched_widgets) = false ->
      random_button (set_search_keyword "x" untouched_widgets) = false ->
      next_button (set_search_keyword "x" untouched_widgets) = false ->
      index (set_index 1 initial_session) = 1%nat)
  /\ (previous_button (set_search_keyword "x" untouched_widgets) = true ->
      random_button (set_search_keyword "x" untouched_widgets) = false ->
      next_button (set_search_keyword "x" untouched_widgets) = false ->
      previous [1%nat] 0 = Ok (index (set_index 1 initial_session)))
  /\ (next_button (set_search_keyword "x" untouched_widgets) = true ->
      next [1%nat] 0 = Ok (index (set_index 1 initial_session))).
Proof.
  apply (navigation_stays_in_filtered
           [mk_tweet (Some "a"%string) None None None;
            mk_tweet (Some "xb"%string) None None None]
           (set_search_keyword "x" untouched_widgets) initial_session
           (set_index 1 initial_session)
           (mk_view [1%nat] 1 0 (mk_tweet (Some "xb"%string) None None None)
              None)).
  vm_compute. reflexivity.
Defined.

Lemma list_index_nodup (F : list nat) (k x : nat) :
  NoDup F -> F !! k = Some x -> list_index x F = Ok k.
Proof.
  intros Hnd. revert k. induction Hnd as [|y F Hy Hnd IH]; intros k Hk.
  - discriminate.
  - destruct k as [|k]; simpl in *.
    + injection Hk as ->. rewrite Nat.eqb_refl. reflexivity.
    + destruct (Nat.eqb_spec x y) as [->|Hne].
      * exfalso. apply Hy. eapply list_elem_of_lookup_2. exact Hk.
      * rewrite (IH k Hk). reflexivity.
Qed.

(** X13. On a list without repetition, as every filtered list is, Next and
    Previous undo each other away from the ends: from position [p], not the
    last, Next leads to the record at position [p+1] and Previous from
    there leads back; from position [p], not the first, Previous leads to
    position [p-1] and Next from there leads back. *)
Theorem next_and_previous_are_inverse (F : list nat) (c p : nat) :
  NoDup F ->
  list_index c F = Ok p ->
  ((S p < length F)%nat ->
   exists j, next F p = Ok j
             /\ list_index j F = Ok (S p)
             /\ previous F (S p) = Ok c)
  /\ ((0 < p)%nat ->
      exists i, previous F p = Ok i
                /\ list_index i F = Ok (Nat.pred p)
                /\ next F (Nat.pred p) = Ok c).
Proof.
  intros Hnd Hp. pose proof (list_index_lookup _ _ _ Hp) as Hlk.
  split.
  - intros Hlt.
    destruct (lookup_lt_is_Some_2 F (S p) Hlt) as [j Hj].
    exists j. split; [|split].
    + unfold next.
      replace (Z.min (Z.of_nat (length F) - 1) (Z.of_nat p + 1))
        with (Z.of_nat (S p)) by lia.
      apply list_at_lookup. exact Hj.
    + apply list_index_nodup; assumption.
    + unfold previous.
      replace (Z.max 0 (Z.of_nat (S p) - 1)) with (Z.of_nat p) by lia.
      apply list_at_lookup. exact Hlk.
  - intros Hpos.
    assert (Hlt : (Nat.pred p < length F)%nat).
    { apply lookup_lt_Some in Hlk. lia. }
    destruct (lookup_lt_is_Some_2 F (Nat.pred p) Hlt) as [i Hi].
    exists i. split; [|split].
    + unfold previous.
      replace (Z.max 0 (Z.of_nat p - 1)) with (Z.of_nat (Nat.pred p)) by lia.
      apply list_at_lookup. exact Hi.
    + apply list_index_nodup; assumption.
    + unfold next. apply lookup_lt_Some in Hlk.
      replace (Z.min (Z.of_nat (length F) - 1) (Z.of_nat (Nat.pred p) + 1))
        with (Z.of_nat p) by lia.
      apply list_at_lookup. exact (list_index_lookup _ _ _ Hp).
Qed.

Lemma next_and_previous_are_inverse_witness :
  ((2 < length [3; 7; 9]%nat)%nat ->
   exists j, next [3; 7; 9]%nat 1 = Ok j
             /\ list_index j [3; 7; 9]%nat = Ok 2%nat
             /\ previous [3; 7; 9]%nat 2 = Ok 7%nat)
  /\ ((0 < 1)%nat ->
      exists i, previous [3; 7; 9]%nat 1 = Ok i
                /\ list_index i [3; 7; 9]%nat = Ok (Nat.pred 1)
                /\ next [3; 7; 9]%nat (Nat.pred 1) = Ok 7%nat).
Proof.
  apply (next_and_previous_are_inverse [3; 7; 9]%nat 7%nat 1%nat).
  - repeat constructor; set_solver.
  - reflexivity.
Defined.

(** X14. What Save and the bookmark button do in a run that renders.  With
    Save clicked, the store holds at the cursor the tag and note typed, the
    user name of the field, and the content, date and link of the tweet
    shown ("" or "Unknown date" when the record lacks them), replacing any
    earlier annotation there; every other entry is as before.  With the
    bookmark button clicked the cursor's bookmark is toggled; without it
    the bookmarks are as before. *)
Theorem save_and_bookmark_effects loaded w s s' (v : view) :
  rerun loaded w s = (s', Rendered v) ->
  (save_button w = true ->
   annotations s' !! v_current_index v
   = Some (mk_annotation (tag_input w) (note_input w)
             (default EmptyString (t_content (v_tweet v)))
             (default "Unknown date"%string (t_tweetDate (v_tweet v)))
             (user_input w)
             (default EmptyString (t_tweetUrl (v_tweet v)))))
  /\ (forall j, j <> v_current_index v ->
                annotations s' !! j = annotations s !! j)
  /\ bookmarks s' = (if bookmark_button w
                     then toggle_bookmark (v_current_index v) (bookmarks s)
                     else bookmarks s).
Proof.
  unfold rerun.
  destruct (sort_data loaded) as [data|e]; [|discriminate].
  set (s1 := set_show_only_bookmarked (bookmarked_checkbox w) s).
  destruct (filtered_indices data s1 w) as [[|first F']|e] eqn:HF;
    try discriminate.
  set (G := first :: F') in *.
  destruct (revalidate_spec G first s1 eq_refl) as (_ & _ & _ & Ha & Hb).
  intros Hr. apply render_inv in Hr
    as (p & t & i & r & j & _ & _ & _ & _ & _ & _ & _ & _ & -> & _
        & Hanns & Hbms & _).
  simpl. rewrite Hanns, Hbms, Ha, Hb. unfold save_annotation.
  split; [|split].
  - intros ->. apply lookup_insert_eq.
  - intros k Hk. destruct (save_button w); [|reflexivity].
    apply lookup_insert_ne. congruence.
  - reflexivity.
Qed.

Lemma save_and_bookmark_effects_witness :
  exists s' v,
    rerun [mk_tweet (Some "a"%string) None None None]
      (mk_widgets "All" EmptyString EmptyString false "u" "grief" "n"
         false true false false false false 0)
      initial_session
    = (s', Rendered v)
    /\ annotations s' !! 0%nat
       = Some (mk_annotation "grief" "n" "a" "Unknown date" "u" EmptyString).
Proof.
  eexists _, _. split; [vm_compute; reflexivity|].
  refine (proj1 (save_and_bookmark_effects
                   [mk_tweet (Some "a"%string) None None None]
                   (mk_widgets "All" EmptyString EmptyString false "u" "grief"
                      "n" false true false false false false 0)
                   initial_session _
                   (mk_view [0%nat] 0 0
                      (mk_tweet (Some "a"%string) None None None) None)
                   _) eq_refl).
  vm_compute. reflexivity.
Defined.

(** X15. A saved tag can be filtered on at once: after Save at index [i],
    that index passes the tag stage for the tag just saved, the tag status
    of every other index is what it was, and the tag, unless empty, is
    among the selectbox options. *)
Theorem saved_tag_is_filterable (i : nat) (t : tweet) w anns (l : list nat) :
  (i ∈ l -> i ∈ tag_stage (save_annotation i t w anns) (tag_input w) l)
  /\ (forall tf j, j <> i ->
        has_tag (save_annotation i t w anns) tf j = has_tag anns tf j)
  /\ (tag_input w <> EmptyString ->
      tag_input w ∈ tag_selectbox (save_annotation i t w anns)).
Proof.
  split; [|split].
  - intros Hi. unfold tag_stage. destruct (negb _); [|exact Hi].
    apply list_elem_of_In, filter_In. split; [apply list_elem_of_In, Hi|].
    unfold has_tag, save_annotation. rewrite lookup_insert_eq. simpl.
    apply String.eqb_refl.
  - intros tf j Hj. unfold has_tag, save_annotation.
    rewrite lookup_insert_ne by congruence. reflexivity.
  - intros Hne. unfold tag_selectbox. right.
    rewrite merge_sort_Permutation, elem_of_elements.
    apply tag_options_elem. split; [exact Hne|].
    eexists i, _. split; [apply lookup_insert_eq|reflexivity].
Qed.

Lemma filtered_indices_same_criteria data s s' w :
  annotations s' = annotations s -> bookmarks s' = bookmarks s ->
  show_only_bookmarked s' = show_only_bookmarked s ->
  filtered_indices data s' w = filtered_indices data s w.
Proof.
  intros Ha Hb Hs. unfold filtered_indices. rewrite Ha, Hb, Hs. reflexivity.
Qed.

(** X16. A run without any click is stable: running the script again on
    the state it left, with the same widget values, leaves the same state
    and shows the same thing. *)
Theorem quiet_rerun_is_stable loaded w s :
  bookmark_button w = false -> save_button w = false ->
  previous_button w = false -> random_button w = false ->
  next_button w = false ->
  rerun loaded w (rerun loaded w s).1 = rerun loaded w s.
Proof.
  intros Hbm Hsave Hprev Hrand Hnext.
  destruct (rerun loaded w s) as [s' o] eqn:Hrun. simpl.
  unfold rerun in Hrun |- *.
  destruct (sort_data loaded) as [data|e] eqn:Hsort;
    [|injection Hrun as <- <-; reflexivity].
  set (s1 := set_show_only_bookmarked (bookmarked_checkbox w) s) in *.
  assert (Hs1 : set_show_only_bookmarked (bookmarked_checkbox w) s1 = s1)
    by reflexivity.
  destruct (filtered_indices data s1 w) as [[|first F']|e] eqn:HF.
  - injection Hrun as <- <-. rewrite Hs1, HF. reflexivity.
  - set (G := first :: F') in *.
    destruct (revalidate_spec G first s1 eq_refl) as (Hin & _ & _ & Ha & Hb).
    set (s2 := revalidate G first s1) in *.
    assert (Hshow2 : show_only_bookmarked s2 = show_only_bookmarked s1)
      by (unfold s2, revalidate; destruct (bool_decide _); reflexivity).
    assert (Htag2 : filter_tag s2 = filter_tag s1)
      by (unfold s2, revalidate; destruct (bool_decide _); reflexivity).
    destruct (render_rendered data w G s2 Hin) as (s'' & p & t & e & Hr' & _).
    { intros i Hi. eapply filtered_indices_bound; eauto. }
    rewrite Hrun in Hr'. injection Hr' as <- ->.
    pose proof Hrun as Hinv. apply render_inv in Hinv
      as (p' & t' & i & r & j & _ & _ & _ & _ & _ & _ & _ & _ & _ & Hidx
          & Hanns & Hbms & Htag & Hshow & Hord).
    rewrite Hnext, Hrand, Hprev in Hidx. rewrite Hsave in Hanns, Hord.
    rewrite Hbm in Hbms.
    assert (Hs' : s' = s2) by (apply session_eq; assumption).
    subst s'.
    assert (Hfix : set_show_only_bookmarked (bookmarked_checkbox w) s2 = s2)
      by (apply session_eq; try reflexivity; simpl; rewrite Hshow2;
          reflexivity).
    rewrite Hfix.
    rewrite (filtered_indices_same_criteria data s1 s2 w Ha Hb Hshow2).
    rewrite HF.
    match goal with
    | |- _ = ?rhs => change (render data w G (revalidate G first s2) = rhs)
    end.
    assert (Hreval : revalidate G first s2 = s2).
    { unfold revalidate at 1. rewrite bool_decide_eq_true_2 by exact Hin.
      reflexivity. }
    rewrite Hreval. exact Hrun.
  - injection Hrun as <- <-. rewrite Hs1, HF. reflexivity.
Qed.

Lemma quiet_rerun_is_stable_witness :
  rerun [mk_tweet (Some "a"%string) None None None;
         mk_tweet (Some "xb"%string) None None None]
    (set_search_keyword "x" untouched_widgets)
    (rerun [mk_tweet (Some "a"%string) None None None;
            mk_tweet (Some "xb"%string) None None None]
       (set_search_keyword "x" untouched_widgets) initial_session).1
  = rerun [mk_tweet (Some "a"%string) None None None;
           mk_tweet (Some "xb"%string) None None None]
      (set_search_keyword "x" untouched_widgets) initial_session.
Proof.
  apply quiet_rerun_is_stable; reflexivity.
Defined.

(** ** Reloading any dump *)

Lemma dict_set_keys (k : key) (v : value) (d : list (key * value)) (x : key) :
  x ∈ map fst (dict_set k v d) -> x = k \/ x ∈ map fst d.
Proof.
  induction d as [|[k' v'] d IH]; simpl.
  - intros Hx. apply elem_of_cons in Hx as [->|Hx]; [auto|].
    apply elem_of_nil in Hx. contradiction.
  - destruct (key_eqb k k'); simpl; intros Hx.
    + right. exact Hx.
    + apply elem_of_cons in Hx as [->|Hx]; [right; left|].
      destruct (IH Hx) as [->|Hin]; [auto|right; right; exact Hin].
Qed.

Lemma dict_of_pairs_keys (l : list (key * value)) (x : key) :
  x ∈ map fst (dict_of_pairs l) -> x ∈ map fst l.
Proof.
  unfold dict_of_pairs.
  assert (H : forall acc,
             x ∈ map fst (fold_left
                            (fun d kv => dict_set (fst kv) (snd kv) d) l acc)
             -> x ∈ map fst acc \/ x ∈ map fst l).
  { induction l as [|[k v] l IH]; intros acc Hx; simpl in *; [auto|].
    destruct (IH _ Hx) as [Hacc|Hl].
    - destruct (dict_set_keys _ _ _ _ Hacc) as [->|Hin];
        [right; left|left; exact Hin].
    - right. right. exact Hl. }
  intros Hx. destruct (H [] Hx) as [Hnil|Hl]; [|exact Hl].
  apply elem_of_nil in Hnil. contradiction.
Qed.

(** X18. Dumping and loading any value of the model, however its dicts
    nest: the text always loads, what comes back is the value with every
    key turned into a string, equal keys merged, and no int key is left at
    the top. *)
Theorem json_reload_has_string_keys (v : value) :
  loads (dumps v) = Some (as_reloaded v)
  /\ forall k, k ∈ keys (as_reloaded v) -> exists txt, k = KStr txt.
Proof.
  split; [apply loads_dumps|].
  destruct v as [txt|items]; simpl; intros k Hk.
  - apply elem_of_nil in Hk. contradiction.
  - apply dict_of_pairs_keys in Hk. rewrite map_map in Hk.
    apply list_elem_of_In, in_map_iff in Hk as ([k' v'] & <- & _).
    simpl. eauto.
Qed.

Lemma distinct_keys_nodup (ks : list key) :
  distinct_keys ks = true -> NoDup ks.
Proof.
  induction ks as [|k ks IH]; simpl; intros H; [constructor|].
  apply andb_true_iff in H as [Hk Hks]. constructor; [|auto].
  intros Hin. apply negb_true_iff in Hk.
  assert (existsb (key_eqb k) ks = true); [|congruence].
  apply existsb_exists. exists k. split; [apply list_elem_of_In, Hin|].
  apply key_eqb_eq. reflexivity.
Qed.

Lemma str_keyed_fixed (n : nat) :
  forall v, (size v <= n)%nat -> str_keyed v = true -> as_reloaded v = v.
Proof.
  induction n as [|n IH]; intros v Hsz Hv.
  { pose proof (size_pos v). lia. }
  destruct v as [txt|items]; [reflexivity|].
  simpl in Hv, Hsz. apply andb_true_iff in Hv as [Hnd Hall].
  cbn [as_reloaded].
  assert (Hmap : map (fun kv => match kv with
                                | (key, v') =>
                                    (KStr (key_str key), as_reloaded v')
                                end) items = items).
  { clear Hnd. apply le_S_n in Hsz.
    induction items as [|[k v'] items IHi]; simpl in *; [reflexivity|].
    destruct k as [i|txt]; [discriminate|].
    apply andb_true_iff in Hall as [Hv' Hall].
    rewrite (IH v') by (auto; lia). rewrite IHi by (auto; lia).
    reflexivity. }
  rewrite Hmap, dict_of_pairs_nodup; [reflexivity|].
  apply distinct_keys_nodup. exact Hnd.
Qed.

(** X19. A value whose dicts have only string keys, all different, at
    every depth comes back from its own text exactly as it was. *)
Theorem json_round_trip (v : value) :
  str_keyed v = true -> loads (dumps v) = Some v.
Proof.
  intros Hv. rewrite loads_dumps.
  rewrite (str_keyed_fixed (size v)); auto.
Qed.

Lemma json_round_trip_witness :
  loads (dumps (VDict [(KStr "0", VDict [(KStr "tag", VStr "grief");
                                         (KStr "note", VStr "n")]);
                       (KStr "12", VDict [])]))
  = Some (VDict [(KStr "0", VDict [(KStr "tag", VStr "grief");
                                   (KStr "note", VStr "n")]);
                 (KStr "12", VDict [])]).
Proof.
  apply json_round_trip. reflexivity.
Defined.


(** ** The user name shown *)

Lemma string_app_assoc (a b c : string) :
  (a +:+ b) +:+ c = a +:+ (b +:+ c).
Proof.
  induction a as [|x a IH]; [reflexivity|].
  change (String x ((a +:+ b) +:+ c) = String x (a +:+ (b +:+ c))).
  rewrite IH. reflexivity.
Qed.

Lemma string_app_length (a b : string) :
  String.length (a +:+ b) = (String.length a + String.length b)%nat.
Proof.
  induction a as [|x a IH]; [reflexivity|].
  change (S (String.length (a +:+ b))
          = S (String.length a + String.length b)).
  rewrite IH. reflexivity.
Qed.

Lemma prefix_app (p s : string) :
  String.prefix p s = true -> exists rest, s = p +:+ rest.
Proof.
  revert s. induction p as [|c p IH]; intros s H.
  - exists s. reflexivity.
  - destruct s as [|d s]; [discriminate|].
    cbn in H. destruct (ascii_dec c d) as [->|Hne]; [|discriminate].
    destruct (IH s H) as [rest ->]. exists rest. reflexivity.
Qed.

Lemma split_go_skip (sep p rest : string) :
  PyText.split_go sep (String.length p) (p +:+ rest)
  = PyText.split_go sep 0 rest.
Proof.
  induction p as [|c p IH].
  - destruct rest; reflexivity.
  - exact IH.
Qed.

Lemma contains_cons (sep : string) (c : ascii) (s : string) :
  PyStr.contains sep (String c s)
  = if String.prefix sep (String c s) then true else PyStr.contains sep s.
Proof. reflexivity. Qed.

Lemma split_go_no_match (sep : string) (c : ascii) (s : string) :
  String.prefix sep (String c s) = false ->
  PyText.split_go sep 0 (String c s)
  = match PyText.split_go sep 0 s with
    | tok :: toks => String c tok :: toks
    | [] => [String c EmptyString]
    end.
Proof. intros H. cbn [PyText.split_go]. rewrite H. reflexivity. Qed.

Lemma prefix_app_true (p rest : string) :
  String.prefix p (p +:+ rest) = true.
Proof.
  induction p as [|x p IH]; [destruct rest; reflexivity|].
  change (String x p +:+ rest) with (String x (p +:+ rest)).
  cbn. destruct (ascii_dec x x); [exact IH|contradiction].
Qed.

Lemma split_go_match (c0 : ascii) (sep' rest : string) :
  PyText.split_go (String c0 sep') 0 (String c0 sep' +:+ rest)
  = EmptyString :: PyText.split_go (String c0 sep') 0 rest.
Proof.
  pose proof (prefix_app_true (String c0 sep') rest) as Hpre.
  change (String c0 sep' +:+ rest) with (String c0 (sep' +:+ rest)) in *.
  cbn [PyText.split_go]. rewrite Hpre.
  change (String.length (String c0 sep') - 1)%nat
    with (String.length sep' - 0)%nat.
  rewrite Nat.sub_0_r, split_go_skip. reflexivity.
Qed.

(** The tokens of a split end with a piece free of the separator; when the
    piece is the only token it is the whole text, otherwise it is what
    follows an occurrence of the separator. *)
Lemma split_go_last (c0 : ascii) (sep' : string) (n : nat) :
  forall s : string,
    (String.length s <= n)%nat ->
    exists toks piece,
      PyText.split_go (String c0 sep') 0 s = toks ++ [piece]
      /\ PyStr.contains (String c0 sep') piece = false
      /\ (toks = [] -> piece = s)
      /\ (toks <> [] -> exists pre, s = pre +:+ String c0 sep' +:+ piece).
Proof.
  induction n as [|n IH]; intros s Hlen.
  { destruct s; [|cbn in Hlen; lia].
    exists [], EmptyString. repeat split; auto. contradiction. }
  destruct s as [|c s'].
  { exists [], EmptyString. repeat split; auto. contradiction. }
  destruct (String.prefix (String c0 sep') (String c s')) eqn:Hpre.
  - destruct (prefix_app _ _ Hpre) as [rest Hrest]. rewrite Hrest.
    rewrite split_go_match.
    destruct (IH rest) as (toks & piece & Hsplit & Hfree & Hone & Hmore).
    { rewrite Hrest, string_app_length in Hlen. cbn in Hlen. lia. }
    rewrite Hsplit.
    exists (EmptyString :: toks), piece. split; [reflexivity|].
    split; [exact Hfree|]. split; [discriminate|]. intros _.
    destruct toks as [|tok toks].
    + rewrite (Hone eq_refl). exists EmptyString. reflexivity.
    + destruct Hmore as [pre ->]; [discriminate|].
      exists (String c0 sep' +:+ pre).
      rewrite string_app_assoc. reflexivity.
  - rewrite (split_go_no_match _ _ _ Hpre).
    destruct (IH s') as (toks & piece & Hsplit & Hfree & Hone & Hmore).
    { cbn in Hlen. lia. }
    rewrite Hsplit.
    destruct toks as [|tok toks].
    + exists [], (String c piece). split; [reflexivity|].
      rewrite (Hone eq_refl) in *.
      split; [|split; [reflexivity|contradiction]].
      rewrite contains_cons, Hpre. exact Hfree.
    + exists (String c tok :: toks), piece. split; [reflexivity|].
      split; [exact Hfree|]. split; [discriminate|]. intros _.
      destruct Hmore as [pre ->]; [discriminate|].
      exists (String c pre). reflexivity.
Qed.

(** A text free of the separator is a single token. *)
Lemma split_go_free (c0 : ascii) (sep' s : string) :
  PyStr.contains (String c0 sep') s = false ->
  PyText.split_go (String c0 sep') 0 s = [s].
Proof.
  induction s as [|c s IH]; intros Hfree; [reflexivity|].
  rewrite contains_cons in Hfree.
  destruct (String.prefix (String c0 sep') (String c s)) eqn:Hpre;
    [discriminate|].
  rewrite (split_go_no_match _ _ _ Hpre), (IH Hfree). reflexivity.
Qed.

Lemma rstrip_char_no_tail (ch : ascii) (s r : string) :
  PyText.rstrip_char ch s <> r +:+ String ch EmptyString.
Proof.
  revert r. induction s as [|c s IH]; intros r; cbn [PyText.rstrip_char].
  - destruct r; discriminate.
  - destruct (PyText.rstrip_char ch s) as [|d t] eqn:Ht.
    + destruct (Ascii.eqb_spec c ch) as [->|Hne].
      * destruct r; discriminate.
      * destruct r as [|x r].
        -- intros [= ->]. contradiction.
        -- destruct r; discriminate.
    + destruct r as [|x r]; [discriminate|].
      change (String x r +:+ String ch EmptyString)
        with (String x (r +:+ String ch EmptyString)).
      intros [= -> Hr]. exact (IH r Hr).
Qed.

Lemma rstrip_char_head (ch c : ascii) (s : string) :
  c <> ch -> exists t, PyText.rstrip_char ch (String c s) = String c t.
Proof.
  intros Hne. cbn [PyText.rstrip_char].
  destruct (PyText.rstrip_char ch s); [|eauto].
  destruct (Ascii.eqb_spec c ch); [contradiction|eauto].
Qed.

Lemma strip_char_no_head (ch : ascii) (s r : string) :
  PyText.strip_char ch s <> String ch r.
Proof.
  unfold PyText.strip_char.
  induction s as [|c s IH]; cbn [PyText.lstrip_char]; [discriminate|].
  destruct (Ascii.eqb_spec c ch) as [->|Hne]; [exact IH|].
  destruct (rstrip_char_head ch c s Hne) as [t ->]. congruence.
Qed.

(** X20. The default user name: "Unknown user" when the profile link is
    missing or has no "twitter.com/" in it; otherwise the text that follows
    an occurrence of "twitter.com/" and has no further occurrence in it,
    without the slashes at its two ends.  For a link of the form
    "https://twitter.com/NAME" it is NAME without those slashes.  It
    never starts or ends with a slash. *)
Theorem profile_user_spec (t : tweet) :
  (PyStr.contains "twitter.com/" (default EmptyString (t_profile t)) = false ->
   profile_user t = "Unknown user"%string)
  /\ (PyStr.contains "twitter.com/" (default EmptyString (t_profile t)) = true ->
      exists pre piece,
        default EmptyString (t_profile t)
        = pre +:+ "twitter.com/" +:+ piece
        /\ PyStr.contains "twitter.com/" piece = false
        /\ profile_user t = PyText.strip_char "/" piece)
  /\ (forall name,
        t_profile t = Some ("https://twitter.com/" +:+ name) ->
        PyStr.contains "twitter.com/" name = false ->
        profile_user t = PyText.strip_char "/" name)
  /\ (forall r, profile_user t <> String "/" r)
  /\ (forall r, profile_user t <> r +:+ "/").
Proof.
  unfold profile_user. cbv zeta.
  set (url := default EmptyString (t_profile t)).
  destruct (split_go_last "t" "witter.com/" (String.length url) url (le_n _))
    as (toks & piece & Hsplit & Hfree & Hone & Hmore).
  split; [|split; [|split; [|split]]].
  - intros ->. reflexivity.
  - intros Hc. rewrite Hc. unfold PyText.split_str.
    rewrite Hsplit, last_snoc. cbn [default].
    destruct toks as [|tok toks].
    + rewrite (Hone eq_refl) in Hfree. congruence.
    + destruct Hmore as [pre Hpre]; [discriminate|]. eauto.
  - intros name Hurl Hname.
    assert (Hu : url = "https://twitter.com/" +:+ name)
      by (unfold url; rewrite Hurl; reflexivity).
    rewrite Hu. clear Hsplit Hfree Hone Hmore.
    change ("https://twitter.com/" +:+ name)
      with (String "h" (String "t" (String "t" (String "p" (String "s"
             (String ":" (String "/" (String "/"
                ("twitter.com/" +:+ name))))))))).
    assert (Hc : PyStr.contains "twitter.com/"
                   (String "h" (String "t" (String "t" (String "p" (String "s"
                      (String ":" (String "/" (String "/"
                         ("twitter.com/" +:+ name))))))))) = true).
    { do 8 (rewrite contains_cons;
            match goal with
            | |- (if ?b then _ else _) = _ =>
                replace b with false by reflexivity
            end).
      pose proof (prefix_app_true "twitter.com/" name) as Hpre.
      change ("twitter.com/" +:+ name)
        with (String "t" ("witter.com/" +:+ name)) in *.
      rewrite contains_cons, Hpre. reflexivity. }
    rewrite Hc. f_equal. unfold PyText.split_str.
    rewrite !split_go_no_match by reflexivity.
    rewrite split_go_match, (split_go_free _ _ _ Hname). reflexivity.
  - intros r. destruct (PyStr.contains "twitter.com/" url);
      [apply strip_char_no_head|discriminate].
  - intros r. destruct (PyStr.contains "twitter.com/" url).
    + apply rstrip_char_no_tail.
    + change "Unknown user"%string
        with (PyText.rstrip_char "/" "Unknown user").
      apply rstrip_char_no_tail.
Qed.

(** ** Export, continued *)

Lemma escape_char_verbatim (c : ascii) (k : string) :
  verbatim c = true -> escape_char c k = String c k.
Proof.
  unfold verbatim, escape_char. cbv zeta. intros H.
  apply andb_true_iff in H as [H H32]. apply andb_true_iff in H as [Hq Hb].
  apply negb_true_iff in Hq, Hb. apply N.leb_le in H32.
  rewrite Hq, Hb.
  repeat match goal with
         | |- context [(?a =? ?b)%N] => destruct (N.eqb_spec a b); [lia|]
         end.
  destruct (N.ltb_spec (N_of_ascii c) 32); [lia|]. reflexivity.
Qed.

Lemma escape_verbatim (s k : string) :
  all_verbatim s = true -> escape s k = s +:+ k.
Proof.
  induction s as [|c s IH]; simpl; intros H; [reflexivity|].
  apply andb_true_iff in H as [Hc Hs].
  rewrite (IH Hs), (escape_char_verbatim _ _ Hc). reflexivity.
Qed.

Lemma non_ascii_verbatim (c : ascii) :
  (128 <= N_of_ascii c)%N -> verbatim c = true.
Proof.
  intros H. unfold verbatim.
  destruct (Ascii.eqb_spec c dquote) as [->|_];
    [exfalso; apply H; reflexivity|].
  destruct (Ascii.eqb_spec c backslash) as [->|_];
    [exfalso; apply H; reflexivity|].
  simpl. apply N.leb_le. lia.
Qed.

Section Occurrence.

(** Where the literal of a text [f] made of verbatim characters stands
    in a dump. *)
Variable f : string.
Hypothesis f_verbatim : all_verbatim f = true.

Lemma literal_cons (c : ascii) (X : string) :
  literal_in f X -> literal_in f (String c X).
Proof.
  intros (pre & post & ->). exists (String c pre), post. reflexivity.
Qed.

Lemma literal_here (rest : string) : literal_in f (dump_str f rest).
Proof.
  unfold dump_str. rewrite (escape_verbatim _ _ f_verbatim).
  exists EmptyString, rest. reflexivity.
Qed.

Lemma literal_escape (t X : string) :
  literal_in f X -> literal_in f (escape t X).
Proof.
  intros HX. induction t as [|c t IH]; simpl; [exact HX|].
  unfold escape_char. cbv zeta.
  repeat match goal with
         | |- context [if ?b then _ else _] => destruct b
         end; repeat apply literal_cons; exact IH.
Qed.

Lemma literal_dump_str (t X : string) :
  literal_in f X -> literal_in f (dump_str t X).
Proof.
  intros HX. unfold dump_str.
  apply literal_cons, literal_escape, literal_cons, HX.
Qed.

Lemma literal_spaces (n : nat) (X : string) :
  literal_in f X -> literal_in f (spaces n X).
Proof.
  intros HX. induction n as [|n IH]; simpl; [exact HX|].
  apply literal_cons, IH.
Qed.

Lemma literal_newline_indent (level : nat) (X : string) :
  literal_in f X -> literal_in f (newline_indent level X).
Proof.
  intros HX. unfold newline_indent. apply literal_cons, literal_spaces, HX.
Qed.

Lemma literal_members {A : Type} (di : A -> string -> string) (level : nat)
    (l : list A) (k : string) (x : A) :
  x ∈ l ->
  (forall y rest, y ∈ l -> literal_in f rest -> literal_in f (di y rest)) ->
  (forall rest, literal_in f (di x rest)) ->
  forall first, literal_in f (dump_members di level first l k).
Proof.
  intros Hx Hmono Hhere.
  induction l as [|y l IH]; intros first.
  - apply elem_of_nil in Hx. contradiction.
  - rewrite dump_members_cons.
    assert (Hbody : literal_in f (newline_indent level
                              (di y (dump_members di level false l k)))).
    { apply literal_newline_indent.
      apply elem_of_cons in Hx as [<-|Hx]; [apply Hhere|].
      apply Hmono; [left|]. apply IH; [exact Hx|].
      intros z rest Hz. apply Hmono. right. exact Hz. }
    destruct first; [exact Hbody|apply literal_cons, Hbody].
Qed.

Lemma literal_members_tail {A : Type} (di : A -> string -> string)
    (level : nat) (l : list A) (k : string) :
  (forall y rest, y ∈ l -> literal_in f rest -> literal_in f (di y rest)) ->
  literal_in f k ->
  forall first, literal_in f (dump_members di level first l k).
Proof.
  intros Hmono Hk.
  induction l as [|y l IH]; intros first.
  - rewrite dump_members_nil. apply literal_newline_indent, literal_cons, Hk.
  - rewrite dump_members_cons.
    assert (Hbody : literal_in f (newline_indent level
                              (di y (dump_members di level false l k)))).
    { apply literal_newline_indent. apply Hmono; [left|].
      apply IH. intros z rest Hz. apply Hmono. right. exact Hz. }
    destruct first; [exact Hbody|apply literal_cons, Hbody].
Qed.

Lemma literal_field_member (level : nat) (name t : string) (rest : string) :
  literal_in f rest ->
  literal_in f (dump_member level (KStr name, VStr t) rest).
Proof.
  intros H. unfold dump_member. cbn [dump_onto key_str].
  apply literal_dump_str, literal_cons, literal_cons, literal_dump_str, H.
Qed.

Lemma literal_annotation_tail (level : nat) (a : annotation) (rest : string) :
  literal_in f rest -> literal_in f (dump_onto level (annotation_value a) rest).
Proof.
  intros H. unfold annotation_value. rewrite dump_onto_dict.
  apply literal_cons, literal_members_tail; [|exact H].
  intros [key v] r Hy Hr.
  repeat (apply elem_of_cons in Hy as [[= -> ->]|Hy];
          [apply literal_field_member, Hr|]).
  apply elem_of_nil in Hy. contradiction.
Qed.

Lemma literal_annotation (level : nat) (a : annotation) (rest : string) :
  f ∈ annotation_fields a ->
  literal_in f (dump_onto level (annotation_value a) rest).
Proof.
  intros Hf. unfold annotation_value. rewrite dump_onto_dict.
  apply literal_cons.
  assert (Hname : exists name,
             (KStr name, VStr f)
             ∈ [(KStr "tag", VStr (a_tag a)); (KStr "note", VStr (a_note a));
                (KStr "content", VStr (a_content a));
                (KStr "date", VStr (a_date a)); (KStr "user", VStr (a_user a));
                (KStr "url", VStr (a_url a))]).
  { unfold annotation_fields in Hf.
    repeat (apply elem_of_cons in Hf as [->|Hf];
            [eexists; repeat (first [left; reflexivity | right]); fail|]).
    apply elem_of_nil in Hf. contradiction. }
  destruct Hname as [name Hname].
  apply (literal_members _ _ _ _ _ Hname).
  - intros [key v] r Hy Hr.
    repeat (apply elem_of_cons in Hy as [[= -> ->]|Hy];
            [apply literal_field_member, Hr|]).
    apply elem_of_nil in Hy. contradiction.
  - intros r. unfold dump_member. cbn [dump_onto key_str].
    apply literal_dump_str, literal_cons, literal_cons, literal_here.
Qed.

Lemma literal_store (items : list (nat * annotation)) (i : nat)
    (a : annotation) :
  (i, a) ∈ items -> f ∈ annotation_fields a ->
  literal_in f (dumps (store_value items)).
Proof.
  intros Hia Hf. unfold dumps, store_value.
  assert (Hin : (KInt i, annotation_value a)
                ∈ map (fun ia : nat * annotation =>
                         (KInt (fst ia), annotation_value (snd ia))) items).
  { apply list_elem_of_In, in_map_iff. exists (i, a).
    split; [reflexivity|]. apply list_elem_of_In. exact Hia. }
  destruct (map _ items) as [|kv l] eqn:Hmap.
  { apply elem_of_nil in Hin. contradiction. }
  rewrite dump_onto_dict. apply literal_cons.
  apply (literal_members _ _ _ _ _ Hin).
  - intros [key v] r Hy Hr. rewrite <- Hmap in Hy.
    apply list_elem_of_In, in_map_iff in Hy as ([j b] & [= <- <-] & _).
    unfold dump_member.
    apply literal_dump_str, literal_cons, literal_cons.
    apply literal_annotation_tail, Hr.
  - intros r. unfold dump_member.
    apply literal_dump_str, literal_cons, literal_cons, literal_annotation, Hf.
Qed.

End Occurrence.

(** *** The key order of the store *)

Lemma store_ok_initial :
  store_ok (annotations initial_session) (annotation_order initial_session).
Proof.
  split; [constructor|]. intros i. simpl. split.
  - intros H. apply elem_of_nil in H. contradiction.
  - intros [a Ha]. rewrite lookup_empty in Ha. discriminate.
Qed.

Lemma order_after_set_elem (i j : nat) (order : list nat) :
  j ∈ order_after_set i order <-> j = i \/ j ∈ order.
Proof.
  unfold order_after_set. destruct (decide (i ∈ order)) as [Hi|Hi].
  - rewrite (bool_decide_eq_true_2 _ Hi). split; [auto|].
    intros [->|H]; assumption.
  - rewrite (bool_decide_eq_false_2 _ Hi).
    rewrite elem_of_app, list_elem_of_singleton. tauto.
Qed.

Lemma store_ok_save anns (order : list nat) (i : nat) (a : annotation) :
  store_ok anns order -> store_ok (<[i := a]> anns) (order_after_set i order).
Proof.
  intros [Hnd Hdom]. split.
  - unfold order_after_set. destruct (decide (i ∈ order)) as [Hi|Hi].
    + rewrite (bool_decide_eq_true_2 _ Hi). exact Hnd.
    + rewrite (bool_decide_eq_false_2 _ Hi).
      apply NoDup_app. split; [exact Hnd|]. split; [|apply NoDup_singleton].
      intros x Hx Hx'. apply list_elem_of_singleton in Hx' as ->. auto.
  - intros j. rewrite order_after_set_elem, Hdom.
    destruct (decide (j = i)) as [->|Hne].
    + rewrite lookup_insert_eq. split; eauto.
    + rewrite lookup_insert_ne by congruence. split; [|auto].
      intros [->|H]; [contradiction|exact H].
Qed.

(** What a run does to the store: nothing, or the assignment of line 137
    at the cursor of a run that renders with Save clicked. *)
Lemma rerun_store loaded w s :
  (annotations (rerun loaded w s).1 = annotations s
   /\ annotation_order (rerun loaded w s).1 = annotation_order s
   /\ (save_button w = false
       \/ forall v, (rerun loaded w s).2 <> Rendered v))
  \/ exists (v : view),
       (rerun loaded w s).2 = Rendered v
       /\ save_button w = true
       /\ annotations (rerun loaded w s).1
          = save_annotation (v_current_index v) (v_tweet v) w (annotations s)
       /\ annotation_order (rerun loaded w s).1
          = order_after_set (v_current_index v) (annotation_order s).
Proof.
  destruct (rerun loaded w s) as [s' o] eqn:Hrun. cbn [fst snd].
  destruct o as [e|msg|v].
  1,2: left; unfold rerun in Hrun;
       destruct (sort_data loaded) as [data|e'];
       [|injection Hrun as <- _; repeat split; auto; right; discriminate];
       destruct (filtered_indices data _ w) as [[|first F']|e''] eqn:HF;
       [injection Hrun as <- _; repeat split; auto; right; discriminate| |
        injection Hrun as <- _; repeat split; auto; right; discriminate].
  1,2: exfalso;
       assert (Hin : index (revalidate (first :: F') first
                       (set_show_only_bookmarked (bookmarked_checkbox w) s))
                     ∈ first :: F')
         by (apply revalidate_spec; reflexivity);
       destruct (render_rendered data w (first :: F') _ Hin)
         as (s'' & p & t & ex & Hr' & _);
       [intros i Hi; eapply filtered_indices_bound; eauto|];
       rewrite Hrun in Hr'; discriminate Hr'.
  destruct (rerun_inv _ _ _ _ _ Hrun) as (data & first & F' & _ & _ & Hr).
  set (s1 := set_show_only_bookmarked (bookmarked_checkbox w) s) in *.
  destruct (revalidate_spec (first :: F') first s1 eq_refl)
    as (_ & _ & _ & Ha & _).
  assert (Ho : annotation_order (revalidate (first :: F') first s1)
               = annotation_order s)
    by (unfold revalidate; destruct (bool_decide _); reflexivity).
  apply render_inv in Hr
    as (p & t & i & r & j & _ & _ & _ & _ & _ & _ & _ & _ & -> & _
        & Hanns & _ & _ & _ & Hord).
  rewrite Ha in Hanns. rewrite Ho in Hord.
  destruct (save_button w) eqn:Hsave.
  - right. eexists. split; [reflexivity|]. cbn [v_current_index v_tweet].
    auto.
  - left. auto.
Qed.

Lemma rerun_store_ok loaded w s :
  store_ok (annotations s) (annotation_order s) ->
  store_ok (annotations (rerun loaded w s).1)
    (annotation_order (rerun loaded w s).1).
Proof.
  intros Hok.
  destruct (rerun_store loaded w s) as [(-> & -> & _)|(v & _ & _ & -> & ->)];
    [exact Hok|].
  apply store_ok_save. exact Hok.
Qed.

Lemma store_items_elem anns (order : list nat) (i : nat) (a : annotation) :
  (i, a) ∈ store_items anns order <-> i ∈ order /\ anns !! i = Some a.
Proof.
  unfold store_items. rewrite list_elem_of_omap. split.
  - intros (j & Hj & Hja). destruct (anns !! j) as [b|] eqn:Hb; [|discriminate].
    injection Hja as <- <-. auto.
  - intros [Hi Ha]. exists i. rewrite Ha. auto.
Qed.

Lemma store_items_fst anns (order : list nat) :
  (forall i, i ∈ order -> is_Some (anns !! i)) ->
  map fst (store_items anns order) = order.
Proof.
  induction order as [|i order IH]; intros H; [reflexivity|].
  unfold store_items. cbn [omap list_omap].
  destruct (H i) as [a Ha]; [left|]. rewrite Ha. cbn [map fst].
  f_equal. apply IH. intros j Hj. apply H. right. exact Hj.
Qed.

Lemma store_items_lookup anns (order : list nat) (i : nat) :
  store_ok anns order ->
  (list_to_map (store_items anns order) : gmap nat annotation) !! i
  = anns !! i.
Proof.
  intros [Hnd Hdom].
  assert (Hfst : map fst (store_items anns order) = order)
    by (apply store_items_fst; intros j Hj; apply Hdom; exact Hj).
  assert (Hnd' : NoDup (store_items anns order).*1)
    by (change (NoDup (map fst (store_items anns order)));
        rewrite Hfst; exact Hnd).
  apply option_eq. intros a.
  rewrite <- (elem_of_list_to_map _ _ _ Hnd'), store_items_elem.
  split; [intros [_ H]; exact H|].
  intros H. split; [|exact H]. apply Hdom. eauto.
Qed.

Lemma dict_get_int_reloaded (items : list (nat * annotation)) (i : nat) :
  dict_get (KInt i) (map reloaded_item items) = None.
Proof.
  induction items as [|[j a] items IH]; [reflexivity|exact IH].
Qed.

(** C9, amended. In a run that renders with Export clicked, whatever the
    file held before, it holds afterwards the dump of the whole store as
    the run leaves it.  Loading that text succeeds and gives one entry per
    annotation of the store, in the order of the store, under the decimal
    text of its index and under no int; the six fields of an entry are the
    stored texts.  In the file a field whose characters are all copied
    verbatim stands as it is between two quotes, and the bytes of every
    non-ASCII character are copied verbatim. *)
Theorem export_then_reload loaded w s s' (v : view) :
  store_ok (annotations s) (annotation_order s) ->
  rerun loaded w s = (s', Rendered v) ->
  export_button w = true ->
  exists txt val,
    (forall before, export_file (Rendered v) before = Some txt)
    /\ txt = export_text (annotations s') (annotation_order s')
    /\ loads txt = Some val
    /\ keys val = map (fun i : nat => KStr (pretty i)) (annotation_order s')
    /\ (forall i : nat,
          get (KStr (pretty i)) val = annotation_value <$> (annotations s' !! i)
          /\ get (KInt i) val = None)
    /\ (forall (i : nat) (a : annotation) (f : string),
          annotations s' !! i = Some a ->
          f ∈ annotation_fields a ->
          all_verbatim f = true ->
          literal_in f txt)
    /\ (forall c : ascii, (128 <= N_of_ascii c)%N -> verbatim c = true).
Proof.
  intros Hok Hrun Hexp.
  pose proof (rerun_store_ok loaded w s Hok) as Hok'.
  rewrite Hrun in Hok'. cbn [fst] in Hok'.
  destruct (rerun_inv _ _ _ _ _ Hrun) as (data & first & F' & _ & _ & Hr).
  pose proof (export_is_a_snapshot _ _ _ _ _ _ Hr) as Hv.
  rewrite Hexp in Hv.
  set (items := store_items (annotations s') (annotation_order s')).
  assert (Hfst : map fst items = annotation_order s').
  { apply store_items_fst. intros j Hj. apply Hok'. exact Hj. }
  exists (export_text (annotations s') (annotation_order s')),
         (VDict (map reloaded_item items)).
  split; [|split; [|split; [|split; [|split; [|split]]]]].
  - intros before. unfold export_file. rewrite Hv. reflexivity.
  - reflexivity.
  - unfold export_text. apply loads_dumps_store.
    fold items. rewrite Hfst. apply Hok'.
  - cbn [keys]. rewrite map_map. rewrite <- Hfst, map_map. reflexivity.
  - intros i. cbn [get]. split; [|apply dict_get_int_reloaded].
    rewrite dict_get_reloaded. unfold items.
    rewrite (store_items_lookup _ _ _ Hok'). reflexivity.
  - intros i a f Ha Hf Hplain. unfold export_text.
    apply (literal_store f Hplain items i a); [|exact Hf].
    apply store_items_elem. split; [|exact Ha]. apply Hok'. eauto.
  - apply non_ascii_verbatim.
Qed.

Lemma export_then_reload_witness :
  exists txt val,
    (forall before,
        export_file
          (Rendered
             (mk_view [0%nat] 0 0 (mk_tweet (Some "a"%string) None None None)
                (Some (export_text
                         {[ 0%nat := mk_annotation "décès" "n" "a"
                                       "Unknown date" "u" EmptyString ]}
                         [0%nat]))))
          before
        = Some txt)
    /\ txt = export_text
               {[ 0%nat := mk_annotation "décès" "n" "a" "Unknown date" "u"
                             EmptyString ]}
               [0%nat]
    /\ loads txt = Some val
    /\ keys val = map (fun i : nat => KStr (pretty i)) [0%nat]
    /\ (forall i : nat,
          get (KStr (pretty i)) val
          = annotation_value
              <$> (({[ 0%nat := mk_annotation "décès" "n" "a" "Unknown date"
                                  "u" EmptyString ]}
                      : gmap nat annotation) !! i)
          /\ get (KInt i) val = None)
    /\ (forall (i : nat) (a : annotation) (f : string),
          ({[ 0%nat := mk_annotation "décès" "n" "a" "Unknown date" "u"
                         EmptyString ]}
             : gmap nat annotation) !! i = Some a ->
          f ∈ annotation_fields a ->
          all_verbatim f = true ->
          literal_in f txt)
    /\ (forall c : ascii, (128 <= N_of_ascii c)%N -> verbatim c = true).
Proof.
  refine (export_then_reload
            [mk_tweet (Some "a"%string) None None None]
            (mk_widgets "All" EmptyString EmptyString false "u" "décès"
               "n" false true false false false true 0)
            initial_session
            (mk_session 0
               {[ 0%nat := mk_annotation "décès" "n" "a" "Unknown date"
                             "u" EmptyString ]}
               [0%nat] EmptyString ∅ false)
            (mk_view [0%nat] 0 0
               (mk_tweet (Some "a"%string) None None None)
               (Some (export_text
                        {[ 0%nat := mk_annotation "décès" "n" "a"
                                      "Unknown date" "u" EmptyString ]}
                        [0%nat])))
            store_ok_initial _ eq_refl).
  vm_compute. reflexivity.
Defined.

(** X17. The store keeps its keys in the order of their first insertion,
    which is the order of the exported file.  A run never removes or moves
    a key: the key order before the run is a prefix of the key order after
    it, it lists the keys of the store, each once, and Save in a run that
    renders adds the cursor at the end when it has no annotation yet, and
    leaves the order as it is when it has one. *)
Theorem store_keeps_insertion_order loaded w s :
  store_ok (annotations s) (annotation_order s) ->
  store_ok (annotations (rerun loaded w s).1)
    (annotation_order (rerun loaded w s).1)
  /\ annotation_order s `prefix_of` annotation_order (rerun loaded w s).1
  /\ (forall v : view,
        (rerun loaded w s).2 = Rendered v -> save_button w = true ->
        annotation_order (rerun loaded w s).1
        = if bool_decide (is_Some (annotations s !! v_current_index v))
          then annotation_order s
          else annotation_order s ++ [v_current_index v])
  /\ ((save_button w = false \/ forall v, (rerun loaded w s).2 <> Rendered v) ->
      annotation_order (rerun loaded w s).1 = annotation_order s).
Proof.
  intros Hok. split; [apply rerun_store_ok; exact Hok|].
  assert (Hafter : forall i,
             order_after_set i (annotation_order s)
             = if bool_decide (is_Some (annotations s !! i))
               then annotation_order s else annotation_order s ++ [i]).
  { intros i. unfold order_after_set. destruct Hok as [_ Hdom].
    destruct (decide (i ∈ annotation_order s)) as [Hi|Hi].
    - rewrite (bool_decide_eq_true_2 _ Hi).
      rewrite bool_decide_eq_true_2 by (apply Hdom; exact Hi). reflexivity.
    - rewrite (bool_decide_eq_false_2 _ Hi).
      rewrite bool_decide_eq_false_2 by (rewrite <- Hdom; exact Hi).
      reflexivity. }
  destruct (rerun_store loaded w s)
    as [(_ & Ho & Hcase)|(v & Hv & Hsave & _ & Ho)].
  - rewrite Ho. split; [reflexivity|]. split; [|reflexivity].
    intros v Hv Hsave. destruct Hcase as [Hno|Hno].
    + congruence.
    + exfalso. exact (Hno v Hv).
  - rewrite Ho, Hafter. split; [|split].
    + destruct (bool_decide _); [reflexivity|]. apply prefix_app_r. reflexivity.
    + intros v' Hv' _. rewrite Hv in Hv'. injection Hv' as <-. reflexivity.
    + intros [Hno|Hno]; [congruence|]. exfalso. exact (Hno v Hv).
Qed.

Lemma store_keeps_insertion_order_witness :
  store_ok
    {[ 0%nat := mk_annotation "grief" "n" "a" "Unknown date" "u" EmptyString ]}
    [0%nat]
  /\ [] `prefix_of` [0%nat]
  /\ [0%nat] = [] ++ [0%nat].
Proof.
  destruct (store_keeps_insertion_order
              [mk_tweet (Some "a"%string) None None None]
              (mk_widgets "All" EmptyString EmptyString false "u" "grief" "n"
                 false true false false false false 0)
              initial_session store_ok_initial)
    as (Hok & Hprefix & Hsave & _).
  split; [exact Hok|]. split; [exact Hprefix|].
  exact (Hsave _ eq_refl eq_refl).
Defined.
